(** * URL checker: a shallow embedding of [src/url_checker.py] and
      [web_scraper_latest.py], and the properties of their specification.

    The two scripts read a file of URLs, fetch every URL that has no row
    yet in an SQLite table [results], count the [<script>] tags of each
    page, store one row per URL and export the table as CSV.

    Modelling decisions, all stated where they are made:
    - a Python [str] is a Rocq [string]; one [ascii] stands for one code
      point below U+0100;
    - exceptions are values of [exn]; a computation is a function from the
      program state to an outcome and a new state (the monad [M]);
    - the program state holds the file system (one map from paths to
      text files, SQLite databases and paths that cannot be opened), the
      trace of HTTP requests issued and the lines printed; the [logging]
      calls are not modelled;
    - a path is the name of a file: two paths that differ are taken to
      name different files (no [.] or [..] components, no links, no
      folding of case), and a file that is there can be read and written
      (no permissions);
    - the HTTP client and the HTML parser are parameters ([Network]);
    - what Python leaves unspecified (iteration order of a [set], order in
      which futures complete, row order of a [SELECT] without
      [ORDER BY]) is a parameter too ([Oracle]), constrained only to
      return a permutation. *)

From Stdlib Require Import ZArith Ascii String DecimalString DecimalPos DecimalZ.
From stdpp Require Import gmap strings list.

Local Open Scope string_scope.
Local Open Scope Z_scope.

(** * Python primitives *)

Module Py.

(** [str.isspace] on the code points below U+0100: U+0009..U+000D,
    U+001C..U+0020, U+0085 and U+00A0. *)
Definition isspace (c : ascii) : bool :=
  let n := nat_of_ascii c in
  ((9 <=? n)%nat && (n <=? 13)%nat) ||
  ((28 <=? n)%nat && (n <=? 32)%nat) ||
  (n =? 133)%nat || (n =? 160)%nat.

(** [s.lstrip()], [s.rstrip()] and [s.strip()]. *)
Fixpoint lstrip (s : string) : string :=
  match s with
  | String c s' => if isspace c then lstrip s' else s
  | EmptyString => EmptyString
  end.

Fixpoint rstrip (s : string) : string :=
  match s with
  | String c s' =>
      match rstrip s' with
      | EmptyString => if isspace c then EmptyString else String c EmptyString
      | r => String c r
      end
  | EmptyString => EmptyString
  end.

Definition strip (s : string) : string := rstrip (lstrip s).

(** [s.split()] with no separator: the maximal runs of characters that
    are not whitespace, in order; [word] is the run being read. *)
Fixpoint split_from (word : string) (s : string) : list string :=
  match s with
  | String c s' =>
      if isspace c
      then match word with
           | EmptyString => split_from EmptyString s'
           | _ => word :: split_from EmptyString s'
           end
      else split_from (word +:+ String c EmptyString) s'
  | EmptyString =>
      match word with
      | EmptyString => []
      | _ => [word]
      end
  end.

Definition split (s : string) : list string := split_from EmptyString s.

(** [str(n)] for an [int]. *)
Definition str (n : Z) : string := NilZero.string_of_int (Z.to_int n).

(** [len(l)]. *)
Definition len {A} (l : list A) : Z := Z.of_nat (length l).

(** [s.startswith('/')] and [s.endswith('/')]. *)
Definition startswith_sep (s : string) : bool :=
  match s with
  | String c _ => bool_decide (c = "/"%char)
  | EmptyString => false
  end.

Fixpoint endswith_sep (s : string) : bool :=
  match s with
  | String c EmptyString => bool_decide (c = "/"%char)
  | String _ s' => endswith_sep s'
  | EmptyString => false
  end.

(** [os.path.join(a, b)] of [posixpath]. *)
Definition os_path_join (a b : string) : string :=
  if startswith_sep b then b
  else if bool_decide (a = EmptyString) || endswith_sep a then a +:+ b
  else a +:+ "/" +:+ b.

End Py.

(** * Exceptions and the state of the world *)

(** The subclasses of [requests.exceptions.RequestException] that
    [requests.get] and [raise_for_status] raise. *)
Inductive request_exception :=
  | HTTPError (status : Z)
  | ConnectionError
  | Timeout
  | TooManyRedirects
  | InvalidURL
  | ChunkedEncodingError.

(** A raised exception: a [RequestException], or an exception of another
    class (all of them subclasses of [Exception]), named by its class. *)
Inductive exn :=
  | RequestException (e : request_exception)
  | Exception (cls : string).

Definition is_RequestException (e : exn) : bool :=
  match e with
  | RequestException _ => true
  | Exception _ => false
  end.

Inductive outcome (A : Type) :=
  | Return (a : A)
  | Raise (e : exn).
Arguments Return {A} a.
Arguments Raise {A} e.

(** A row of the table
    [results (url TEXT PRIMARY KEY, script_count INTEGER, status TEXT)]. *)
Record Row := mkRow {
  url : string;
  script_count : option Z;
  status : string
}.

Global Instance Row_eq_dec : EqDecision Row.
Proof. solve_decision. Defined.

(** What a path of the file system holds: a text file, an SQLite
    database with its table [results] in rowid order, or nothing that can
    be opened, [open] failing there with an [OSError] of the class given
    and [sqlite3.connect] with [OperationalError] (a directory is at the
    path, or there is no directory to hold a file).  A path that holds
    nothing, and where a file can be created, is not in the map.  An empty
    file is also what SQLite takes for a database without tables. *)
Inductive File :=
  | TextFile (content : string)
  | Database (table : list Row)
  | Unopenable (cls : string).

(** The program state.  What reading the file of a database as text
    gives, an error of the decoder as a rule, is left open: [db_text]
    gives it for each table. *)
Record State := mkState {
  fs : gmap string File;                (* the file system, by path *)
  db_text : list Row → outcome string;  (* what reading a database in text mode gives *)
  requests : list string;               (* URLs requested so far, oldest first *)
  stdout : list string                  (* lines printed so far, oldest first *)
}.

Definition text_of (f : File) : option string :=
  match f with
  | TextFile content => Some content
  | _ => None
  end.

Definition table_of (f : File) : option (list Row) :=
  match f with
  | Database table => Some table
  | _ => None
  end.

(** The text files and the databases of a state, by path. *)
Definition files (s : State) : gmap string string := omap text_of (fs s).
Definition dbs (s : State) : gmap string (list Row) := omap table_of (fs s).

(** The state with the file [f] at the path [p]. *)
Definition set_file (p : string) (f : File) (s : State) : State :=
  mkState (<[p := f]> (fs s)) (db_text s) (requests s) (stdout s).

Definition M (A : Type) : Type := State → outcome A * State.

Global Instance M_ret : MRet M := λ A a s, (Return a, s).
Global Instance M_bind : MBind M := λ A B f m s,
  match m s with
  | (Return a, s') => f a s'
  | (Raise e, s') => (Raise e, s')
  end.

Definition raise {A} (e : exn) : M A := λ s, (Raise e, s).

(** [try: body except C as e: handler e], where [catches] says which
    exceptions are instances of [C]. *)
Definition try_except {A} (body : M A) (catches : exn → bool)
    (handler : exn → M A) : M A := λ s,
  match body s with
  | (Raise e, s') => if catches e then handler e s' else (Raise e, s')
  | r => r
  end.

(** [for x in l: body x]. *)
Fixpoint for_each {A} (l : list A) (body : A → M unit) : M unit :=
  match l with
  | [] => mret tt
  | x :: l' => body x ;; for_each l' body
  end.

(** [print(line)]. *)
Definition print (line : string) : M unit := λ s,
  (Return tt, mkState (fs s) (db_text s) (requests s) (stdout s ++ [line])).

(** What [open(path, 'r')] and [read()] give for what the path holds. *)
Definition read_text (dbt : list Row → outcome string) (f : option File)
    : outcome string :=
  match f with
  | Some (TextFile content) => Return content
  | Some (Database table) => dbt table
  | Some (Unopenable cls) => Raise (Exception cls)
  | None => Raise (Exception "FileNotFoundError")
  end.

(** [with open(path, 'r') as file: file.read()]. *)
Definition open_read (path : string) : M string := λ s,
  (read_text (db_text s) (fs s !! path), s).

(** [with open(path, 'w', ...) as f: f.write(content)]: the file is
    created, or truncated when there is one, be it a database; where the
    path cannot be opened [open] raises and nothing is written. *)
Definition open_write (path content : string) : M unit := λ s,
  match fs s !! path with
  | Some (Unopenable cls) => (Raise (Exception cls), s)
  | _ => (Return tt, set_file path (TextFile content) s)
  end.

(** * What Python and SQLite leave unspecified *)

Record Oracle := mkOracle {
  set_order : list string → list string;     (* list(set(l)) *)
  as_completed : list string → list string;  (* completion order of the futures *)
  select_order : list Row → list Row         (* SELECT ... FROM results *)
}.

Record Oracle_ok (orc : Oracle) : Prop := {
  set_order_perm : ∀ l, set_order orc l ≡ₚ remove_dups l;
  as_completed_perm : ∀ l, as_completed orc l ≡ₚ l;
  select_order_perm : ∀ t, select_order orc t ≡ₚ t
}.

(** * The libraries *)

(** ** sqlite3 *)

Module sqlite3.

(** [sqlite3.connect(path)]: the file is opened, and created empty when
    there is none; what the file holds is not looked at before the first
    statement. *)
Definition connect (path : string) : M unit := λ s,
  match fs s !! path with
  | None => (Return tt, set_file path (TextFile EmptyString) s)
  | Some (Unopenable _) => (Raise (Exception "OperationalError"), s)
  | Some _ => (Return tt, s)
  end.

(** What a statement finds in the file of its connection: the table
    [results] of a database, no table in an empty file or where the file
    is gone, and an error where the file is not a database or cannot be
    opened. *)
Inductive Schema :=
  | Table (table : list Row)
  | NoTable
  | Broken (cls : string).

Definition schema (f : option File) : Schema :=
  match f with
  | Some (Database table) => Table table
  | None | Some (TextFile EmptyString) => NoTable
  | Some (TextFile _) => Broken "DatabaseError"
  | Some (Unopenable _) => Broken "OperationalError"
  end.

(** [CREATE TABLE IF NOT EXISTS results (...)] and [commit]. *)
Definition create_table_if_not_exists (path : string) : M unit := λ s,
  match schema (fs s !! path) with
  | Table _ => (Return tt, s)
  | NoTable => (Return tt, set_file path (Database []) s)
  | Broken cls => (Raise (Exception cls), s)
  end.

(** The values SQLite stores in an INTEGER column: [None] as NULL, an
    [int] of 64 bits. *)
Definition fits (n : option Z) : bool :=
  match n with
  | Some k => (- 2 ^ 63 <=? k) && (k <? 2 ^ 63)
  | None => true
  end.

(** [REPLACE INTO results VALUES (...)] on a table whose primary key is
    [url]: the rows in conflict with the new one are deleted and the new
    row is inserted with a fresh rowid, after all others. *)
Definition replace_into (r : Row) (table : list Row) : list Row :=
  filter (λ r', url r' ≠ url r) table ++ [r].

(** [cursor.execute('SELECT ... FROM results')] and [cursor.fetchall()]
    on the connection to the database at [path]. *)
Definition select_all (orc : Oracle) (path : string) : M (list Row) := λ s,
  match schema (fs s !! path) with
  | Table table => (Return (select_order orc table), s)
  | NoTable => (Raise (Exception "OperationalError"), s)
  | Broken cls => (Raise (Exception cls), s)
  end.

(** [cursor.execute('REPLACE INTO results ...')] and [conn.commit()]; an
    [int] beyond 64 bits is refused with [OverflowError] when it is bound
    to the statement, and nothing is stored. *)
Definition execute_replace (path : string) (r : Row) : M unit := λ s,
  if fits (script_count r)
  then match schema (fs s !! path) with
       | Table table =>
           (Return tt, set_file path (Database (replace_into r table)) s)
       | NoTable => (Raise (Exception "OperationalError"), s)
       | Broken cls => (Raise (Exception cls), s)
       end
  else (Raise (Exception "OverflowError"), s).

End sqlite3.

(** ** requests and BeautifulSoup *)

Record Response := mkResponse {
  status_code : Z;
  text : string
}.

(** A node of a parsed document. *)
#[warnings="-register-all"]
Inductive Tag :=
  | Element (name : string) (children : list Tag)
  | NavigableString (s : string).

(** The black boxes: [requests.get(url, headers={'User-Agent': ua},
    timeout=t)] and [BeautifulSoup(markup, 'html.parser')], each returning
    a value or raising. *)
Record Network := mkNetwork {
  requests_get : string → string → Z → outcome Response;
  BeautifulSoup : string → outcome (list Tag)
}.

(** [requests.get] as the program sees it: the request is issued, and
    recorded in the trace, and its outcome returned or raised. *)
Definition http_get (net : Network) (u ua : string) (t : Z) : M Response := λ s,
  (requests_get net u ua t,
   mkState (fs s) (db_text s) (requests s ++ [u]) (stdout s)).

Definition parse_html (net : Network) (markup : string) : M (list Tag) := λ s,
  (BeautifulSoup net markup, s).

(** [ThreadPoolExecutor(max_workers=n)]: a [ValueError] unless [n] is
    positive. *)
Definition ThreadPoolExecutor (max_workers : Z) : M unit :=
  if max_workers <=? 0 then raise (Exception "ValueError") else mret tt.

(** A finished call of [process_url]: what it returned or raised. *)
Definition Future : Type := outcome (string * option Z * string).

(** [executor.submit(task)]: the task is run, its effects take place, and
    what it returns or raises is kept in the future.  The tasks of the
    two scripts are calls of [process_url], whose only effect is the
    request; they are started in the order in which they are submitted. *)
Definition submit {A} (task : M A) : M (outcome A) := λ s,
  let '(res, s') := task s in (Return res, s').

(** [future.result()]: what the task returned, or the exception it
    raised, raised again. *)
Definition result {A} (future : outcome A) : M A := λ s, (future, s).

(** The futures of the scripts are submitted for distinct URLs, and the
    oracle names a future by its URL: [future_of d url] is the future
    the dict [d] holds for [url].  A name the dict does not hold, which
    only an oracle that is not [Oracle_ok] yields, stands for a future
    whose [result()] raises. *)
Fixpoint future_of (d : list (Future * string)) (url : string) : Future :=
  match d with
  | [] => Raise (Exception "KeyError")
  | (future, url') :: d' =>
      if decide (url' = url) then future else future_of d' url
  end.

(** [{f(x): x for x in l}], as the list of the pairs of a key and a
    value, in the order of [l]. *)
Fixpoint dict_of {A} (l : list string) (f : string → M A) : M (list (A * string)) :=
  match l with
  | [] => mret []
  | x :: l' =>
      k ← f x;
      d ← dict_of l' f;
      mret ((k, x) :: d)
  end.

(** [Response.raise_for_status()]: an [HTTPError] for a status in
    400..599, nothing otherwise. *)
Definition raise_for_status (r : Response) : M unit :=
  if (400 <=? status_code r) && (status_code r <? 600)
  then raise (RequestException (HTTPError (status_code r)))
  else mret tt.

(** [tag.find_all(name)]: the elements called [name] at any depth, in
    document order. *)
Fixpoint find_all_tag (name : string) (t : Tag) : list Tag :=
  match t with
  | Element n children =>
      (if bool_decide (n = name) then [t] else [])
        ++ flat_map (find_all_tag name) children
  | NavigableString _ => []
  end.

Definition find_all (name : string) (soup : list Tag) : list Tag :=
  flat_map (find_all_tag name) soup.

(** ** csv *)

Module csv.

Definition quotechar : ascii := "034"%char.
Definition delimiter : ascii := ","%char.
Definition CR : ascii := "013"%char.
Definition LF : ascii := "010"%char.
Definition lineterminator : string := String CR (String LF EmptyString).

Definition special (c : ascii) : bool :=
  bool_decide (c = delimiter) || bool_decide (c = quotechar)
  || bool_decide (c = CR) || bool_decide (c = LF).

Fixpoint needs_quotes (field : string) : bool :=
  match field with
  | String c s => special c || needs_quotes s
  | EmptyString => false
  end.

(** The field with every quote character doubled. *)
Fixpoint doubled (field : string) : string :=
  match field with
  | String c s =>
      if bool_decide (c = quotechar)
      then String quotechar (String quotechar (doubled s))
      else String c (doubled s)
  | EmptyString => EmptyString
  end.

(** One field as the [excel] dialect writes it ([QUOTE_MINIMAL],
    [doublequote]). *)
Definition write_field (field : string) : string :=
  if needs_quotes field
  then String quotechar (doubled field +:+ String quotechar EmptyString)
  else field.

Fixpoint join_fields (fields : list string) : string :=
  match fields with
  | [] => EmptyString
  | [f] => write_field f
  | f :: fs => write_field f +:+ String delimiter (join_fields fs)
  end.

(** [csv.writer(f).writerow(fields)]; a record that would be empty, a
    single empty field, is written as a pair of quotes. *)
Definition writerow (fields : list string) : string :=
  match fields with
  | [EmptyString] => String quotechar (String quotechar lineterminator)
  | _ => join_fields fields +:+ lineterminator
  end.

Fixpoint writerows (rows : list (list string)) : string :=
  match rows with
  | [] => EmptyString
  | r :: rs => writerow r +:+ writerows rs
  end.

(** What the writer makes of the values of a fetched row: a [str] as it
    is, [None] as the empty field, an [int] through [str()]. *)
Definition fields_of_row (r : Row) : list string :=
  [url r;
   match script_count r with
   | Some n => Py.str n
   | None => EmptyString
   end;
   status r].

End csv.

(** * [src/url_checker.py] *)

(** The namespace [parse_arguments] returns. *)
Record Args := mkArgs {
  url_file : string;
  workers : Z;
  timeout : Z;
  csv_output : string
}.

(** The definitions follow the functions of the script, with their names
    and in their order.  [setup_logging] and the [logging] calls have no
    counterpart, nor has the [os.makedirs] of [setup_database]: the file
    system is taken as it is once the data directory exists.  A cursor
    is named by the path of its database.  The calls of [process_url] that
    [main] submits to the thread pool are run as they are submitted, one
    after the other, and their results are stored in the order in which
    [as_completed] yields their futures: a worker shares nothing with
    the main thread but the network, and the main thread alone writes to
    the database. *)
Module UrlChecker.
Section Program.

(** [data_dir], computed from the location of the script. *)
Variable data_dir : string.
Variable net : Network.
Variable orc : Oracle.

Definition user_agent : string := "Mozilla/5.0 (compatible; URLChecker/1.0)".

(** Returns the cursor, named by the path of its database. *)
Definition setup_database (db_name : string) : M string :=
  let db_path := Py.os_path_join data_dir db_name in
  sqlite3.connect db_path ;;
  sqlite3.create_table_if_not_exists db_path ;;
  mret db_path.

Definition load_urls (url_file : string) : M (list string) :=
  let url_file_path := Py.os_path_join data_dir url_file in
  content ← open_read url_file_path;
  let urls := Py.split (Py.strip content) in
  mret (set_order orc urls).

Definition get_processed_urls (cursor : string) : M (gset string) :=
  rows ← sqlite3.select_all orc cursor;
  mret (list_to_set (url <$> rows)).

Definition process_url (url : string) (timeout : Z)
    : M (string * option Z * string) :=
  try_except
    (response ← http_get net url user_agent timeout;
     raise_for_status response ;;
     soup ← parse_html net (text response);
     let script_tags := find_all "script" soup in
     let script_count := Py.len script_tags in
     let status := "Success" in
     mret (url, Some script_count, status))
    is_RequestException
    (λ e,
     let script_count := None in
     let status := "Failed" in
     mret (url, script_count, status)).

Definition save_result (cursor : string) (url : string)
    (script_count : option Z) (status : string) : M unit :=
  sqlite3.execute_replace cursor (mkRow url script_count status).

Definition csv_header : list string := ["URL"; "Script Count"; "Status"].

Definition export_to_csv (db_name csv_file : string) : M unit :=
  let db_path := Py.os_path_join data_dir db_name in
  sqlite3.connect db_path ;;
  rows ← sqlite3.select_all orc db_path;
  let csv_file_path := Py.os_path_join data_dir csv_file in
  open_write csv_file_path
    (csv.writerow csv_header +:+ csv.writerows (csv.fields_of_row <$> rows)) ;;
  print ("Results exported to " +:+ csv_file_path).

Definition main (args : Args) : M unit :=
  cursor ← setup_database "results.db";
  urls ← load_urls (url_file args);
  processed_urls ← get_processed_urls cursor;
  let urls_to_process := filter (λ url, url ∉ processed_urls) urls in
  match urls_to_process with
  | [] => print "All URLs have been processed."
  | _ =>
      print ("Starting processing of " +:+ Py.str (Py.len urls_to_process)
             +:+ " URLs...") ;;
      ThreadPoolExecutor (workers args) ;;
      future_to_url ← dict_of urls_to_process
                        (λ url, submit (process_url url (timeout args)));
      for_each (as_completed orc (future_to_url.*2)) (λ url,
        let future := future_of future_to_url url in
        try_except
          (r ← result future;
           let '(url, script_count, status) := r in
           save_result cursor url script_count status)
          (λ _, true)
          (λ e, mret tt))
  end ;;
  export_to_csv "results.db" (csv_output args) ;;
  print "Processing completed.".

End Program.
End UrlChecker.

(** * [web_scraper_latest.py] *)

(** The same, for the script that takes its paths as they are given. *)
Module WebScraperLatest.
Section Program.

Variable net : Network.
Variable orc : Oracle.

Definition user_agent : string := "Mozilla/5.0 (compatible; WebScraper/1.0)".

(** Returns the cursor, named by the path of its database. *)
Definition setup_database (db_name : string) : M string :=
  sqlite3.connect db_name ;;
  sqlite3.create_table_if_not_exists db_name ;;
  mret db_name.

Definition load_urls (url_file : string) : M (list string) :=
  content ← open_read url_file;
  let urls := Py.split (Py.strip content) in
  mret (set_order orc urls).

Definition get_processed_urls (cursor : string) : M (gset string) :=
  rows ← sqlite3.select_all orc cursor;
  mret (list_to_set (url <$> rows)).

Definition process_url (url : string) (timeout : Z)
    : M (string * option Z * string) :=
  try_except
    (response ← http_get net url user_agent timeout;
     raise_for_status response ;;
     soup ← parse_html net (text response);
     let script_tags := find_all "script" soup in
     let script_count := Py.len script_tags in
     let status := "Success" in
     mret (url, Some script_count, status))
    is_RequestException
    (λ e,
     let script_count := None in
     let status := "Failed" in
     mret (url, script_count, status)).

Definition save_result (cursor : string) (url : string)
    (script_count : option Z) (status : string) : M unit :=
  sqlite3.execute_replace cursor (mkRow url script_count status).

Definition csv_header : list string := ["URL"; "Script Count"; "Status"].

Definition export_to_csv (db_name csv_file : string) : M unit :=
  sqlite3.connect db_name ;;
  rows ← sqlite3.select_all orc db_name;
  open_write csv_file
    (csv.writerow csv_header +:+ csv.writerows (csv.fields_of_row <$> rows)) ;;
  print ("Results exported to " +:+ csv_file).

Definition main (args : Args) : M unit :=
  cursor ← setup_database "results.db";
  urls ← load_urls (url_file args);
  processed_urls ← get_processed_urls cursor;
  let urls_to_process := filter (λ url, url ∉ processed_urls) urls in
  match urls_to_process with
  | [] => print "All URLs have been processed."
  | _ =>
      print ("Starting processing of " +:+ Py.str (Py.len urls_to_process)
             +:+ " URLs...") ;;
      ThreadPoolExecutor (workers args) ;;
      future_to_url ← dict_of urls_to_process
                        (λ url, submit (process_url url (timeout args)));
      for_each (as_completed orc (future_to_url.*2)) (λ url,
        let future := future_of future_to_url url in
        try_except
          (r ← result future;
           let '(url, script_count, status) := r in
           save_result cursor url script_count status)
          (λ _, true)
          (λ e, mret tt))
  end ;;
  export_to_csv "results.db" (csv_output args) ;;
  print "Processing completed.".

End Program.
End WebScraperLatest.

(** * The single design behind the two scripts

    The specification treats the two scripts as one design whose
    variation, the resolution of file paths and the user-agent string, is
    configuration.  [Canonical] is that design: the components of the
    specification (URL Source, Result Store, Fetcher, Worker Pool,
    Exporter) over a [Config]. *)

Record Config := mkConfig {
  resolve : string → string;   (* the path of a file named on the command line *)
  agent : string               (* the value of the User-Agent header *)
}.

Module Canonical.
Section Design.

Variable cfg : Config.
Variable net : Network.
Variable orc : Oracle.

Definition setup_database (db_name : string) : M string :=
  sqlite3.connect (resolve cfg db_name) ;;
  sqlite3.create_table_if_not_exists (resolve cfg db_name) ;;
  mret (resolve cfg db_name).

Definition load_urls (url_file : string) : M (list string) :=
  content ← open_read (resolve cfg url_file);
  mret (set_order orc (Py.split (Py.strip content))).

Definition get_processed_urls (cursor : string) : M (gset string) :=
  rows ← sqlite3.select_all orc cursor;
  mret (list_to_set (url <$> rows)).

Definition process_url (url : string) (timeout : Z)
    : M (string * option Z * string) :=
  try_except
    (response ← http_get net url (agent cfg) timeout;
     raise_for_status response ;;
     soup ← parse_html net (text response);
     mret (url, Some (Py.len (find_all "script" soup)), "Success"))
    is_RequestException
    (λ e, mret (url, None, "Failed")).

Definition save_result (cursor : string) (url : string)
    (script_count : option Z) (status : string) : M unit :=
  sqlite3.execute_replace cursor (mkRow url script_count status).

Definition export_to_csv (db_name csv_file : string) : M unit :=
  sqlite3.connect (resolve cfg db_name) ;;
  rows ← sqlite3.select_all orc (resolve cfg db_name);
  open_write (resolve cfg csv_file)
    (csv.writerow ["URL"; "Script Count"; "Status"]
     +:+ csv.writerows (csv.fields_of_row <$> rows)) ;;
  print ("Results exported to " +:+ resolve cfg csv_file).

Definition main (args : Args) : M unit :=
  cursor ← setup_database "results.db";
  urls ← load_urls (url_file args);
  processed_urls ← get_processed_urls cursor;
  let urls_to_process := filter (λ url, url ∉ processed_urls) urls in
  match urls_to_process with
  | [] => print "All URLs have been processed."
  | _ =>
      print ("Starting processing of " +:+ Py.str (Py.len urls_to_process)
             +:+ " URLs...") ;;
      ThreadPoolExecutor (workers args) ;;
      future_to_url ← dict_of urls_to_process
                        (λ url, submit (process_url url (timeout args)));
      for_each (as_completed orc (future_to_url.*2)) (λ url,
        let future := future_of future_to_url url in
        try_except
          (r ← result future;
           let '(url, script_count, status) := r in
           save_result cursor url script_count status)
          (λ _, true)
          (λ e, mret tt))
  end ;;
  export_to_csv "results.db" (csv_output args) ;;
  print "Processing completed.".

End Design.

(** The configuration of [src/url_checker.py], whose files live in
    [data_dir], and that of [web_scraper_latest.py], whose paths are taken
    as they are given. *)
Definition url_checker_config (data_dir : string) : Config :=
  mkConfig (Py.os_path_join data_dir) UrlChecker.user_agent.

Definition web_scraper_latest_config : Config :=
  mkConfig (λ path, path) WebScraperLatest.user_agent.

End Canonical.

(** * Re-reading an exported file *)

(** The repository writes the CSV file and never reads it.  The reader
    against which the round trip of the export is stated is defined here:
    an automaton over the characters of the file, for the dialect of the
    writer. *)
Module Reread.

(** Modelled from the spec: the states of the reader that the repository
    lacks. *)
Inductive parser_state :=
  | START_RECORD
  | START_FIELD
  | IN_FIELD
  | IN_QUOTED_FIELD
  | QUOTE_IN_QUOTED_FIELD
  | AFTER_CR.

(** Modelled from the spec: what the missing reader has read so far. *)
Record Reader := mkReader {
  state : parser_state;
  field : string;                 (* the field being read *)
  fields : list string;           (* the fields of the record being read *)
  records : list (list string)    (* the records read *)
}.

Definition add_char (r : Reader) (c : ascii) (st : parser_state) : Reader :=
  mkReader st (field r +:+ String c EmptyString) (fields r) (records r).

Definition save_field (r : Reader) : Reader :=
  mkReader START_FIELD EmptyString (fields r ++ [field r]) (records r).

Definition end_record (r : Reader) (st : parser_state) : Reader :=
  mkReader st EmptyString [] (records r ++ [(fields r ++ [field r])%list]).

Definition start_field (r : Reader) (c : ascii) : Reader :=
  if bool_decide (c = csv.CR) then end_record r AFTER_CR
  else if bool_decide (c = csv.LF) then end_record r START_RECORD
  else if bool_decide (c = csv.quotechar)
  then mkReader IN_QUOTED_FIELD (field r) (fields r) (records r)
  else if bool_decide (c = csv.delimiter) then save_field r
  else add_char r c IN_FIELD.

Definition start_record (r : Reader) (c : ascii) : Reader :=
  if bool_decide (c = csv.CR)
  then mkReader AFTER_CR EmptyString [] (records r ++ [[]])
  else if bool_decide (c = csv.LF)
  then mkReader START_RECORD EmptyString [] (records r ++ [[]])
  else start_field r c.

(** Modelled from the spec: one character read by the missing reader.
    Outside quotes a comma ends the field and CR, LF or CR LF the record;
    inside quotes a doubled quote is one quote and any other character is
    part of the field. *)
Definition step (r : Reader) (c : ascii) : Reader :=
  match state r with
  | START_RECORD => start_record r c
  | AFTER_CR =>
      if bool_decide (c = csv.LF)
      then mkReader START_RECORD (field r) (fields r) (records r)
      else start_record r c
  | START_FIELD => start_field r c
  | IN_FIELD =>
      if bool_decide (c = csv.CR) then end_record r AFTER_CR
      else if bool_decide (c = csv.LF) then end_record r START_RECORD
      else if bool_decide (c = csv.delimiter) then save_field r
      else add_char r c IN_FIELD
  | IN_QUOTED_FIELD =>
      if bool_decide (c = csv.quotechar)
      then mkReader QUOTE_IN_QUOTED_FIELD (field r) (fields r) (records r)
      else add_char r c IN_QUOTED_FIELD
  | QUOTE_IN_QUOTED_FIELD =>
      if bool_decide (c = csv.quotechar) then add_char r c IN_QUOTED_FIELD
      else if bool_decide (c = csv.delimiter) then save_field r
      else if bool_decide (c = csv.CR) then end_record r AFTER_CR
      else if bool_decide (c = csv.LF) then end_record r START_RECORD
      else add_char r c IN_FIELD
  end.

Fixpoint run (r : Reader) (input : string) : Reader :=
  match input with
  | String c rest => run (step r c) rest
  | EmptyString => r
  end.

(** At the end of the input a record that was begun is closed. *)
Definition finish (r : Reader) : list (list string) :=
  match state r with
  | START_RECORD | AFTER_CR => records r
  | _ => (records r ++ [(fields r ++ [field r])%list])%list
  end.

(** Modelled from the spec: the repository exports the CSV file and has
    no code that reads it back, so the reader of the round-trip property
    is written here for the format of the exporter.  It is the reader of
    the [excel] dialect: fields separated by commas, a field in double
    quotes may hold commas, line ends and doubled quotes, a record ends
    at CR, LF or CR LF. *)
Definition reader (input : string) : list (list string) :=
  finish (run (mkReader START_RECORD EmptyString [] []) input).

(** Modelled from the spec: the second field read back as a count, the
    empty field being the absent count. *)
Definition count_of_field (s : string) : option (option Z) :=
  match s with
  | EmptyString => Some None
  | _ =>
      match NilZero.int_of_string s with
      | Some d => Some (Some (Z.of_int d))
      | None => None
      end
  end.

(** Modelled from the spec: a record read back as a (url, count, status)
    triple. *)
Definition row_of_fields (fs : list string) : option Row :=
  match fs with
  | [u; c; st] =>
      match count_of_field c with
      | Some n => Some (mkRow u n st)
      | None => None
      end
  | _ => None
  end.

(** Modelled from the spec: re-reading the exported file gives the
    triples of the records after the header. *)
Definition reread (input : string) : option (list Row) :=
  match reader input with
  | header :: data => mapM row_of_fields data
  | [] => None
  end.

(** The reader has read the field [f]: it is at the start of a field and
    [f] is empty, or in a field, or after the closing quote of one. *)
Inductive after_field (f : string) (fs : list string)
    (recs : list (list string)) : Reader → Prop :=
  | after_empty :
      f = EmptyString → after_field f fs recs (mkReader START_FIELD EmptyString fs recs)
  | after_unquoted :
      after_field f fs recs (mkReader IN_FIELD f fs recs)
  | after_quoted :
      after_field f fs recs (mkReader QUOTE_IN_QUOTED_FIELD f fs recs).

End Reread.

(** * Properties of the store and of a run *)

(** The invariant of the Result Store: at most one row for a URL, and in
    every row a count exactly when the status is [Success]; besides, the
    status is [Success] or [Failed] and a count is not negative. *)
Definition row_ok (r : Row) : Prop :=
  (is_Some (script_count r) ↔ status r = "Success")
  ∧ (status r = "Success" ∨ status r = "Failed")
  ∧ (∀ n, script_count r = Some n → 0 ≤ n).

Definition store_ok (table : list Row) : Prop :=
  NoDup (url <$> table) ∧ Forall row_ok table.

Definition stores_ok (s : State) : Prop :=
  ∀ path table, dbs s !! path = Some table → store_ok table.

(** The rows of a table for one URL. *)
Definition rows_of (u : string) (table : list Row) : list Row :=
  filter (λ r, url r = u) table.

(** The states a system can be in: no database to begin with, whatever
    else the file system holds, and then any number of runs of either
    script. *)
Inductive reachable : State → Prop :=
  | reachable_fresh s :
      dbs s = ∅ →
      reachable s
  | reachable_url_checker s data_dir net orc args :
      reachable s →
      reachable (UrlChecker.main data_dir net orc args s).2
  | reachable_web_scraper_latest s net orc args :
      reachable s →
      reachable (WebScraperLatest.main net orc args s).2.

(** The number of lines of a text: its line feeds. *)
Fixpoint line_count (s : string) : nat :=
  match s with
  | String c s' => ((if bool_decide (c = csv.LF) then 1 else 0) + line_count s')%nat
  | EmptyString => 0%nat
  end.

(** A whitespace-delimited token of a text: a run of characters, none of
    them whitespace and at least one, with whitespace or an end of the
    text on either side. *)
Fixpoint no_space (t : string) : Prop :=
  match t with
  | String c t' => Py.isspace c = false ∧ no_space t'
  | EmptyString => True
  end.

Definition ends_with_space (pre : string) : Prop :=
  ∃ p c, pre = p +:+ String c EmptyString ∧ Py.isspace c = true.

Definition space_or_end_before (pre : string) : Prop :=
  pre = EmptyString ∨ ends_with_space pre.

Definition space_or_end_after (post : string) : Prop :=
  post = EmptyString ∨ ∃ c p, post = String c p ∧ Py.isspace c = true.

Definition is_token (content t : string) : Prop :=
  t ≠ EmptyString ∧ no_space t ∧
  ∃ pre post, content = pre +:+ t +:+ post
              ∧ space_or_end_before pre ∧ space_or_end_after post.

(** * A concrete world, to run the programs in *)

Module Demo.

Definition page : list Tag :=
  [Element "html"
     [Element "head" [Element "script" []];
      Element "body"
        [NavigableString "text"; Element "script" [NavigableString "code"]]]].

(** A network: [a.test] serves a page with two scripts, [c.test] a page
    the parser rejects, [d.test] answers 404, [e.test] answers 304 with an
    empty body, every other host times out; a timeout that is not
    positive is refused with a [ValueError]. *)
Definition net : Network :=
  mkNetwork
    (λ u ua t,
       if bool_decide (t ≤ 0) then Raise (Exception "ValueError")
       else if bool_decide (u = "http://a.test") then Return (mkResponse 200 "<html>")
       else if bool_decide (u = "http://c.test") then Return (mkResponse 200 "<![")
       else if bool_decide (u = "http://d.test") then Return (mkResponse 404 "")
       else if bool_decide (u = "http://e.test") then Return (mkResponse 304 "")
       else Raise (RequestException Timeout))
    (λ markup,
       if bool_decide (markup = "<html>") then Return page
       else if bool_decide (markup = "<![") then Raise (Exception "ParserRejectedMarkup")
       else Return []).

Definition orc : Oracle := mkOracle remove_dups (λ l, l) (λ t, t).

Definition args : Args := mkArgs "urls.txt" 10 10 "results.csv".

(** A database read as text is not valid UTF-8. *)
Definition db_text : list Row → outcome string :=
  λ _, Raise (Exception "UnicodeDecodeError").

Definition fresh (content : string) : State :=
  mkState {[ "data/urls.txt" := TextFile content ]} db_text [] [].

Definition row_a : Row := mkRow "http://a.test" (Some 2) "Success".
Definition row_b : Row := mkRow "http://b.test" None "Failed".

(** A system in which [a.test] already has its row and the input file
    names [a.test] and [c.test]. *)
Definition state_a_c : State :=
  mkState {[ "data/urls.txt" := TextFile "http://a.test http://c.test";
             "data/results.db" := Database [row_a] ]}
          db_text [] [].

(** A system whose store holds the rows of [a.test] and [b.test]. *)
Definition table_a_b : State :=
  mkState {[ "data/results.db" := Database [row_a; row_b] ]} db_text [] [].

(** A system as [fresh], with a directory where the exported file is to
    be written. *)
Definition csv_is_directory (content : string) : State :=
  mkState {[ "data/urls.txt" := TextFile content;
             "data/results.csv" := Unopenable "IsADirectoryError" ]}
          db_text [] [].

End Demo.

(** * The effect of a run, in closed form *)

Definition add_request (u : string) (s : State) : State :=
  mkState (fs s) (db_text s) (requests s ++ [u]) (stdout s).

(** What [process_url] makes of the outcomes of the HTTP client and of the
    parser. *)
Definition fetch_result (net : Network) (ua u : string) (t : Z)
    : outcome (string * option Z * string) :=
  match requests_get net u ua t with
  | Raise (RequestException _) => Return (u, None, "Failed")
  | Raise (Exception cls) => Raise (Exception cls)
  | Return response =>
      if (400 <=? status_code response) && (status_code response <? 600)
      then Return (u, None, "Failed")
      else match BeautifulSoup net (text response) with
           | Return soup => Return (u, Some (Py.len (find_all "script" soup)), "Success")
           | Raise (RequestException _) => Return (u, None, "Failed")
           | Raise (Exception cls) => Raise (Exception cls)
           end
  end.

(** The table after the worker loop has handled one finished future: the
    row of a result is written unless its count is refused. *)
Definition store_result (res : outcome (string * option Z * string))
    (table : list Row) : list Row :=
  match res with
  | Return (u, n, st) =>
      if sqlite3.fits n then sqlite3.replace_into (mkRow u n st) table else table
  | Raise _ => table
  end.

(** The table after the worker loop has handled the futures named, of
    the dict [d]. *)
Definition store_futures (d : list (Future * string)) (table : list Row)
    (us : list string) : list Row :=
  foldl (λ table u, store_result (future_of d u) table) table us.

Definition store_results (net : Network) (ua : string) (t : Z)
    (table : list Row) (us : list string) : list Row :=
  foldl (λ tb u, store_result (fetch_result net ua u t) tb) table us.

(** The text of the exported file for the rows of a table. *)
Definition export_text (rows : list Row) : string :=
  csv.writerow ["URL"; "Script Count"; "Status"]
  +:+ csv.writerows (csv.fields_of_row <$> rows).

(** The table [setup_database] leaves for what it finds at the path of
    the database: the table of the database that is there, an empty table
    where there is nothing or an empty file, and an error where the file
    is not a database or the path cannot be opened. *)
Definition db_open (f : option File) : outcome (list Row) :=
  match f with
  | None => Return []
  | Some (Database table) => Return table
  | Some (TextFile EmptyString) => Return []
  | Some (TextFile _) => Raise (Exception "DatabaseError")
  | Some (Unopenable _) => Raise (Exception "OperationalError")
  end.

Section Run.

Variable cfg : Config.
Variable net : Network.
Variable orc : Oracle.
Variable args : Args.
Variable s : State.

(** What [setup_database] finds at the path of the database. *)
Definition opened : outcome (list Row) :=
  db_open (fs s !! resolve cfg "results.db").

(** The table a run starts from: that of the database, empty when the
    database is created by the run. *)
Definition table_before : list Row :=
  match opened with
  | Return table => table
  | Raise _ => []
  end.

(** The file system once the database is set up. *)
Definition fs_setup : gmap string File :=
  match opened with
  | Return table => <[resolve cfg "results.db" := Database table]> (fs s)
  | Raise _ => fs s
  end.

(** What [load_urls] reads. *)
Definition input : outcome string :=
  read_text (db_text s) (fs_setup !! resolve cfg (url_file args)).

(** The URLs a run finds in its input file that have no row yet. *)
Definition urls_to_process (content : string) : list string :=
  filter (λ u, u ∉ (list_to_set (url <$> select_order orc table_before) : gset string))
         (set_order orc (Py.split (Py.strip content))).

Definition todo : list string :=
  match opened, input with
  | Return _, Return content => urls_to_process content
  | _, _ => []
  end.

(** Whether the run gets to submit its URLs to the pool. *)
Definition started : bool :=
  match todo with
  | [] => false
  | _ => negb (workers args <=? 0)
  end.

(** The URLs a run fetches, in the order in which they are submitted. *)
Definition urls_fetched : list string :=
  if started then todo else [].

Definition futures : list (Future * string) :=
  (λ u, (fetch_result net (agent cfg) u (timeout args), u)) <$> urls_fetched.

(** The futures, in the order in which the worker loop handles them. *)
Definition completed : list string :=
  if started then as_completed orc (futures.*2) else [].

Definition table_after : list Row :=
  store_futures futures table_before completed.

(** How the export ends, when the run gets to it. *)
Definition export_outcome : outcome unit :=
  match fs_setup !! resolve cfg (csv_output args) with
  | Some (Unopenable cls) => Raise (Exception cls)
  | _ => Return tt
  end.

(** How a run ends. *)
Definition run_outcome : outcome unit :=
  match opened with
  | Raise e => Raise e
  | Return _ =>
      match input with
      | Raise e => Raise e
      | Return _ =>
          match todo with
          | [] => export_outcome
          | _ => if workers args <=? 0 then Raise (Exception "ValueError")
                 else export_outcome
          end
      end
  end.

Definition fs_after : gmap string File :=
  match opened with
  | Raise _ => fs s
  | Return _ =>
      match run_outcome with
      | Return _ =>
          <[resolve cfg (csv_output args) :=
              TextFile (export_text (select_order orc table_after))]>
            (<[resolve cfg "results.db" := Database table_after]> (fs s))
      | Raise _ => <[resolve cfg "results.db" := Database table_after]> (fs s)
      end
  end.

(** What a run prints before the export. *)
Definition stdout_loop : list string :=
  match opened, input with
  | Return _, Return _ =>
      match todo with
      | [] => ["All URLs have been processed."]
      | _ => ["Starting processing of " +:+ Py.str (Py.len todo) +:+ " URLs..."]
      end
  | _, _ => []
  end.

Definition stdout_after : list string :=
  stdout s ++ stdout_loop ++
  match run_outcome with
  | Return _ => ["Results exported to " +:+ resolve cfg (csv_output args);
                 "Processing completed."]
  | Raise _ => []
  end.

Definition state_after : State :=
  mkState fs_after (db_text s) (requests s ++ urls_fetched) stdout_after.

End Run.

(** * Either script *)

(** The two scripts under one name, to state a property of both at once:
    [url_checker data_dir] is [src/url_checker.py] with its data
    directory, [web_scraper_latest] is [web_scraper_latest.py]. *)
Inductive Script :=
  | url_checker (data_dir : string)
  | web_scraper_latest.

(** The path at which a script looks for the file called [name]. *)
Definition path_of (sc : Script) (name : string) : string :=
  match sc with
  | url_checker data_dir => Py.os_path_join data_dir name
  | web_scraper_latest => name
  end.

Definition setup_database_of (sc : Script) : string → M string :=
  match sc with
  | url_checker data_dir => UrlChecker.setup_database data_dir
  | web_scraper_latest => WebScraperLatest.setup_database
  end.

Definition load_urls_of (sc : Script) (orc : Oracle) : string → M (list string) :=
  match sc with
  | url_checker data_dir => UrlChecker.load_urls data_dir orc
  | web_scraper_latest => WebScraperLatest.load_urls orc
  end.

Definition get_processed_urls_of (sc : Script) (orc : Oracle)
    : string → M (gset string) :=
  match sc with
  | url_checker _ => UrlChecker.get_processed_urls orc
  | web_scraper_latest => WebScraperLatest.get_processed_urls orc
  end.

Definition process_url_of (sc : Script) (net : Network)
    : string → Z → M (string * option Z * string) :=
  match sc with
  | url_checker _ => UrlChecker.process_url net
  | web_scraper_latest => WebScraperLatest.process_url net
  end.

Definition save_result_of (sc : Script)
    : string → string → option Z → string → M unit :=
  match sc with
  | url_checker _ => UrlChecker.save_result
  | web_scraper_latest => WebScraperLatest.save_result
  end.

Definition export_to_csv_of (sc : Script) (orc : Oracle)
    : string → string → M unit :=
  match sc with
  | url_checker data_dir => UrlChecker.export_to_csv data_dir orc
  | web_scraper_latest => WebScraperLatest.export_to_csv orc
  end.

Definition main_of (sc : Script) (net : Network) (orc : Oracle) : Args → M unit :=
  match sc with
  | url_checker data_dir => UrlChecker.main data_dir net orc
  | web_scraper_latest => WebScraperLatest.main net orc
  end.

Definition config_of (sc : Script) : Config :=
  match sc with
  | url_checker data_dir => Canonical.url_checker_config data_dir
  | web_scraper_latest => Canonical.web_scraper_latest_config
  end.

(** The text has no character that is not whitespace. *)
Fixpoint all_space (s : string) : bool :=
  match s with
  | String c s' => Py.isspace c && all_space s'
  | EmptyString => true
  end.

(** The row the worker loop stores for the outcome of a fetch, if any. *)
Definition fetched_row (res : outcome (string * option Z * string)) : option Row :=
  match res with
  | Return (u, n, st) => if sqlite3.fits n then Some (mkRow u n st) else None
  | Raise _ => None
  end.

(** Every URL of every store is a token: not empty and free of
    whitespace. *)
Definition urls_clean (s : State) : Prop :=
  ∀ path table r,
    dbs s !! path = Some table → r ∈ table →
    url r ≠ EmptyString ∧ no_space (url r).

(** The header line of the exported file. *)
Definition header_line : string :=
  "URL,Script Count,Status" +:+ csv.lineterminator.

(** An oracle that enumerates everything backwards. *)
Definition rev_oracle : Oracle :=
  mkOracle (λ l, reverse (remove_dups l)) (λ l, reverse l) (λ t, reverse t).
(** * Lemmas on the monad and on the steps of a run *)

Lemma bind_eq {A B} (m : M A) (f : A → M B) s :
  (m ≫= f) s = match m s with
               | (Return a, s') => f a s'
               | (Raise e, s') => (Raise e, s')
               end.
Proof. reflexivity. Qed.

Lemma state_eta s : mkState (fs s) (db_text s) (requests s) (stdout s) = s.
Proof. by destruct s. Qed.

Lemma set_file_id p f s : fs s !! p = Some f → set_file p f s = s.
Proof.
  intros H. unfold set_file. rewrite insert_id by done. apply state_eta.
Qed.

Lemma lookup_files s p content :
  files s !! p = Some content ↔ fs s !! p = Some (TextFile content).
Proof.
  unfold files. rewrite lookup_omap.
  destruct (fs s !! p) as [[c|t|cls]|]; cbn; naive_solver.
Qed.

Lemma lookup_dbs s p table :
  dbs s !! p = Some table ↔ fs s !! p = Some (Database table).
Proof.
  unfold dbs. rewrite lookup_omap.
  destruct (fs s !! p) as [[c|t|cls]|]; cbn; naive_solver.
Qed.

Lemma lookup_files_None s p :
  files s !! p = None ↔ ∀ content, fs s !! p ≠ Some (TextFile content).
Proof.
  unfold files. rewrite lookup_omap.
  destruct (fs s !! p) as [[c|t|cls]|]; cbn; naive_solver.
Qed.

Lemma lookup_dbs_None s p :
  dbs s !! p = None ↔ ∀ table, fs s !! p ≠ Some (Database table).
Proof.
  unfold dbs. rewrite lookup_omap.
  destruct (fs s !! p) as [[c|t|cls]|]; cbn; naive_solver.
Qed.

Lemma process_url_eq cfg net u t s :
  Canonical.process_url cfg net u t s
  = (fetch_result net (agent cfg) u t, add_request u s).
Proof.
  unfold Canonical.process_url, fetch_result, try_except, http_get,
    raise_for_status, parse_html, raise, add_request.
  rewrite bind_eq.
  destruct (requests_get net u (agent cfg) t) as [resp|[e|c]]; try reflexivity.
  rewrite bind_eq.
  destruct ((400 <=? status_code resp) && (status_code resp <? 600));
    try reflexivity.
  unfold mret at 1, M_ret at 1. rewrite bind_eq.
  destruct (BeautifulSoup net (text resp)) as [soup|[e|c]]; reflexivity.
Qed.

(** The futures of the URLs submitted. *)
Lemma submit_all cfg net t us : ∀ s,
  dict_of us (λ url, submit (Canonical.process_url cfg net url t)) s
  = (Return ((λ u, (fetch_result net (agent cfg) u t, u)) <$> us),
     mkState (fs s) (db_text s) (requests s ++ us) (stdout s)).
Proof.
  induction us as [|u us IH]; intros s.
  - cbn. unfold mret, M_ret. by rewrite app_nil_r, state_eta.
  - cbn [dict_of]. rewrite bind_eq. unfold submit at 1.
    rewrite process_url_eq. rewrite bind_eq, IH.
    unfold add_request. cbn. by rewrite <- app_assoc.
Qed.

Lemma save_result_eq cursor u n st s table :
  fs s !! cursor = Some (Database table) →
  Canonical.save_result cursor u n st s
  = if sqlite3.fits n
    then (Return tt,
          set_file cursor (Database (sqlite3.replace_into (mkRow u n st) table)) s)
    else (Raise (Exception "OverflowError"), s).
Proof.
  intros Hdb. unfold Canonical.save_result, sqlite3.execute_replace.
  cbn [script_count]. destruct (sqlite3.fits n); [|done].
  by rewrite Hdb.
Qed.

Lemma set_file_set_file p f g s :
  set_file p f (set_file p g s) = set_file p f s.
Proof. unfold set_file. cbn. by rewrite insert_insert_eq. Qed.

Lemma worker_loop cursor d us : ∀ s table,
  fs s !! cursor = Some (Database table) →
  for_each us (λ url,
        let future := future_of d url in
        try_except
          (r ← result future;
           let '(url, script_count, status) := r in
           Canonical.save_result cursor url script_count status)
          (λ _, true)
          (λ e, mret tt)) s
  = (Return tt,
     set_file cursor (Database (store_futures d table us)) s).
Proof.
  induction us as [|url us IH]; intros s table Hdb.
  - cbn. unfold mret, M_ret. by rewrite set_file_id.
  - cbn [for_each]. rewrite bind_eq. cbn zeta.
    unfold try_except. rewrite bind_eq. unfold result at 1.
    unfold store_futures. cbn [foldl].
    destruct (future_of d url) as [[[u' n] st]|e].
    + rewrite (save_result_eq _ _ _ _ _ _ Hdb). cbn [store_result].
      destruct (sqlite3.fits n).
      * erewrite IH; last first.
        { cbn. apply lookup_insert_eq. }
        by rewrite set_file_set_file.
      * cbn. by erewrite IH.
    + cbn. by erewrite IH.
Qed.

Lemma setup_database_eq cfg name s :
  Canonical.setup_database cfg name s
  = match db_open (fs s !! resolve cfg name) with
    | Return table =>
        (Return (resolve cfg name), set_file (resolve cfg name) (Database table) s)
    | Raise e => (Raise e, s)
    end.
Proof.
  unfold Canonical.setup_database, sqlite3.connect,
    sqlite3.create_table_if_not_exists.
  rewrite !bind_eq.
  destruct (fs s !! resolve cfg name) as [[[|c content]|table|cls]|] eqn:Hp;
    cbn [db_open]; rewrite ?bind_eq, ?Hp; cbn [sqlite3.schema];
    try reflexivity.
  - by rewrite set_file_id.
  - cbn [fs set_file]. rewrite lookup_insert_eq. cbn [sqlite3.schema].
    fold (set_file (resolve cfg name) (TextFile EmptyString) s).
    by rewrite set_file_set_file.
Qed.

Lemma export_to_csv_eq cfg orc db_name csv_file s table :
  fs s !! resolve cfg db_name = Some (Database table) →
  Canonical.export_to_csv cfg orc db_name csv_file s
  = match fs s !! resolve cfg csv_file with
    | Some (Unopenable cls) => (Raise (Exception cls), s)
    | _ =>
        (Return tt,
         mkState (<[resolve cfg csv_file := TextFile (export_text (select_order orc table))]> (fs s))
                 (db_text s) (requests s)
                 (stdout s ++ ["Results exported to " +:+ resolve cfg csv_file]))
    end.
Proof.
  intros Hdb.
  unfold Canonical.export_to_csv, sqlite3.connect, sqlite3.select_all.
  rewrite !bind_eq, Hdb. rewrite !bind_eq, Hdb. cbn [sqlite3.schema].
  rewrite bind_eq. unfold open_write.
  fold (export_text (select_order orc table)).
  destruct (fs s !! resolve cfg csv_file) as [[c|t|cls]|]; reflexivity.
Qed.

(** A run of the canonical program, in closed form. *)
Lemma main_eq cfg net orc args s :
  Canonical.main cfg net orc args s
  = (run_outcome cfg orc args s, state_after cfg net orc args s).
Proof.
  unfold Canonical.main.
  rewrite bind_eq, setup_database_eq.
  set (db := resolve cfg "results.db").
  unfold run_outcome, state_after, fs_after, stdout_after, stdout_loop,
    run_outcome, export_outcome, table_after, completed, futures, urls_fetched,
    started, todo, input, fs_setup, table_before, opened.
  fold db.
  destruct (db_open (fs s !! db)) as [table|e] eqn:Hopen.
  2:{ cbn. by rewrite !app_nil_r, state_eta. }
  set (s0 := set_file db (Database table) s).
  assert (Hdb : fs s0 !! db = Some (Database table)).
  { subst s0. cbn. apply lookup_insert_eq. }
  rewrite bind_eq.
  unfold Canonical.load_urls, open_read. rewrite bind_eq.
  change (fs s0) with (<[db := Database table]> (fs s)) at 1.
  change (db_text s0) with (db_text s).
  destruct (read_text (db_text s) (<[db := Database table]> (fs s)
                                     !! resolve cfg (url_file args)))
    as [content|e] eqn:Hfile.
  2:{ subst s0. cbn. by rewrite !app_nil_r. }
  unfold mret at 1, M_ret at 1.
  rewrite bind_eq.
  unfold Canonical.get_processed_urls, sqlite3.select_all. rewrite bind_eq.
  rewrite Hdb. cbn [sqlite3.schema]. unfold mret at 1, M_ret at 1.
  assert (Htb : table_before cfg s = table).
  { unfold table_before, opened. fold db. by rewrite Hopen. }
  assert (Hutp :
    filter (λ u, u ∉ (list_to_set (url <$> select_order orc table) : gset string))
           (set_order orc (Py.split (Py.strip content)))
    = urls_to_process cfg orc s content).
  { unfold urls_to_process. by rewrite Htb. }
  rewrite Hutp.
  rewrite bind_eq.
  destruct (urls_to_process cfg orc s content) as [|u0 todo] eqn:Htodo.
  - (* nothing to do *)
    unfold print at 1. rewrite bind_eq.
    erewrite export_to_csv_eq by exact Hdb.
    cbn [fs db_text requests stdout foldl].
    change (fs s0) with (<[db := Database table]> (fs s)).
    destruct (<[db := Database table]> (fs s) !! resolve cfg (csv_output args))
      as [[c|t|cls]|]; subst s0; unfold print, set_file;
      cbn [fs db_text requests stdout];
      rewrite ?app_nil_r, <- ?app_assoc; reflexivity.
  - rewrite bind_eq. unfold print at 1.
    rewrite bind_eq. unfold ThreadPoolExecutor.
    destruct (workers args <=? 0) eqn:Hw.
    + unfold raise. subst s0. unfold set_file.
      cbn [fs db_text requests stdout foldl negb].
      rewrite !app_nil_r. reflexivity.
    + unfold mret at 1, M_ret at 1. rewrite bind_eq, submit_all.
      cbn [negb].
      erewrite worker_loop; last first.
      { cbn [fs]. exact Hdb. }
      rewrite bind_eq.
      erewrite export_to_csv_eq; last first.
      { cbn [fs set_file]. apply lookup_insert_eq. }
      cbn [fs db_text requests stdout set_file].
      subst s0. cbn [fs db_text requests stdout set_file].
      rewrite insert_insert_eq.
      assert (Hcsv : ∀ t1 t2,
        match <[db := Database t1]> (fs s) !! resolve cfg (csv_output args) with
        | Some (Unopenable cls) => Some cls | _ => None end
        = match <[db := Database t2]> (fs s) !! resolve cfg (csv_output args) with
          | Some (Unopenable cls) => Some cls | _ => None end).
      { intros t1 t2. rewrite !lookup_insert. by case_decide. }
      specialize (Hcsv table
        (store_futures
           ((λ u, (fetch_result net (agent cfg) u (timeout args), u)) <$> u0 :: todo)
           table
           (as_completed orc
              (((λ u, (fetch_result net (agent cfg) u (timeout args), u)) <$> u0 :: todo).*2)))).
      destruct (<[db := Database table]> (fs s) !! resolve cfg (csv_output args))
        as [[c|t|cls]|];
      destruct (<[db := Database _]> (fs s) !! resolve cfg (csv_output args))
        as [[c'|t'|cls']|]; try discriminate Hcsv; try injection Hcsv as <-;
        unfold print, set_file; cbn [fs db_text requests stdout];
        rewrite ?insert_insert_eq, ?app_nil_r, <- ?app_assoc; reflexivity.
Qed.

(** Each script is the canonical program at its own configuration. *)
Lemma url_checker_main data_dir net orc args :
  UrlChecker.main data_dir net orc args
  = Canonical.main (Canonical.url_checker_config data_dir) net orc args.
Proof. reflexivity. Qed.

Lemma web_scraper_latest_main net orc args :
  WebScraperLatest.main net orc args
  = Canonical.main Canonical.web_scraper_latest_config net orc args.
Proof. reflexivity. Qed.

Lemma url_checker_process_url net u t :
  UrlChecker.process_url net u t
  = Canonical.process_url (Canonical.url_checker_config EmptyString) net u t.
Proof. reflexivity. Qed.

Lemma web_scraper_latest_process_url net u t :
  WebScraperLatest.process_url net u t
  = Canonical.process_url Canonical.web_scraper_latest_config net u t.
Proof. reflexivity. Qed.

(** * Lemmas on the table *)

Lemma fetch_result_Return net ua u t u' n st :
  fetch_result net ua u t = Return (u', n, st) →
  u' = u ∧ ((n = None ∧ st = "Failed") ∨ (∃ k, n = Some k ∧ 0 ≤ k ∧ st = "Success")).
Proof.
  unfold fetch_result. intros H.
  assert (Hlen : ∀ soup : list Tag, 0 ≤ Py.len (find_all "script" soup)).
  { intros soup. unfold Py.len. lia. }
  repeat match type of H with
         | context [match ?x with _ => _ end] => destruct x
         end;
    simplify_eq; split; eauto 6.
Qed.

Lemma fetch_result_Raise net ua u t e :
  fetch_result net ua u t = Raise e → is_RequestException e = false.
Proof.
  unfold fetch_result. intros H.
  repeat match type of H with
         | context [match ?x with _ => _ end] => destruct x
         end;
    by simplify_eq.
Qed.

Lemma fetch_result_row_ok net ua u t u' n st :
  fetch_result net ua u t = Return (u', n, st) → row_ok (mkRow u' n st).
Proof.
  intros H. apply fetch_result_Return in H as [_ [[-> ->]|(k & -> & Hk & ->)]];
    unfold row_ok; cbn; (split; [|split]).
  - split; [by intros [? ?]|done].
  - by right.
  - done.
  - done.
  - by left.
  - by intros ? [= <-].
Qed.

Lemma elem_of_replace_into_urls r table x :
  x ∈ (url <$> sqlite3.replace_into r table) ↔ x = url r ∨ x ∈ (url <$> table).
Proof.
  unfold sqlite3.replace_into. rewrite fmap_app, elem_of_app, !list_elem_of_fmap.
  split.
  - intros [(r' & -> & Hin)|(r' & -> & Hin)].
    + apply list_elem_of_filter in Hin as [_ Hin]. right. eauto.
    + apply list_elem_of_singleton in Hin as ->. by left.
  - intros [->|(r' & -> & Hin)].
    + right. exists r. split; [done|]. by apply list_elem_of_singleton.
    + destruct (decide (url r' = url r)) as [Heq|Hne].
      * right. exists r. split; [done|]. by apply list_elem_of_singleton.
      * left. exists r'. split; [done|]. by apply list_elem_of_filter.
Qed.

Lemma NoDup_fmap_filter {A B} (f : A → B) (P : A → Prop) `{∀ x, Decision (P x)} l :
  NoDup (f <$> l) → NoDup (f <$> filter P l).
Proof.
  induction l as [|a l IH]; [done|].
  rewrite fmap_cons, NoDup_cons. intros [Hnin Hnd].
  rewrite filter_cons. case_decide; [|by apply IH].
  rewrite fmap_cons, NoDup_cons. split; [|by apply IH].
  intros Hin. apply Hnin.
  apply list_elem_of_fmap in Hin as (a' & -> & Hin).
  apply list_elem_of_filter in Hin as [_ Hin].
  apply list_elem_of_fmap. eauto.
Qed.

Lemma replace_into_NoDup r table :
  NoDup (url <$> table) → NoDup (url <$> sqlite3.replace_into r table).
Proof.
  intros Hnd. unfold sqlite3.replace_into. rewrite fmap_app.
  apply NoDup_app. split; [by apply NoDup_fmap_filter|]. split.
  - intros x Hin Hx. cbn in Hx. apply list_elem_of_singleton in Hx as ->.
    apply list_elem_of_fmap in Hin as (r' & Heq & Hin).
    apply list_elem_of_filter in Hin as [Hne _]. congruence.
  - cbn. apply NoDup_singleton.
Qed.

Lemma replace_into_store_ok r table :
  store_ok table → row_ok r → store_ok (sqlite3.replace_into r table).
Proof.
  intros [Hnd Hok] Hr. split; [by apply replace_into_NoDup|].
  unfold sqlite3.replace_into. apply Forall_app. split.
  - apply Forall_forall. intros r' Hin.
    apply list_elem_of_filter in Hin as [_ Hin].
    revert r' Hin. by apply Forall_forall.
  - by apply Forall_singleton.
Qed.

Lemma replace_into_rows_of r table u :
  url r ≠ u → rows_of u (sqlite3.replace_into r table) = rows_of u table.
Proof.
  intros Hne. unfold rows_of, sqlite3.replace_into.
  rewrite filter_app, filter_cons_False, filter_nil, app_nil_r by done.
  induction table as [|r' table IH]; [done|].
  rewrite !filter_cons. destruct (decide (url r' = u)) as [Heq|Hne'].
  - rewrite decide_True by congruence.
    rewrite filter_cons, decide_True by done. by rewrite IH.
  - destruct (decide (url r' ≠ url r)).
    + rewrite filter_cons, decide_False by done. apply IH.
    + apply IH.
Qed.

Lemma store_results_cons net ua t table u us :
  store_results net ua t table (u :: us)
  = store_results net ua t (store_result (fetch_result net ua u t) table) us.
Proof. reflexivity. Qed.

Lemma store_results_snoc net ua t table us u :
  store_results net ua t table (us ++ [u])
  = store_result (fetch_result net ua u t) (store_results net ua t table us).
Proof. unfold store_results. by rewrite foldl_app. Qed.

Lemma store_results_store_ok net ua t us : ∀ table,
  store_ok table → store_ok (store_results net ua t table us).
Proof.
  induction us as [|u us IH]; intros table Hok; [done|].
  rewrite store_results_cons. apply IH.
  destruct (fetch_result net ua u t) as [[[u' n] st]|e] eqn:Hres; [|done].
  cbn [store_result]. destruct (sqlite3.fits n); [|done].
  apply replace_into_store_ok; [done|]. by eapply fetch_result_row_ok.
Qed.

Lemma fetched_row_url net ua u t r :
  fetched_row (fetch_result net ua u t) = Some r → url r = u.
Proof.
  destruct (fetch_result net ua u t) as [[[u' n] st]|e] eqn:Hres; [|done].
  apply fetch_result_Return in Hres as [-> _]. cbn.
  destruct (sqlite3.fits n); [|done]. by intros [= <-].
Qed.

Lemma store_result_eq res table :
  store_result res table
  = match fetched_row res with
    | Some r => sqlite3.replace_into r table
    | None => table
    end.
Proof.
  destruct res as [[[u n] st]|e]; [|done]. cbn. by destruct (sqlite3.fits n).
Qed.

Lemma elem_of_store_results_urls net ua t us : ∀ table x,
  x ∈ (url <$> store_results net ua t table us)
  ↔ x ∈ (url <$> table)
    ∨ (x ∈ us ∧ is_Some (fetched_row (fetch_result net ua x t))).
Proof.
  induction us as [|u us IH]; intros table x.
  - cbn. split; [by left|]. intros [?|[Hin _]]; [done|]. by apply elem_of_nil in Hin.
  - rewrite store_results_cons.
    rewrite IH. rewrite elem_of_cons. rewrite store_result_eq.
    destruct (fetched_row (fetch_result net ua u t)) as [r|] eqn:Hres.
    + apply fetched_row_url in Hres as Hu.
      rewrite elem_of_replace_into_urls, Hu.
      split.
      * intros [[->|?]|[? ?]]; eauto.
      * intros [?|[[->|?] ?]]; eauto.
    + split.
      * intros [?|[? ?]]; eauto.
      * intros [?|[[->|?] Hr]]; eauto. rewrite Hres in Hr. by destruct Hr.
Qed.

Lemma store_results_rows_of net ua t us u : ∀ table,
  u ∉ us → rows_of u (store_results net ua t table us) = rows_of u table.
Proof.
  induction us as [|u' us IH]; intros table Hnin; [done|].
  apply not_elem_of_cons in Hnin as [Hne Hnin].
  rewrite store_results_cons.
  rewrite IH by done.
  rewrite store_result_eq.
  destruct (fetched_row (fetch_result net ua u' t)) as [r|] eqn:Hres; [|done].
  apply fetched_row_url in Hres. apply replace_into_rows_of. congruence.
Qed.

Lemma store_results_none_stored net ua t us : ∀ table,
  (∀ u, u ∈ us → fetched_row (fetch_result net ua u t) = None) →
  store_results net ua t table us = table.
Proof.
  induction us as [|u us IH]; intros table Hall; [done|].
  rewrite store_results_cons, store_result_eq.
  rewrite (Hall u) by by left.
  apply IH. intros u' Hin. apply Hall. by right.
Qed.

(** The future a dict of submitted URLs holds for a URL. *)
Lemma future_of_fmap net ua t us x :
  future_of ((λ u, (fetch_result net ua u t, u)) <$> us) x
  = if decide (x ∈ us) then fetch_result net ua x t
    else Raise (Exception "KeyError").
Proof.
  induction us as [|u us IH]; [done|].
  cbn [fmap list_fmap future_of]. rewrite IH.
  destruct (decide (u = x)) as [->|Hne].
  - by rewrite decide_True by by left.
  - destruct (decide (x ∈ us)) as [Hin|Hnin].
    + by rewrite decide_True by by right.
    + rewrite decide_False; [done|]. intros [->|?]%elem_of_cons; done.
Qed.

(** The futures of a run carry the results of their URLs, so the table
    they leave is determined by the order in which they complete. *)
Lemma store_futures_eq net ua t submitted us : ∀ table,
  (∀ x, x ∈ us → x ∈ submitted) →
  store_futures ((λ u, (fetch_result net ua u t, u)) <$> submitted) table us
  = store_results net ua t table us.
Proof.
  induction us as [|u us IH]; intros table Hall; [done|].
  unfold store_futures. cbn [foldl]. rewrite store_results_cons.
  rewrite future_of_fmap, decide_True by (apply Hall; by left).
  apply IH. intros x Hx. apply Hall. by right.
Qed.

Lemma store_futures_store_ok net ua t submitted us : ∀ table,
  store_ok table →
  store_ok (store_futures ((λ u, (fetch_result net ua u t, u)) <$> submitted)
              table us).
Proof.
  induction us as [|u us IH]; intros table Hok; [done|].
  unfold store_futures. cbn [foldl]. apply IH.
  rewrite future_of_fmap. destruct (decide (u ∈ submitted)); [|done].
  destruct (fetch_result net ua u t) as [[[u' n] st]|exc] eqn:Hres; [|done].
  cbn [store_result]. destruct (sqlite3.fits n); [|done].
  apply replace_into_store_ok; [done|]. by eapply fetch_result_row_ok.
Qed.

(** * Lemmas on the URL source *)

Lemma split_from_rstrip s : ∀ word,
  Py.split_from word (Py.rstrip s) = Py.split_from word s.
Proof.
  induction s as [|c s IH]; intros word; [done|].
  cbn [Py.rstrip].
  destruct (Py.rstrip s) as [|c' r] eqn:Hr.
  - cbn [Py.split_from]. destruct (Py.isspace c) eqn:Hc.
    + cbn [Py.split_from]. rewrite <- (IH EmptyString). by destruct word.
    + cbn [Py.split_from]. rewrite Hc. by rewrite <- IH.
  - cbn [Py.split_from]. rewrite <- !IH. done.
Qed.

Lemma split_lstrip s : Py.split (Py.lstrip s) = Py.split s.
Proof.
  unfold Py.split. induction s as [|c s IH]; [done|].
  cbn [Py.lstrip]. destruct (Py.isspace c) eqn:Hc.
  - cbn [Py.split_from]. by rewrite Hc.
  - done.
Qed.

Lemma split_strip s : Py.split (Py.strip s) = Py.split s.
Proof.
  unfold Py.strip, Py.split at 1. rewrite split_from_rstrip.
  apply split_lstrip.
Qed.


Section OracleFacts.

Context (orc : Oracle) (Hok : Oracle_ok orc).

Lemma set_order_NoDup l : NoDup (set_order orc l).
Proof. rewrite (set_order_perm orc Hok). apply NoDup_remove_dups. Qed.

Lemma elem_of_set_order l x : x ∈ set_order orc l ↔ x ∈ l.
Proof. rewrite (set_order_perm orc Hok). apply elem_of_remove_dups. Qed.

Lemma elem_of_select_order_urls table x :
  x ∈ (url <$> select_order orc table) ↔ x ∈ (url <$> table).
Proof. by rewrite (select_order_perm orc Hok). Qed.

Lemma elem_of_urls_to_process cfg s content x :
  x ∈ urls_to_process cfg orc s content
  ↔ x ∈ Py.split content ∧ x ∉ (url <$> table_before cfg s).
Proof.
  unfold urls_to_process.
  rewrite list_elem_of_filter, elem_of_set_order, split_strip.
  rewrite elem_of_list_to_set, elem_of_select_order_urls. tauto.
Qed.

Lemma urls_to_process_NoDup cfg s content :
  NoDup (urls_to_process cfg orc s content).
Proof. unfold urls_to_process. apply NoDup_filter, set_order_NoDup. Qed.

Lemma todo_NoDup cfg args s : NoDup (todo cfg orc args s).
Proof.
  unfold todo. destruct (opened cfg s); [|apply NoDup_nil_2].
  destruct (input cfg args s); [|apply NoDup_nil_2].
  apply urls_to_process_NoDup.
Qed.

(** The URLs a run is to fetch are URLs of its input without a row. *)
Lemma elem_of_todo cfg args s x :
  x ∈ todo cfg orc args s
  ↔ ∃ table content,
      opened cfg s = Return table ∧ input cfg args s = Return content
      ∧ x ∈ Py.split content ∧ x ∉ (url <$> table).
Proof.
  unfold todo. pose proof (elem_of_urls_to_process cfg s) as Hin.
  unfold table_before in Hin.
  destruct (opened cfg s) as [table|e].
  2:{ split; [by intros ?%elem_of_nil|]. by intros (? & ? & ? & _). }
  destruct (input cfg args s) as [content|e].
  2:{ split; [by intros ?%elem_of_nil|]. by intros (? & ? & _ & ? & _). }
  rewrite Hin. split.
  - intros [? ?]. by exists table, content.
  - by intros (? & ? & [= <-] & [= <-] & ? & ?).
Qed.

End OracleFacts.

Lemma urls_fetched_todo cfg orc args s x :
  x ∈ urls_fetched cfg orc args s → x ∈ todo cfg orc args s.
Proof.
  unfold urls_fetched. destruct (started cfg orc args s); [done|].
  by intros ?%elem_of_nil.
Qed.

Lemma urls_fetched_NoDup cfg orc args s :
  Oracle_ok orc → NoDup (urls_fetched cfg orc args s).
Proof.
  intros Hok. unfold urls_fetched.
  destruct (started cfg orc args s); [by apply todo_NoDup|apply NoDup_nil_2].
Qed.

(** When a run ends normally it has fetched every URL that it was to
    fetch. *)
Lemma urls_fetched_Return cfg orc args s :
  run_outcome cfg orc args s = Return tt →
  urls_fetched cfg orc args s = todo cfg orc args s.
Proof.
  unfold run_outcome, urls_fetched, started, todo.
  destruct (opened cfg s); [|done].
  destruct (input cfg args s) as [content|]; [|done].
  destruct (urls_to_process cfg orc s content); [done|].
  by destruct (workers args <=? 0).
Qed.

Lemma urls_fetched_workers cfg orc args s :
  0 < workers args →
  urls_fetched cfg orc args s = todo cfg orc args s.
Proof.
  intros Hw. unfold urls_fetched, started.
  destruct (todo cfg orc args s); [done|].
  by rewrite (proj2 (Z.leb_gt _ _) Hw).
Qed.

Lemma futures_urls cfg net orc args s :
  (futures cfg net orc args s).*2 = urls_fetched cfg orc args s.
Proof.
  unfold futures. rewrite <- list_fmap_compose. apply list_fmap_id.
Qed.

(** The URLs of a run, in the order in which their futures complete. *)
Lemma completed_perm cfg net orc args s :
  Oracle_ok orc →
  completed cfg net orc args s ≡ₚ urls_fetched cfg orc args s.
Proof.
  intros Hok. unfold completed. rewrite futures_urls. unfold urls_fetched.
  destruct (started cfg orc args s); [|done].
  apply (as_completed_perm orc Hok).
Qed.

Lemma table_after_eq cfg net orc args s :
  Oracle_ok orc →
  table_after cfg net orc args s
  = store_results net (agent cfg) (timeout args) (table_before cfg s)
      (completed cfg net orc args s).
Proof.
  intros Hok. unfold table_after, futures. apply store_futures_eq.
  intros x Hx. by rewrite <- (completed_perm cfg net orc args s Hok).
Qed.

Lemma table_after_store_ok cfg net orc args s :
  store_ok (table_before cfg s) → store_ok (table_after cfg net orc args s).
Proof. apply store_futures_store_ok. Qed.

Lemma demo_oracle_ok : Oracle_ok Demo.orc.
Proof. by split. Qed.


(** * The Fetcher *)

(** C1, as amended.  [process_url] issues one request and then: returns
    [(url, None, 'Failed')] when [requests.get] raises a
    [RequestException] or the status of the response is in 400..599;
    returns [(url, n, 'Success')], [n] the number of [script] elements,
    when a response of any other status is parsed; and raises, whenever
    the HTTP client or the parser raises an exception that is not a
    [RequestException]. *)
Theorem C1_process_url_outcomes net u t s :
  let outcome_for ua :=
    match requests_get net u ua t with
    | Raise (RequestException _) => Return (u, None, "Failed")
    | Raise (Exception cls) => Raise (Exception cls)
    | Return response =>
        if (400 <=? status_code response) && (status_code response <? 600)
        then Return (u, None, "Failed")
        else match BeautifulSoup net (text response) with
             | Return soup =>
                 Return (u, Some (Z.of_nat (length (find_all "script" soup))), "Success")
             | Raise (RequestException _) => Return (u, None, "Failed")
             | Raise (Exception cls) => Raise (Exception cls)
             end
    end in
  UrlChecker.process_url net u t s
    = (outcome_for UrlChecker.user_agent, add_request u s)
  ∧ WebScraperLatest.process_url net u t s
    = (outcome_for WebScraperLatest.user_agent, add_request u s).
Proof.
  cbn zeta. split.
  - rewrite url_checker_process_url. apply process_url_eq.
  - rewrite web_scraper_latest_process_url. apply process_url_eq.
Qed.

(** C1 as stated fails: a page the parser rejects and a timeout the HTTP
    client refuses make [process_url] raise, and a response with status
    304, which is not a 2xx status, is counted as a success. *)
Lemma C1_process_url_raises :
  (UrlChecker.process_url Demo.net "http://c.test" 10 (Demo.fresh "")).1
    = Raise (Exception "ParserRejectedMarkup")
  ∧ (UrlChecker.process_url Demo.net "http://a.test" 0 (Demo.fresh "")).1
    = Raise (Exception "ValueError")
  ∧ (UrlChecker.process_url Demo.net "http://e.test" 10 (Demo.fresh "")).1
    = Return ("http://e.test", Some 0, "Success").
Proof. repeat split; reflexivity. Qed.

(** C10.  The triple [process_url] returns is keyed by the URL it was
    given and its status is exactly one of ['Success'] and ['Failed'];
    when no triple is returned, an exception that is not a
    [RequestException] was raised. *)
Theorem C10_process_url_triple net u t s :
  let keyed_by_url (res : outcome (string * option Z * string)) :=
    match res with
    | Return (u', n, st) =>
        u' = u ∧ (st = "Success" ∧ st ≠ "Failed" ∨ st = "Failed" ∧ st ≠ "Success")
    | Raise e => is_RequestException e = false
    end in
  keyed_by_url (UrlChecker.process_url net u t s).1
  ∧ keyed_by_url (WebScraperLatest.process_url net u t s).1.
Proof.
  cbn zeta.
  rewrite url_checker_process_url, web_scraper_latest_process_url, !process_url_eq.
  cbn [fst].
  split.
  - destruct (fetch_result _ _ _ _) as [[[u' n] st]|e] eqn:Hres.
    + apply fetch_result_Return in Hres as [-> [[_ ->]|(k & _ & _ & ->)]];
        split; auto.
    + by eapply fetch_result_Raise.
  - destruct (fetch_result _ _ _ _) as [[[u' n] st]|e] eqn:Hres.
    + apply fetch_result_Return in Hres as [-> [[_ ->]|(k & _ & _ & ->)]];
        split; auto.
    + by eapply fetch_result_Raise.
Qed.

(** * The Result Store *)

Lemma stores_ok_insert s path f dbt rq out :
  stores_ok s → (∀ table, f = Database table → store_ok table) →
  stores_ok (mkState (<[path := f]> (fs s)) dbt rq out).
Proof.
  intros Hs Ht p tb. rewrite lookup_dbs. cbn. rewrite lookup_insert.
  case_decide; [intros [= ->]; by apply Ht|].
  intros Hp. apply (Hs p). by apply lookup_dbs.
Qed.

Lemma stores_ok_fs s s' : fs s' = fs s → stores_ok s → stores_ok s'.
Proof. intros Heq Hs p tb. unfold dbs. rewrite Heq. apply Hs. Qed.

Lemma store_ok_nil : store_ok [].
Proof. split; [apply NoDup_nil_2|apply Forall_nil_2]. Qed.

Lemma db_open_store_ok s p table :
  stores_ok s → db_open (fs s !! p) = Return table → store_ok table.
Proof.
  intros Hs. destruct (fs s !! p) as [[[|c content]|tb|cls]|] eqn:Hp; cbn;
    intros [= <-]; try apply store_ok_nil.
  apply (Hs p). by apply lookup_dbs.
Qed.

Lemma table_before_store_ok cfg s : stores_ok s → store_ok (table_before cfg s).
Proof.
  intros Hs. unfold table_before, opened.
  destruct (db_open _) as [table|e] eqn:Hopen.
  - by eapply db_open_store_ok.
  - apply store_ok_nil.
Qed.

Lemma main_stores_ok cfg net orc args s :
  stores_ok s → stores_ok (Canonical.main cfg net orc args s).2.
Proof.
  intros Hs. rewrite main_eq. cbn [snd]. unfold state_after, fs_after.
  pose proof (table_after_store_ok cfg net orc args s
                (table_before_store_ok cfg s Hs)) as Hafter.
  destruct (opened cfg s); [|by apply (stores_ok_fs s)].
  assert (Hloop : stores_ok
            (mkState (<[resolve cfg "results.db" :=
                          Database (table_after cfg net orc args s)]> (fs s))
                     (db_text s) (requests s) (stdout s))).
  { apply stores_ok_insert; [done|]. by intros ? [= <-]. }
  destruct (run_outcome cfg orc args s).
  - by apply (stores_ok_insert _ _ _ _ _ _ Hloop).
  - by apply (stores_ok_fs _ _ eq_refl Hloop).
Qed.

Lemma reachable_stores_ok s : reachable s → stores_ok s.
Proof.
  induction 1 as [s Hs|s data_dir net orc args _ IH|s net orc args _ IH].
  - intros path table. by rewrite Hs, lookup_empty.
  - rewrite url_checker_main. by apply main_stores_ok.
  - rewrite web_scraper_latest_main. by apply main_stores_ok.
Qed.

Lemma save_result_state cursor u n st s :
  (Canonical.save_result cursor u n st s).2 = s
  ∨ ∃ table, fs s !! cursor = Some (Database table) ∧
      (Canonical.save_result cursor u n st s).2
      = set_file cursor (Database (sqlite3.replace_into (mkRow u n st) table)) s.
Proof.
  unfold Canonical.save_result, sqlite3.execute_replace. cbn [script_count].
  destruct (sqlite3.fits n); [|by left].
  destruct (fs s !! cursor) as [[[|c content]|tb|cls]|] eqn:Hp; cbn; eauto.
Qed.

Lemma save_result_stores_ok cfg net u t cursor s :
  stores_ok s →
  match Canonical.process_url cfg net u t s with
  | (Return (u', n, st), s') => stores_ok (Canonical.save_result cursor u' n st s').2
  | (Raise _, _) => True
  end.
Proof.
  intros Hs. rewrite process_url_eq.
  destruct (fetch_result _ _ _ _) as [[[u' n] st]|e] eqn:Hres; [|done].
  assert (Hs' : stores_ok (add_request u s)) by by apply (stores_ok_fs s).
  destruct (save_result_state cursor u' n st (add_request u s))
    as [->|(table & Hdb & ->)]; [done|].
  apply stores_ok_insert; [done|]. intros ? [= <-].
  apply replace_into_store_ok; [|by eapply fetch_result_row_ok].
  apply (Hs' cursor). by apply lookup_dbs.
Qed.

Lemma save_result_NoDup cursor u n st s :
  (∀ path table, dbs s !! path = Some table → NoDup (url <$> table)) →
  ∀ path table, dbs (Canonical.save_result cursor u n st s).2 !! path = Some table →
                NoDup (url <$> table).
Proof.
  intros Hs path table.
  destruct (save_result_state cursor u n st s) as [->|(tb & Hdb & ->)];
    [apply Hs|].
  rewrite lookup_dbs. cbn. rewrite lookup_insert. case_decide.
  - intros [= <-]. apply replace_into_NoDup. apply (Hs cursor).
    by apply lookup_dbs.
  - intros Hp. apply (Hs path). by apply lookup_dbs.
Qed.

(** C2.  In every state the system can reach, each store holds at most
    one row per URL and a count exactly in the rows whose status is
    [Success].  Where that holds it still holds after the upsert of the
    result of any fetch and after a run of either script; and no upsert,
    whatever its arguments, gives a URL a second row. *)
Theorem C2_store_invariant s :
  (reachable s → stores_ok s)
  ∧ (stores_ok s →
     (∀ net u t cursor,
        match UrlChecker.process_url net u t s with
        | (Return (u', n, st), s') =>
            stores_ok (UrlChecker.save_result cursor u' n st s').2
        | (Raise _, _) => True
        end)
     ∧ (∀ cursor u n st path table,
          dbs (UrlChecker.save_result cursor u n st s).2 !! path = Some table →
          NoDup (url <$> table))
     ∧ (∀ data_dir net orc args,
          stores_ok (UrlChecker.main data_dir net orc args s).2)
     ∧ (∀ net orc args, stores_ok (WebScraperLatest.main net orc args s).2)).
Proof.
  split; [apply reachable_stores_ok|].
  intros Hs. split; [|split; [|split]].
  - intros net u t cursor. rewrite url_checker_process_url.
    by apply save_result_stores_ok.
  - intros cursor u n st. apply save_result_NoDup.
    intros path table Hdb. by apply (Hs path table Hdb).
  - intros. rewrite url_checker_main. by apply main_stores_ok.
  - intros. rewrite web_scraper_latest_main. by apply main_stores_ok.
Qed.

Lemma C2_store_invariant_witness :
  let s := (UrlChecker.main "data" Demo.net Demo.orc Demo.args
              (Demo.fresh "http://a.test http://b.test")).2 in
  reachable s
  ∧ stores_ok s
  ∧ stores_ok (UrlChecker.main "data" Demo.net Demo.orc Demo.args s).2.
Proof.
  cbn zeta.
  assert (Hr : reachable (UrlChecker.main "data" Demo.net Demo.orc Demo.args
                            (Demo.fresh "http://a.test http://b.test")).2).
  { apply reachable_url_checker, reachable_fresh. by vm_compute. }
  pose proof (proj1 (C2_store_invariant _) Hr) as Hs.
  split; [exact Hr|]. split; [exact Hs|].
  exact (proj1 (proj2 (proj2 (proj2 (C2_store_invariant _) Hs)))
           "data" Demo.net Demo.orc Demo.args).
Defined.

(** * Runs against a store that already has rows *)


(** * Lemmas on the state a run leaves *)

Lemma load_urls_read cfg orc url_file s :
  Canonical.load_urls cfg orc url_file s
  = (match read_text (db_text s) (fs s !! resolve cfg url_file) with
     | Return content => Return (set_order orc (Py.split (Py.strip content)))
     | Raise e => Raise e
     end, s).
Proof.
  unfold Canonical.load_urls, open_read. rewrite bind_eq.
  by destruct (read_text _ _).
Qed.

Lemma load_urls_eq cfg orc url_file content s :
  files s !! resolve cfg url_file = Some content →
  Canonical.load_urls cfg orc url_file s
  = (Return (set_order orc (Py.split (Py.strip content))), s).
Proof.
  intros Hfile%lookup_files. by rewrite load_urls_read, Hfile.
Qed.

Lemma db_open_Database s p table :
  dbs s !! p = Some table → db_open (fs s !! p) = Return table.
Proof. intros Hdb%lookup_dbs. by rewrite Hdb. Qed.

Lemma opened_Database cfg s table :
  dbs s !! resolve cfg "results.db" = Some table → opened cfg s = Return table.
Proof. apply db_open_Database. Qed.

Lemma table_before_opened cfg s table :
  opened cfg s = Return table → table_before cfg s = table.
Proof. unfold table_before. by intros ->. Qed.

Lemma table_before_Some cfg s table :
  dbs s !! resolve cfg "results.db" = Some table → table_before cfg s = table.
Proof. intros Hdb. by apply table_before_opened, opened_Database. Qed.

Lemma fs_setup_Database cfg s table :
  dbs s !! resolve cfg "results.db" = Some table → fs_setup cfg s = fs s.
Proof.
  intros Hdb. unfold fs_setup. rewrite (opened_Database _ _ _ Hdb).
  apply insert_id. by apply lookup_dbs.
Qed.

(** What is at a path other than that of the database when the input is
    read and when the export starts. *)
Lemma fs_setup_ne cfg s p :
  p ≠ resolve cfg "results.db" → fs_setup cfg s !! p = fs s !! p.
Proof.
  intros Hne. unfold fs_setup. destruct (opened cfg s); [|done].
  by rewrite lookup_insert_ne.
Qed.

(** The database after a run that did not export over it. *)
Lemma dbs_state_after cfg net orc args s table :
  opened cfg s = Return table →
  resolve cfg (csv_output args) ≠ resolve cfg "results.db"
  ∨ run_outcome cfg orc args s ≠ Return tt →
  dbs (state_after cfg net orc args s) !! resolve cfg "results.db"
  = Some (table_after cfg net orc args s).
Proof.
  intros Hopen Hkeep. apply lookup_dbs. unfold state_after, fs_after.
  cbn [fs]. rewrite Hopen.
  destruct (run_outcome cfg orc args s) as [[]|e].
  - destruct Hkeep as [Hne|?]; [|done].
    rewrite lookup_insert_ne by done. apply lookup_insert_eq.
  - apply lookup_insert_eq.
Qed.

(** The file a run exports. *)
Lemma fs_state_after_csv cfg net orc args s :
  run_outcome cfg orc args s = Return tt →
  fs (state_after cfg net orc args s) !! resolve cfg (csv_output args)
  = Some (TextFile (export_text (select_order orc (table_after cfg net orc args s)))).
Proof.
  intros Hout. unfold state_after, fs_after. cbn [fs]. rewrite Hout.
  destruct (opened cfg s) eqn:Hopen.
  - apply lookup_insert_eq.
  - unfold run_outcome in Hout. by rewrite Hopen in Hout.
Qed.

Lemma run_outcome_opened cfg orc args s :
  run_outcome cfg orc args s = Return tt →
  ∃ table content,
    opened cfg s = Return table ∧ input cfg args s = Return content.
Proof.
  unfold run_outcome.
  destruct (opened cfg s) as [table|]; [|done].
  destruct (input cfg args s) as [content|]; [|done]. eauto.
Qed.

Lemma input_Database cfg args s table :
  dbs s !! resolve cfg "results.db" = Some table →
  input cfg args s = read_text (db_text s) (fs s !! resolve cfg (url_file args)).
Proof. intros Hdb. unfold input. by rewrite (fs_setup_Database _ _ _ Hdb). Qed.

(** * Runs against a store that already has rows *)

Lemma main_frame cfg net orc args s table u :
  Oracle_ok orc →
  dbs s !! resolve cfg "results.db" = Some table →
  u ∈ (url <$> table) →
  let out := Canonical.main cfg net orc args s in
  ∃ fetched,
    requests out.2 = (requests s ++ fetched)%list
    ∧ (u ∉ fetched)
    ∧ NoDup fetched
    ∧ (∀ x, x ∈ fetched →
         (x ∉ (url <$> table))
         ∧ ∃ urls, Canonical.load_urls cfg orc (url_file args) s = (Return urls, s)
                   ∧ x ∈ urls)
    ∧ (out.1 = Return tt →
       ∀ urls x, Canonical.load_urls cfg orc (url_file args) s = (Return urls, s) →
                 x ∈ urls → x ∉ (url <$> table) → x ∈ fetched)
    ∧ (resolve cfg (csv_output args) ≠ resolve cfg "results.db"
       ∨ out.1 ≠ Return tt →
       ∃ table', dbs out.2 !! resolve cfg "results.db" = Some table'
                 ∧ rows_of u table' = rows_of u table)
    ∧ (resolve cfg (csv_output args) = resolve cfg "results.db" →
       out.1 = Return tt →
       dbs out.2 !! resolve cfg "results.db" = None
       ∧ ∃ table',
           rows_of u table' = rows_of u table
           ∧ files out.2 !! resolve cfg "results.db"
             = Some (export_text (select_order orc table'))).
Proof.
  intros Hok Hdb Hu. cbn zeta. rewrite main_eq. cbn [fst snd].
  exists (urls_fetched cfg orc args s).
  pose proof (opened_Database _ _ _ Hdb) as Hopen.
  pose proof (input_Database cfg args _ _ Hdb) as Hinput.
  assert (Hload : ∀ content, input cfg args s = Return content →
            Canonical.load_urls cfg orc (url_file args) s
            = (Return (set_order orc (Py.split (Py.strip content))), s)).
  { intros content Hc. by rewrite load_urls_read, <- Hinput, Hc. }
  assert (Hfetched : ∀ x, x ∈ urls_fetched cfg orc args s →
            (x ∉ (url <$> table))
            ∧ ∃ urls, Canonical.load_urls cfg orc (url_file args) s = (Return urls, s)
                   ∧ x ∈ urls).
  { intros x Hx%urls_fetched_todo.
    apply (elem_of_todo orc Hok) in Hx
      as (table0 & content & Hopen' & Hc & Hsplit & Hnin).
    rewrite Hopen in Hopen'. injection Hopen' as <-. split; [done|].
    eexists. split; [by apply Hload|].
    by rewrite (elem_of_set_order orc Hok), split_strip. }
  assert (Hnotin : u ∉ urls_fetched cfg orc args s).
  { intros Hin. by apply Hfetched in Hin as [Hnin _]. }
  assert (Hrows : rows_of u (table_after cfg net orc args s) = rows_of u table).
  { rewrite (table_after_eq _ _ _ _ _ Hok), store_results_rows_of.
    - by rewrite (table_before_Some cfg s table Hdb).
    - by rewrite (completed_perm _ _ _ _ _ Hok). }
  split; [done|]. split; [done|]. split; [by apply urls_fetched_NoDup|].
  split; [done|]. split; [|split].
  - intros Hout urls x Hurls Hx Hnin.
    rewrite (urls_fetched_Return _ _ _ _ Hout).
    apply (elem_of_todo orc Hok).
    apply run_outcome_opened in Hout as (table0 & content & Hopen' & Hc).
    exists table, content. split; [done|]. split; [done|]. split; [|done].
    rewrite (Hload _ Hc) in Hurls. injection Hurls as <-.
    by rewrite (elem_of_set_order orc Hok), split_strip in Hx.
  - intros Hkeep. exists (table_after cfg net orc args s). split; [|done].
    by apply (dbs_state_after _ _ _ _ _ table).
  - intros Hcsv Hout.
    pose proof (fs_state_after_csv cfg net orc args s Hout) as Hfile.
    rewrite Hcsv in Hfile. split.
    + apply lookup_dbs_None. intros tb. by rewrite Hfile.
    + exists (table_after cfg net orc args s). split; [done|].
      by apply lookup_files.
Qed.

(** C3, as amended.  A URL that has a row when a run starts is not
    requested by the run; the URLs the run requests, each once, are URLs
    [load_urls] yields that have no row, all of them when the run ends
    normally.  The rows of the URL are left as they were when the run
    does not export over the database, that is when [csv_output] names
    another file or the run does not end normally; a run that ends
    normally with [csv_output] naming the database leaves the exported
    text in its place: there is no table any more, and the rows of the
    URL are those the text was written from. *)
Theorem C3_processed_url_untouched data_dir net orc args s table u :
  Oracle_ok orc →
  dbs s !! Py.os_path_join data_dir "results.db" = Some table →
  u ∈ (url <$> table) →
  let db := Py.os_path_join data_dir "results.db" in
  let out := UrlChecker.main data_dir net orc args s in
  ∃ fetched,
    requests out.2 = (requests s ++ fetched)%list
    ∧ (u ∉ fetched)
    ∧ NoDup fetched
    ∧ (∀ x, x ∈ fetched →
         (x ∉ (url <$> table))
         ∧ ∃ urls,
             UrlChecker.load_urls data_dir orc (url_file args) s = (Return urls, s)
             ∧ x ∈ urls)
    ∧ (out.1 = Return tt →
       ∀ urls x,
         UrlChecker.load_urls data_dir orc (url_file args) s = (Return urls, s) →
         x ∈ urls → x ∉ (url <$> table) → x ∈ fetched)
    ∧ (Py.os_path_join data_dir (csv_output args) ≠ db ∨ out.1 ≠ Return tt →
       ∃ table', dbs out.2 !! db = Some table'
                 ∧ rows_of u table' = rows_of u table)
    ∧ (Py.os_path_join data_dir (csv_output args) = db →
       out.1 = Return tt →
       dbs out.2 !! db = None
       ∧ ∃ table',
           rows_of u table' = rows_of u table
           ∧ files out.2 !! db = Some (export_text (select_order orc table'))).
Proof.
  intros Hok Hdb Hu. cbn zeta. rewrite url_checker_main.
  by apply (main_frame (Canonical.url_checker_config data_dir)).
Qed.

Lemma C3_processed_url_untouched_witness :
  requests (UrlChecker.main "data" Demo.net Demo.orc Demo.args Demo.state_a_c).2
    = ["http://c.test"]
  ∧ ∃ fetched table',
      requests (UrlChecker.main "data" Demo.net Demo.orc Demo.args Demo.state_a_c).2
        = (requests Demo.state_a_c ++ fetched)%list
      ∧ ("http://a.test" ∉ fetched)
      ∧ dbs (UrlChecker.main "data" Demo.net Demo.orc Demo.args Demo.state_a_c).2
          !! "data/results.db" = Some table'
      ∧ rows_of "http://a.test" table' = [Demo.row_a].
Proof.
  split; [vm_compute; reflexivity|].
  destruct (C3_processed_url_untouched "data" Demo.net Demo.orc Demo.args
              Demo.state_a_c [Demo.row_a] "http://a.test" demo_oracle_ok)
    as (fetched & H1 & H2 & _ & _ & _ & H3 & _).
  - vm_compute; reflexivity.
  - apply list_elem_of_In. vm_compute. left; reflexivity.
  - destruct H3 as (table' & H3 & H4).
    + left. vm_compute. discriminate.
    + exists fetched, table'. repeat split; assumption.
Defined.

(** C3 as stated fails: with [--csv_output results.db] a run that ends
    normally writes the exported text over the database, and the row
    [a.test] had in the store is in no table any more. *)
Lemma C3_export_overwrites_store :
  let args := mkArgs "urls.txt" 10 10 "results.db" in
  let out := UrlChecker.main "data" Demo.net Demo.orc args Demo.state_a_c in
  dbs Demo.state_a_c !! "data/results.db" = Some [Demo.row_a]
  ∧ out.1 = Return tt
  ∧ requests out.2 = ["http://c.test"]
  ∧ dbs out.2 !! "data/results.db" = None
  ∧ files out.2 !! "data/results.db"
    = Some ("URL,Script Count,Status" +:+ csv.lineterminator
            +:+ "http://a.test,2,Success" +:+ csv.lineterminator).
Proof. cbn zeta. repeat split; vm_compute; reflexivity. Qed.

(** * Running twice *)

Lemma export_text_cons rows : ∃ c t, export_text rows = String c t.
Proof.
  unfold export_text.
  change (csv.writerow ["URL"; "Script Count"; "Status"])
    with (String "U" ("RL,Script Count,Status" +:+ csv.lineterminator)).
  cbn [String.append]. eauto.
Qed.

Lemma db_open_export_text rows :
  db_open (Some (TextFile (export_text rows))) = Raise (Exception "DatabaseError").
Proof. by destruct (export_text_cons rows) as (c & t & ->). Qed.

(** Setting a text file where a text file is leaves the databases as
    they are. *)
Lemma dbs_insert_TextFile (m : gmap string File) p content content' :
  m !! p = Some (TextFile content) →
  omap table_of (<[p := TextFile content']> m) = omap table_of m.
Proof.
  intros Hp. apply map_eq. intros q. rewrite !lookup_omap, lookup_insert.
  case_decide; [subst q; by rewrite Hp|done].
Qed.

(** A run finds a database to open after a run only where that run had
    one and left it. *)
Lemma opened_state_after cfg net orc args s table :
  opened cfg (state_after cfg net orc args s) = Return table →
  table = table_after cfg net orc args s
  ∧ fs (state_after cfg net orc args s) !! resolve cfg "results.db"
    = Some (Database table)
  ∧ (∃ table0, opened cfg s = Return table0)
  ∧ (resolve cfg (csv_output args) ≠ resolve cfg "results.db"
     ∨ run_outcome cfg orc args s ≠ Return tt).
Proof.
  unfold opened at 1. unfold state_after, fs_after. cbn [fs].
  destruct (opened cfg s) as [table0|e] eqn:Hopen.
  2:{ unfold opened in Hopen. by rewrite Hopen. }
  destruct (run_outcome cfg orc args s) as [[]|e].
  - destruct (decide (resolve cfg (csv_output args) = resolve cfg "results.db"))
      as [Heq|Hne].
    + rewrite Heq, lookup_insert_eq, db_open_export_text. done.
    + rewrite lookup_insert_ne, lookup_insert_eq by done. cbn.
      intros [= <-]. eauto 6.
  - rewrite lookup_insert_eq. cbn. intros [= <-]. split; [done|].
    split; [done|]. split; [eauto|]. by right.
Qed.

Lemma fs_setup_id cfg s table :
  fs s !! resolve cfg "results.db" = Some (Database table) → fs_setup cfg s = fs s.
Proof. intros Hdb. apply (fs_setup_Database _ _ table). by apply lookup_dbs. Qed.

(** The second of two runs reads what the first read, when the input
    file is what it was. *)
Lemma input_state_after cfg net orc args s table :
  opened cfg (state_after cfg net orc args s) = Return table →
  fs (state_after cfg net orc args s) !! resolve cfg (url_file args)
    = fs s !! resolve cfg (url_file args) →
  input cfg args (state_after cfg net orc args s) = input cfg args s.
Proof.
  intros Hopen Hsame.
  apply opened_state_after in Hopen as (-> & Hdb & [table0 Hopen0] & _).
  unfold input. rewrite (fs_setup_id _ _ _ Hdb), Hsame.
  change (db_text (state_after cfg net orc args s)) with (db_text s).
  destruct (decide (resolve cfg (url_file args) = resolve cfg "results.db"))
    as [Heq|Hne]; [|by rewrite fs_setup_ne].
  rewrite Heq in Hsame |- *. rewrite Hdb in Hsame.
  unfold fs_setup. rewrite Hopen0, lookup_insert_eq.
  unfold opened in Hopen0. rewrite <- Hsame in Hopen0. cbn in Hopen0.
  injection Hopen0 as <-. by rewrite <- Hsame.
Qed.

Lemma table_after_not_started cfg net orc args s :
  started cfg orc args s = false →
  table_after cfg net orc args s = table_before cfg s.
Proof. intros Hst. unfold table_after, completed. by rewrite Hst. Qed.

Lemma elem_of_table_after cfg net orc args s x :
  Oracle_ok orc →
  x ∈ (url <$> table_after cfg net orc args s)
  ↔ x ∈ (url <$> table_before cfg s)
    ∨ (x ∈ urls_fetched cfg orc args s
       ∧ is_Some (fetched_row (fetch_result net (agent cfg) x (timeout args)))).
Proof.
  intros Hok. rewrite (table_after_eq _ _ _ _ _ Hok), elem_of_store_results_urls.
  by rewrite (completed_perm _ _ _ _ _ Hok).
Qed.

(** The URLs a second run is to fetch were to be fetched by the first. *)
Lemma todo_state_after cfg net orc1 orc2 args s x :
  Oracle_ok orc1 → Oracle_ok orc2 →
  fs (state_after cfg net orc1 args s) !! resolve cfg (url_file args)
    = fs s !! resolve cfg (url_file args) →
  x ∈ todo cfg orc2 args (state_after cfg net orc1 args s) →
  x ∈ todo cfg orc1 args s
  ∧ (x ∉ (url <$> table_after cfg net orc1 args s)).
Proof.
  intros Hok1 Hok2 Hsame Hx.
  apply (elem_of_todo orc2 Hok2) in Hx as (t2 & content & Hopen & Hc & Hsplit & Hnin).
  rewrite (input_state_after _ _ _ _ _ _ Hopen Hsame) in Hc.
  apply opened_state_after in Hopen as (-> & _ & [table0 Hopen0] & _).
  split; [|done].
  apply (elem_of_todo orc1 Hok1). exists table0, content.
  split; [done|]. split; [done|]. split; [done|].
  intros Hin. apply Hnin. apply (elem_of_table_after _ _ _ _ _ _ Hok1). left.
  by rewrite (table_before_opened _ _ _ Hopen0).
Qed.

Lemma started_true cfg orc args s :
  started cfg orc args s = true →
  (workers args <=? 0) = false ∧ urls_fetched cfg orc args s = todo cfg orc args s.
Proof.
  unfold urls_fetched. intros Hst. rewrite Hst. split; [|done].
  unfold started in Hst. destruct (todo cfg orc args s); [done|].
  by destruct (workers args <=? 0).
Qed.

Lemma started_false cfg orc args s :
  started cfg orc args s = false →
  urls_fetched cfg orc args s = []
  ∧ (todo cfg orc args s = [] ∨ (workers args <=? 0) = true).
Proof.
  unfold urls_fetched. intros Hst. rewrite Hst. split; [done|].
  unfold started in Hst. destruct (todo cfg orc args s); [by left|].
  right. by destruct (workers args <=? 0).
Qed.

(** The URLs a second run fetches are URLs for which the first stored no
    row. *)
Lemma second_run_fetches cfg net orc1 orc2 args s x :
  Oracle_ok orc1 → Oracle_ok orc2 →
  fs (state_after cfg net orc1 args s) !! resolve cfg (url_file args)
    = fs s !! resolve cfg (url_file args) →
  x ∈ urls_fetched cfg orc2 args (state_after cfg net orc1 args s) →
  (x ∉ (url <$> table_after cfg net orc1 args s))
  ∧ fetched_row (fetch_result net (agent cfg) x (timeout args)) = None.
Proof.
  intros Hok1 Hok2 Hsame Hx.
  assert (Hw : (workers args <=? 0) = false).
  { destruct (started cfg orc2 args (state_after cfg net orc1 args s)) eqn:Hst.
    - by apply started_true in Hst as [? _].
    - apply started_false in Hst as [Hnil _]. rewrite Hnil in Hx.
      by apply elem_of_nil in Hx. }
  apply urls_fetched_todo in Hx.
  apply (todo_state_after _ _ _ _ _ _ _ Hok1 Hok2 Hsame) in Hx as [Hx Hnin].
  split; [done|].
  destruct (fetched_row _) as [r|] eqn:Hrow; [|done].
  exfalso. apply Hnin. apply (elem_of_table_after _ _ _ _ _ _ Hok1). right.
  split; [|by rewrite Hrow].
  unfold urls_fetched, started.
  destruct (todo cfg orc1 args s); [done|]. by rewrite Hw.
Qed.

Lemma table_after_second_run cfg net orc1 orc2 args s :
  Oracle_ok orc1 → Oracle_ok orc2 →
  fs (state_after cfg net orc1 args s) !! resolve cfg (url_file args)
    = fs s !! resolve cfg (url_file args) →
  table_after cfg net orc2 args (state_after cfg net orc1 args s)
  = table_before cfg (state_after cfg net orc1 args s).
Proof.
  intros Hok1 Hok2 Hsame.
  rewrite (table_after_eq _ _ _ _ _ Hok2).
  apply store_results_none_stored. intros u Hu.
  rewrite (completed_perm _ _ _ _ _ Hok2) in Hu.
  by apply (second_run_fetches _ _ _ _ _ _ _ Hok1 Hok2 Hsame) in Hu as [_ ?].
Qed.

(** A second run that gets to export follows a run that did. *)
Lemma second_run_exports cfg net orc1 orc2 args s :
  Oracle_ok orc1 → Oracle_ok orc2 →
  fs (state_after cfg net orc1 args s) !! resolve cfg (url_file args)
    = fs s !! resolve cfg (url_file args) →
  run_outcome cfg orc2 args (state_after cfg net orc1 args s) = Return tt →
  run_outcome cfg orc1 args s = Return tt.
Proof.
  intros Hok1 Hok2 Hsame Hout2.
  set (s1 := state_after cfg net orc1 args s) in *.
  pose proof Hout2 as Hrun2.
  apply run_outcome_opened in Hout2 as (t2 & content & Hopen2 & Hc2).
  pose proof (input_state_after _ _ _ _ _ _ Hopen2 Hsame) as Hinput.
  pose proof Hopen2 as Hopen2'.
  apply opened_state_after in Hopen2' as (-> & Hdb1 & [table0 Hopen0] & Hkeep).
  destruct (run_outcome cfg orc1 args s) as [[]|e] eqn:Hout1; [done|].
  exfalso. fold s1 in Hinput, Hdb1.
  assert (Hfs1 : fs s1 = <[resolve cfg "results.db" :=
                            Database (table_after cfg net orc1 args s)]> (fs s)).
  { unfold s1, state_after, fs_after. cbn [fs]. by rewrite Hopen0, Hout1. }
  unfold run_outcome in Hout1, Hrun2.
  rewrite Hopen0 in Hout1. rewrite Hopen2, Hc2 in Hrun2.
  rewrite Hinput in Hc2. rewrite Hc2 in Hout1.
  assert (Hexp : export_outcome cfg args s1 = export_outcome cfg args s).
  { unfold export_outcome. rewrite (fs_setup_id _ _ _ Hdb1), Hfs1.
    unfold fs_setup. rewrite Hopen0. rewrite !lookup_insert.
    by case_decide. }
  rewrite Hexp in Hrun2.
  destruct (todo cfg orc1 args s) as [|u0 rest] eqn:Htodo1.
  - (* nothing to do in the first run: it failed at the export *)
    destruct (todo cfg orc2 args s1) as [|u1 rest1] eqn:Htodo2;
      [congruence|].
    assert (Hin : u1 ∈ todo cfg orc2 args s1) by (rewrite Htodo2; by left).
    apply (todo_state_after _ _ _ _ _ _ _ Hok1 Hok2 Hsame) in Hin as [Hin _].
    rewrite Htodo1 in Hin. by apply elem_of_nil in Hin.
  - destruct (workers args <=? 0) eqn:Hw.
    + (* the first run did not start: the second has the same URLs to fetch *)
      assert (Hnot : started cfg orc1 args s = false).
      { unfold started. by rewrite Htodo1, Hw. }
      assert (Hin : u0 ∈ todo cfg orc2 args s1).
      { apply (elem_of_todo orc2 Hok2).
        assert (Hu0 : u0 ∈ todo cfg orc1 args s) by (rewrite Htodo1; by left).
        apply (elem_of_todo orc1 Hok1) in Hu0
          as (t & c & Ht & Hcc & Hsplit & Hnin).
        exists (table_after cfg net orc1 args s), content.
        split; [done|]. split; [by rewrite Hinput|].
        rewrite Hc2 in Hcc. injection Hcc as <-. split; [done|].
        rewrite (table_after_not_started _ _ _ _ _ Hnot).
        by rewrite (table_before_opened _ _ _ Ht). }
      destruct (todo cfg orc2 args s1); [by apply elem_of_nil in Hin|done].
    + destruct (todo cfg orc2 args s1); congruence.
Qed.

Lemma second_run cfg net orc1 orc2 args s0 :
  Oracle_ok orc1 → Oracle_ok orc2 →
  let s1 := state_after cfg net orc1 args s0 in
  let s2 := state_after cfg net orc2 args s1 in
  fs s1 !! resolve cfg (url_file args) = fs s0 !! resolve cfg (url_file args) →
  dbs s2 = dbs s1.
Proof.
  intros Hok1 Hok2. cbn zeta. intros Hsame.
  set (s1 := state_after cfg net orc1 args s0) in *.
  unfold dbs. unfold state_after at 1, fs_after. cbn [fs].
  destruct (opened cfg s1) as [t2|e] eqn:Hopen2; [|done].
  pose proof (table_after_second_run _ _ _ _ _ _ Hok1 Hok2 Hsame) as Htable.
  fold s1 in Htable. rewrite Htable, (table_before_opened _ _ _ Hopen2).
  pose proof Hopen2 as Hopen2'.
  apply opened_state_after in Hopen2' as (-> & Hdb1 & [table0 Hopen0] & Hkeep).
  fold s1 in Hdb1. rewrite (insert_id _ _ _ Hdb1).
  destruct (run_outcome cfg orc2 args s1) as [[]|e] eqn:Hout2; [|done].
  pose proof (second_run_exports _ _ _ _ _ _ Hok1 Hok2 Hsame Hout2) as Hout1.
  pose proof (fs_state_after_csv cfg net orc1 args s0 Hout1) as Hcsv.
  fold s1 in Hcsv. by erewrite dbs_insert_TextFile.
Qed.

(** What a run fetches when it can start its workers from a database
    that exists. *)
Lemma urls_fetched_exact cfg orc args s table urls :
  Oracle_ok orc →
  dbs s !! resolve cfg "results.db" = Some table →
  Canonical.load_urls cfg orc (url_file args) s = (Return urls, s) →
  0 < workers args →
  ∀ u, u ∈ urls_fetched cfg orc args s ↔ u ∈ urls ∧ u ∉ (url <$> table).
Proof.
  intros Hok Hdb Hload Hw u.
  rewrite (urls_fetched_workers _ _ _ _ Hw), (elem_of_todo orc Hok).
  rewrite (opened_Database _ _ _ Hdb), (input_Database cfg args _ _ Hdb).
  rewrite load_urls_read in Hload.
  destruct (read_text _ _) as [content|e]; [|done].
  injection Hload as <-.
  rewrite (elem_of_set_order orc Hok), split_strip. split.
  - by intros (t & c & [= <-] & [= <-] & ? & ?).
  - intros [? ?]. by exists table, content.
Qed.

(** C5, as amended.  Of two runs on the same input file and the same
    network the second leaves every store as the first left it.  The
    second run requests, each once, only URLs that have no row after the
    first, and for which the worker loop stores no row: their fetch
    raises an exception that [process_url] does not handle, or returns a
    count that SQLite refuses; again no row is stored.  It requests
    exactly the URLs of the input file without a row, when it finds the
    database and a positive number of workers.  When every URL of the
    input file is one whose fetch gives a row, every URL has its row
    after the first run and the second requests nothing. *)
Theorem C5_second_run_keeps_store data_dir net orc1 orc2 args s0 :
  Oracle_ok orc1 → Oracle_ok orc2 →
  let db := Py.os_path_join data_dir "results.db" in
  let input := Py.os_path_join data_dir (url_file args) in
  let s1 := (UrlChecker.main data_dir net orc1 args s0).2 in
  let s2 := (UrlChecker.main data_dir net orc2 args s1).2 in
  let row_of u := fetched_row (UrlChecker.process_url net u (timeout args) s1).1 in
  fs s1 !! input = fs s0 !! input →
  dbs s2 = dbs s1
  ∧ ∃ again,
      requests s2 = (requests s1 ++ again)%list
      ∧ NoDup again
      ∧ (∀ u, u ∈ again →
           (u ∉ (url <$> default [] (dbs s1 !! db))) ∧ row_of u = None)
      ∧ (∀ table1 urls,
           dbs s1 !! db = Some table1 →
           UrlChecker.load_urls data_dir orc2 (url_file args) s1 = (Return urls, s1) →
           0 < workers args →
           (∀ u, u ∈ again ↔ u ∈ urls ∧ u ∉ (url <$> table1))
           ∧ ((∀ u, u ∈ urls → is_Some (row_of u)) →
              (∀ u, u ∈ urls → u ∈ (url <$> table1)) ∧ again = [])).
Proof.
  intros Hok1 Hok2. cbn zeta. intros Hsame.
  rewrite !url_checker_main, !main_eq in *. cbn [snd] in *.
  set (cfg := Canonical.url_checker_config data_dir) in *.
  set (s1 := state_after cfg net orc1 args s0) in *.
  split; [by apply second_run|].
  exists (urls_fetched cfg orc2 args s1).
  split; [done|]. split; [by apply urls_fetched_NoDup|].
  assert (Hrow : ∀ u, u ∈ urls_fetched cfg orc2 args s1 →
            fetched_row (UrlChecker.process_url net u (timeout args) s1).1 = None).
  { intros u Hu. rewrite url_checker_process_url, process_url_eq. cbn [fst].
    by apply (second_run_fetches cfg net orc1 orc2 args s0 u Hok1 Hok2 Hsame)
      in Hu as [_ ?]. }
  split.
  - intros u Hu. split; [|by apply Hrow].
    apply urls_fetched_todo in Hu.
    apply (elem_of_todo orc2 Hok2) in Hu as (t2 & c & Hopen2 & _ & _ & Hnin).
    apply opened_state_after in Hopen2 as (-> & Hdb1 & _).
    fold s1 in Hdb1. apply lookup_dbs in Hdb1.
    change (Py.os_path_join data_dir "results.db") with (resolve cfg "results.db").
    by rewrite Hdb1.
  - intros table1 urls Hdb1 Hload Hw.
    pose proof (urls_fetched_exact cfg orc2 args s1 table1 urls Hok2 Hdb1 Hload Hw)
      as Hexact.
    split; [done|]. intros Hall.
    assert (Hnil : urls_fetched cfg orc2 args s1 = []).
    { apply elem_of_nil_inv. intros u Hu.
      pose proof (Hrow u Hu) as Hnone.
      apply Hexact in Hu as [Hu _]. apply Hall in Hu.
      rewrite Hnone in Hu. by destruct Hu. }
    split; [|done]. intros u Hu.
    destruct (decide (u ∈ (url <$> table1))) as [|Hnin]; [done|].
    assert (Hin : u ∈ urls_fetched cfg orc2 args s1) by by apply Hexact.
    rewrite Hnil in Hin. by apply elem_of_nil in Hin.
Qed.

Lemma C5_second_run_keeps_store_witness :
  let s0 := Demo.fresh "http://a.test http://c.test" in
  let s1 := (UrlChecker.main "data" Demo.net Demo.orc Demo.args s0).2 in
  let s2 := (UrlChecker.main "data" Demo.net Demo.orc Demo.args s1).2 in
  dbs s1 !! "data/results.db" = Some [Demo.row_a]
  ∧ dbs s2 = dbs s1.
Proof.
  cbn zeta. split; [vm_compute; reflexivity|].
  refine (proj1 (C5_second_run_keeps_store "data" Demo.net Demo.orc Demo.orc
                   Demo.args (Demo.fresh "http://a.test http://c.test")
                   demo_oracle_ok demo_oracle_ok _)).
  vm_compute; reflexivity.
Defined.

(** C5 as stated fails: the parser rejects the page of [c.test], so the
    first run stores no row for it and the second run requests it
    again. *)
Lemma C5_second_run_fetches_again :
  let s0 := Demo.fresh "http://c.test" in
  let s1 := (UrlChecker.main "data" Demo.net Demo.orc Demo.args s0).2 in
  let s2 := (UrlChecker.main "data" Demo.net Demo.orc Demo.args s1).2 in
  (UrlChecker.main "data" Demo.net Demo.orc Demo.args s0).1 = Return tt
  ∧ dbs s1 !! "data/results.db" = Some []
  ∧ requests s1 = ["http://c.test"]
  ∧ requests s2 = ["http://c.test"; "http://c.test"].
Proof. cbn zeta. repeat split; vm_compute; reflexivity. Qed.

(** * The scenario of two URLs, one of them twice in the file *)

Lemma Permutation_pair {A} (a b : A) l : l ≡ₚ [a; b] → l = [a; b] ∨ l = [b; a].
Proof.
  intros Hp. symmetry in Hp.
  destruct (Permutation_length_2_inv Hp) as [->| ->]; auto.
Qed.

Lemma filter_all {A} (P : A → Prop) `{∀ x, Decision (P x)} (l : list A) :
  (∀ x, P x) → filter P l = l.
Proof.
  intros HP. induction l as [|x l IH]; [done|].
  rewrite filter_cons, decide_True by done. by rewrite IH.
Qed.

(** The export of a run succeeds where the destination can be opened. *)
Lemma export_outcome_Return cfg args s table :
  opened cfg s = Return table →
  (∀ cls, fs s !! resolve cfg (csv_output args) ≠ Some (Unopenable cls)) →
  export_outcome cfg args s = Return tt.
Proof.
  intros Hopen Hcsv. unfold export_outcome, fs_setup. rewrite Hopen.
  rewrite lookup_insert. case_decide; [done|].
  destruct (fs s !! resolve cfg (csv_output args)) as [[c|t|cls]|] eqn:Hp;
    try done.
  by destruct (Hcsv cls).
Qed.

Lemma run_outcome_Return cfg orc args s table content :
  opened cfg s = Return table →
  input cfg args s = Return content →
  todo cfg orc args s = [] ∨ 0 < workers args →
  (∀ cls, fs s !! resolve cfg (csv_output args) ≠ Some (Unopenable cls)) →
  run_outcome cfg orc args s = Return tt.
Proof.
  intros Hopen Hinput Hw Hcsv. unfold run_outcome. rewrite Hopen, Hinput.
  rewrite (export_outcome_Return _ _ _ _ Hopen Hcsv).
  destruct (todo cfg orc args s); [done|].
  destruct Hw as [?|Hw]; [done|]. by rewrite (proj2 (Z.leb_gt _ _) Hw).
Qed.

(** What a run reads from a text file. *)
Lemma input_TextFile cfg args s table content :
  opened cfg s = Return table →
  files s !! resolve cfg (url_file args) = Some content →
  resolve cfg (url_file args) ≠ resolve cfg "results.db" →
  input cfg args s = Return content.
Proof.
  intros Hopen Hfile%lookup_files Hne. unfold input.
  by rewrite fs_setup_ne, Hfile.
Qed.

Lemma todo_eq cfg orc args s table content :
  opened cfg s = Return table →
  input cfg args s = Return content →
  todo cfg orc args s = urls_to_process cfg orc s content.
Proof. intros Hopen Hinput. unfold todo. by rewrite Hopen, Hinput. Qed.

Lemma scenario_rows cfg net orc args s resp soup :
  Oracle_ok orc →
  files s !! resolve cfg (url_file args)
    = Some "http://a.test http://a.test http://b.test" →
  fs s !! resolve cfg "results.db" = None
  ∨ dbs s !! resolve cfg "results.db" = Some [] →
  0 < workers args →
  requests_get net "http://a.test" (agent cfg) (timeout args) = Return resp →
  status_code resp = 200 →
  BeautifulSoup net (text resp) = Return soup →
  length (find_all "script" soup) = 2%nat →
  requests_get net "http://b.test" (agent cfg) (timeout args)
    = Raise (RequestException Timeout) →
  opened cfg s = Return []
  ∧ input cfg args s = Return "http://a.test http://a.test http://b.test"
  ∧ (table_after cfg net orc args s = [Demo.row_a; Demo.row_b]
     ∨ table_after cfg net orc args s = [Demo.row_b; Demo.row_a]).
Proof.
  intros Hok Hfile Hdb Hw Ha Hstatus Hsoup Hcount Hb.
  assert (Hopen : opened cfg s = Return []).
  { unfold opened. destruct Hdb as [-> | ->%lookup_dbs]; done. }
  assert (Hne : resolve cfg (url_file args) ≠ resolve cfg "results.db").
  { intros Heq. rewrite Heq in Hfile. apply lookup_files in Hfile.
    destruct Hdb as [Hdb|Hdb%lookup_dbs]; by rewrite Hfile in Hdb. }
  pose proof (input_TextFile _ _ _ _ _ Hopen Hfile Hne) as Hinput.
  split; [done|]. split; [done|].
  pose proof (table_before_opened _ _ _ Hopen) as Hbefore.
  assert (Hfa : fetch_result net (agent cfg) "http://a.test" (timeout args)
                = Return ("http://a.test", Some 2, "Success")).
  { unfold fetch_result. rewrite Ha, Hstatus, Hsoup. cbn.
    unfold Py.len. by rewrite Hcount. }
  assert (Hfb : fetch_result net (agent cfg) "http://b.test" (timeout args)
                = Return ("http://b.test", None, "Failed")).
  { unfold fetch_result. by rewrite Hb. }
  assert (Htodo : urls_fetched cfg orc args s
                  ≡ₚ ["http://a.test"; "http://b.test"]).
  { rewrite (urls_fetched_workers _ _ _ _ Hw), (todo_eq _ _ _ _ _ _ Hopen Hinput).
    unfold urls_to_process. rewrite Hbefore.
    assert (select_order orc [] = []) as ->.
    { apply Permutation_nil_r, (select_order_perm orc Hok). }
    rewrite filter_all by (intros x; cbn; set_solver).
    rewrite (set_order_perm orc Hok). by vm_compute. }
  rewrite (table_after_eq _ _ _ _ _ Hok), Hbefore.
  rewrite <- (completed_perm cfg net orc args s Hok) in Htodo.
  destruct (Permutation_pair _ _ _ Htodo) as [-> | ->];
    rewrite !store_results_cons; rewrite ?Hfa, ?Hfb; [by left|by right].
Qed.

(** C6.  With the input file [http://a.test http://a.test http://b.test],
    an empty store, a page of two scripts at [a.test] and a timeout at
    [b.test], and a destination for the export that can be opened and is
    not the database, the run ends normally, the store holds the rows
    [(a.test, 2, Success)] and [(b.test, absent, Failed)] and nothing
    else, and the exported file has three lines: the header line and the
    lines [http://a.test,2,Success] and [http://b.test,,Failed], these
    two in either order. *)
Theorem C6_two_urls_scenario data_dir net orc args s resp soup :
  let db := Py.os_path_join data_dir "results.db" in
  let csv_file_path := Py.os_path_join data_dir (csv_output args) in
  Oracle_ok orc →
  files s !! Py.os_path_join data_dir (url_file args)
    = Some "http://a.test http://a.test http://b.test" →
  fs s !! db = None ∨ dbs s !! db = Some [] →
  0 < workers args →
  requests_get net "http://a.test" UrlChecker.user_agent (timeout args)
    = Return resp →
  status_code resp = 200 →
  BeautifulSoup net (text resp) = Return soup →
  length (find_all "script" soup) = 2%nat →
  requests_get net "http://b.test" UrlChecker.user_agent (timeout args)
    = Raise (RequestException Timeout) →
  csv_file_path ≠ db →
  (∀ cls, fs s !! csv_file_path ≠ Some (Unopenable cls)) →
  let out := UrlChecker.main data_dir net orc args s in
  let header := "URL,Script Count,Status" +:+ csv.lineterminator in
  let line_a := "http://a.test,2,Success" +:+ csv.lineterminator in
  let line_b := "http://b.test,,Failed" +:+ csv.lineterminator in
  out.1 = Return tt
  ∧ ∃ table text,
      dbs out.2 !! db = Some table
      ∧ table ≡ₚ [mkRow "http://a.test" (Some 2) "Success";
                   mkRow "http://b.test" None "Failed"]
      ∧ files out.2 !! csv_file_path = Some text
      ∧ (text = header +:+ line_a +:+ line_b
         ∨ text = header +:+ line_b +:+ line_a)
      ∧ line_count text = 3%nat.
Proof.
  cbn zeta. intros Hok Hfile Hdb Hw Ha Hstatus Hsoup Hcount Hb Hne Hcsv.
  rewrite url_checker_main, main_eq. cbn [fst snd].
  set (cfg := Canonical.url_checker_config data_dir).
  destruct (scenario_rows cfg net orc args
              s resp soup Hok Hfile Hdb Hw Ha Hstatus Hsoup Hcount Hb)
    as (Hopen & Hinput & Htable).
  assert (Hout : run_outcome cfg orc args s = Return tt).
  { apply (run_outcome_Return _ _ _ _ _ _ Hopen Hinput); [by right|done]. }
  split; [done|].
  exists (table_after cfg net orc args s).
  exists (export_text (select_order orc (table_after cfg net orc args s))).
  split.
  { apply (dbs_state_after _ _ _ _ _ _ Hopen). by left. }
  split.
  { destruct Htable as [-> | ->]; [done|apply perm_swap]. }
  split.
  { apply lookup_files. by apply fs_state_after_csv. }
  pose proof (select_order_perm orc Hok (table_after cfg net orc args s)) as Hp.
  destruct Htable as [Ht | Ht]; rewrite Ht in Hp |- *;
    apply Permutation_pair in Hp as [-> | ->];
    (split; [(by left) || (by right)|by vm_compute]).
Qed.

Lemma C6_two_urls_scenario_witness :
  let out := UrlChecker.main "data" Demo.net Demo.orc Demo.args
               (Demo.fresh "http://a.test http://a.test http://b.test") in
  out.1 = Return tt
  ∧ ∃ table text,
      dbs out.2 !! "data/results.db" = Some table
      ∧ table ≡ₚ [Demo.row_a; Demo.row_b]
      ∧ files out.2 !! "data/results.csv" = Some text
      ∧ (text = ("URL,Script Count,Status" +:+ csv.lineterminator)
                +:+ ("http://a.test,2,Success" +:+ csv.lineterminator)
                +:+ ("http://b.test,,Failed" +:+ csv.lineterminator)
         ∨ text = ("URL,Script Count,Status" +:+ csv.lineterminator)
                  +:+ ("http://b.test,,Failed" +:+ csv.lineterminator)
                  +:+ ("http://a.test,2,Success" +:+ csv.lineterminator))
      ∧ line_count text = 3%nat.
Proof.
  refine (C6_two_urls_scenario "data" Demo.net Demo.orc Demo.args
            (Demo.fresh "http://a.test http://a.test http://b.test")
            (mkResponse 200 "<html>") Demo.page demo_oracle_ok
            _ _ _ _ _ _ _ _ _ _).
  - vm_compute; reflexivity.
  - left. vm_compute; reflexivity.
  - reflexivity.
  - reflexivity.
  - reflexivity.
  - reflexivity.
  - reflexivity.
  - reflexivity.
  - vm_compute. discriminate.
  - intros cls. vm_compute. discriminate.
Defined.

(** * Reading back what the writer wrote *)

Lemma string_app_cons c (s t : string) : String c s +:+ t = String c (s +:+ t).
Proof. reflexivity. Qed.

Lemma string_app_nil_l (s : string) : EmptyString +:+ s = s.
Proof. reflexivity. Qed.

Lemma string_app_nil_r (s : string) : s +:+ EmptyString = s.
Proof. induction s as [|c s IH]; [done|]. by rewrite string_app_cons, IH. Qed.

Lemma string_app_assoc (s t u : string) : (s +:+ t) +:+ u = s +:+ (t +:+ u).
Proof. induction s as [|c s IH]; [done|]. by rewrite !string_app_cons, IH. Qed.

Lemma string_app_snoc (s : string) c (t : string) :
  (s +:+ String c EmptyString) +:+ t = s +:+ String c t.
Proof. by rewrite string_app_assoc. Qed.

Module RereadFacts.
Import Reread.

Lemma run_app s : ∀ r t, run r (s +:+ t) = run (run r s) t.
Proof. induction s as [|c s IH]; intros r t; [done|]. rewrite string_app_cons. apply IH. Qed.

Lemma special_false c :
  csv.special c = false →
  bool_decide (c = csv.delimiter) = false ∧ bool_decide (c = csv.quotechar) = false
  ∧ bool_decide (c = csv.CR) = false ∧ bool_decide (c = csv.LF) = false.
Proof.
  unfold csv.special. intros H.
  repeat (apply orb_false_elim in H as [H ?]). auto.
Qed.

Lemma run_unquoted f : ∀ acc fs recs,
  csv.needs_quotes f = false →
  run (mkReader IN_FIELD acc fs recs) f = mkReader IN_FIELD (acc +:+ f) fs recs.
Proof.
  induction f as [|c f IH]; intros acc fs recs Hq.
  - by rewrite string_app_nil_r.
  - cbn [csv.needs_quotes] in Hq. apply orb_false_elim in Hq as [Hc Hq].
    apply special_false in Hc as (Hd & _ & Hcr & Hlf).
    cbn [run]. unfold step. cbn [state]. rewrite Hcr, Hlf, Hd.
    unfold add_char. cbn [field fields records].
    rewrite IH by done. by rewrite string_app_snoc.
Qed.

Lemma run_doubled f : ∀ acc fs recs,
  run (mkReader IN_QUOTED_FIELD acc fs recs) (csv.doubled f)
  = mkReader IN_QUOTED_FIELD (acc +:+ f) fs recs.
Proof.
  induction f as [|c f IH]; intros acc fs recs.
  - by rewrite string_app_nil_r.
  - cbn [csv.doubled]. destruct (bool_decide (c = csv.quotechar)) eqn:Hc.
    + apply bool_decide_eq_true in Hc as ->.
      cbn [run]. unfold step at 2. cbn [state].
      rewrite bool_decide_eq_true_2 by done.
      unfold step. cbn [state]. rewrite bool_decide_eq_true_2 by done.
      unfold add_char. cbn [field fields records].
      rewrite IH. by rewrite string_app_snoc.
    + cbn [run]. unfold step. cbn [state]. rewrite Hc.
      unfold add_char. cbn [field fields records].
      rewrite IH. by rewrite string_app_snoc.
Qed.

Lemma after_field_delimiter f fs recs r :
  after_field f fs recs r →
  step r csv.delimiter = mkReader START_FIELD EmptyString (fs ++ [f]) recs.
Proof. by destruct 1 as [-> | |]. Qed.

Lemma after_field_crlf f fs recs r :
  after_field f fs recs r →
  run r csv.lineterminator
  = mkReader START_RECORD EmptyString [] (recs ++ [(fs ++ [f])%list]).
Proof. by destruct 1 as [-> | |]. Qed.

(** A field written at the start of a field, not the first of its
    record. *)
Lemma run_write_field f fs recs :
  after_field f fs recs
    (run (mkReader START_FIELD EmptyString fs recs) (csv.write_field f)).
Proof.
  unfold csv.write_field. destruct (csv.needs_quotes f) eqn:Hq.
  - cbn [run]. unfold step at 1. cbn [state]. unfold start_field.
    do 2 rewrite bool_decide_eq_false_2 by done.
    rewrite bool_decide_eq_true_2 by done. cbn [field fields records].
    rewrite run_app, run_doubled. cbn [run]. unfold step. cbn [state].
    rewrite bool_decide_eq_true_2 by done. apply after_quoted.
  - destruct f as [|c f]; [by apply after_empty|].
    cbn [csv.needs_quotes] in Hq. apply orb_false_elim in Hq as [Hc Hq].
    apply special_false in Hc as (Hd & Hqc & Hcr & Hlf).
    cbn [run]. unfold step at 1. cbn [state]. unfold start_field.
    rewrite Hcr, Hlf, Hqc, Hd. unfold add_char. cbn [field fields records].
    rewrite run_unquoted by done. apply after_unquoted.
Qed.

(** The first field of a record; where it is empty the reader has not
    moved. *)
Lemma run_write_first_field f recs :
  let r := run (mkReader START_RECORD EmptyString [] recs) (csv.write_field f) in
  (f = EmptyString ∧ r = mkReader START_RECORD EmptyString [] recs)
  ∨ (f ≠ EmptyString ∧ after_field f [] recs r).
Proof.
  cbn zeta. unfold csv.write_field. destruct (csv.needs_quotes f) eqn:Hq.
  - right. split; [by intros ->|].
    cbn [run]. unfold step at 1. cbn [state]. unfold start_record, start_field.
    do 2 rewrite bool_decide_eq_false_2 by done.
    rewrite bool_decide_eq_true_2 by done. cbn [field fields records].
    rewrite run_app, run_doubled. cbn [run]. unfold step. cbn [state].
    rewrite bool_decide_eq_true_2 by done. apply after_quoted.
  - destruct f as [|c f]; [by left|]. right. split; [done|].
    cbn [csv.needs_quotes] in Hq. apply orb_false_elim in Hq as [Hc Hq].
    apply special_false in Hc as (Hd & Hqc & Hcr & Hlf).
    cbn [run]. unfold step at 1. cbn [state]. unfold start_record, start_field.
    rewrite Hcr, Hlf, Hqc, Hd. unfold add_char. cbn [field fields records].
    rewrite run_unquoted by done. apply after_unquoted.
Qed.

Lemma run_join_fields f rest : ∀ fs recs,
  run (mkReader START_FIELD EmptyString fs recs)
      (csv.join_fields (f :: rest) +:+ csv.lineterminator)
  = mkReader START_RECORD EmptyString [] (recs ++ [(fs ++ f :: rest)%list]).
Proof.
  revert f. induction rest as [|f' rest IH]; intros f fs recs.
  - cbn [csv.join_fields]. rewrite run_app.
    by erewrite after_field_crlf by apply run_write_field.
  - change (csv.join_fields (f :: f' :: rest))
      with (csv.write_field f +:+ String csv.delimiter (csv.join_fields (f' :: rest))).
    rewrite string_app_assoc, run_app, string_app_cons. cbn [run].
    erewrite after_field_delimiter by apply run_write_field.
    rewrite IH. by rewrite <- app_assoc.
Qed.

Lemma run_writerow fields recs :
  fields ≠ [] →
  run (mkReader START_RECORD EmptyString [] recs) (csv.writerow fields)
  = mkReader START_RECORD EmptyString [] (recs ++ [fields]).
Proof.
  destruct fields as [|f rest]; [done|]. intros _.
  destruct rest as [|f' rest].
  - destruct (run_write_first_field f recs) as [[-> _]|[Hne Hafter]].
    + reflexivity.
    + assert (csv.writerow [f] = csv.write_field f +:+ csv.lineterminator) as ->.
      { by destruct f. }
      rewrite run_app. by erewrite after_field_crlf by exact Hafter.
  - assert (csv.writerow (f :: f' :: rest)
            = csv.write_field f
              +:+ String csv.delimiter
                    (csv.join_fields (f' :: rest) +:+ csv.lineterminator)) as ->.
    { unfold csv.writerow.
      change (csv.join_fields (f :: f' :: rest))
        with (csv.write_field f +:+ String csv.delimiter (csv.join_fields (f' :: rest))).
      rewrite string_app_assoc, string_app_cons. by destruct f. }
    rewrite run_app. cbn [run].
    destruct (run_write_first_field f recs) as [[-> ->]|[Hne Hafter]].
    + unfold step at 1. cbn [state]. unfold start_record, start_field.
      do 3 rewrite bool_decide_eq_false_2 by done.
      rewrite bool_decide_eq_true_2 by done.
      unfold save_field. cbn [field fields records].
      by rewrite run_join_fields.
    + erewrite after_field_delimiter by exact Hafter.
      by rewrite run_join_fields.
Qed.

Lemma run_writerows rows : ∀ recs,
  Forall (λ fields, fields ≠ []) rows →
  run (mkReader START_RECORD EmptyString [] recs) (csv.writerows rows)
  = mkReader START_RECORD EmptyString [] (recs ++ rows).
Proof.
  induction rows as [|fields rows IH]; intros recs Hne.
  - by rewrite app_nil_r.
  - apply Forall_cons in Hne as [Hf Hne]. cbn [csv.writerows].
    rewrite run_app, run_writerow, IH by done. by rewrite <- app_assoc.
Qed.

(** Reading what [writerows] wrote gives the records back. *)
Lemma reader_writerows rows :
  Forall (λ fields, fields ≠ []) rows → reader (csv.writerows rows) = rows.
Proof. intros Hne. unfold reader. by rewrite run_writerows. Qed.

End RereadFacts.

(** * The tokens of a text *)

Lemma string_app_eq_nil (s t : string) :
  s +:+ t = EmptyString → s = EmptyString ∧ t = EmptyString.
Proof. by destruct s. Qed.

Lemma string_app_eq_cons (s t : string) c u :
  s +:+ t = String c u →
  (s = EmptyString ∧ t = String c u) ∨ (∃ s', s = String c s' ∧ s' +:+ t = u).
Proof.
  destruct s as [|c' s']; [by left|].
  rewrite string_app_cons. intros [= -> <-]. right. eauto.
Qed.

Lemma ends_with_space_nil : ¬ ends_with_space EmptyString.
Proof. intros (p & c & Heq & _). symmetry in Heq. by apply string_app_eq_nil in Heq as [_ ?]. Qed.

Lemma ends_with_space_cons c pre :
  ends_with_space (String c pre)
  ↔ (pre = EmptyString ∧ Py.isspace c = true) ∨ ends_with_space pre.
Proof.
  split.
  - intros (p & c' & Heq & Hc'). symmetry in Heq.
    apply string_app_eq_cons in Heq as [[-> [= -> ->]]|(p' & -> & <-)].
    + by left.
    + right. by exists p', c'.
  - intros [[-> Hc]|(p & c' & -> & Hc')].
    + by exists EmptyString, c.
    + by exists (String c p), c'.
Qed.

Lemma elem_of_split_from s : ∀ word x,
  x ∈ Py.split_from word s
  ↔ (x ≠ EmptyString
     ∧ ∃ t post, s = t +:+ post ∧ no_space t ∧ space_or_end_after post
                 ∧ x = word +:+ t)
    ∨ (∃ pre t post, s = pre +:+ (t +:+ post) ∧ ends_with_space pre
                     ∧ t ≠ EmptyString ∧ no_space t ∧ space_or_end_after post
                     ∧ x = t).
Proof.
  induction s as [|c s IH]; intros word x.
  - cbn [Py.split_from]. split.
    + intros Hin. left.
      destruct word as [|c w]; [by apply elem_of_nil in Hin|].
      apply list_elem_of_singleton in Hin as ->. split; [done|].
      exists EmptyString, EmptyString.
      rewrite !string_app_nil_r. repeat split; try done. by left.
    + intros [[Hne (t & post & Heq & _ & _ & ->)]|(pre & t & post & Heq & Hpre & _)].
      * symmetry in Heq. apply string_app_eq_nil in Heq as [-> _].
        rewrite string_app_nil_r in *.
        destruct word; [done|]. by apply list_elem_of_singleton.
      * symmetry in Heq. apply string_app_eq_nil in Heq as [-> _].
        by apply ends_with_space_nil in Hpre.
  - cbn [Py.split_from]. destruct (Py.isspace c) eqn:Hc.
    + assert (Hsplit : x ∈ match word with
                           | EmptyString => Py.split_from EmptyString s
                           | String _ _ => word :: Py.split_from EmptyString s
                           end
                       ↔ (word ≠ EmptyString ∧ x = word)
                         ∨ x ∈ Py.split_from EmptyString s).
      { destruct word as [|c' w].
        - split; [by right|]. by intros [[? _]|?].
        - rewrite elem_of_cons. split.
          + intros [->|?]; [by left|by right].
          + intros [[_ ->]|?]; [by left|by right]. }
      rewrite Hsplit, (IH EmptyString x). clear Hsplit. split.
      * intros [[Hne ->]|[[Hne (t & post & -> & Ht & Hpost & ->)]
                         |(pre & t & post & -> & Hpre & Hne & Ht & Hpost & ->)]].
        -- left. split; [done|]. exists EmptyString, (String c s).
           rewrite !string_app_nil_r. repeat split; try done. right. eauto.
        -- right. exists (String c EmptyString), t, post.
           repeat split; try done.
           apply ends_with_space_cons. by left.
        -- right. exists (String c pre), t, post.
           repeat split; try done.
           apply ends_with_space_cons. by right.
      * intros [[Hne (t & post & Heq & Ht & Hpost & ->)]
               |(pre & t & post & Heq & Hpre & Hne & Ht & Hpost & ->)].
        -- symmetry in Heq.
           apply string_app_eq_cons in Heq as [[-> _]|(t' & -> & _)].
           ++ rewrite string_app_nil_r in *. left. split; [|done].
              by intros ->.
           ++ destruct Ht as [Ht _]. congruence.
        -- symmetry in Heq.
           apply string_app_eq_cons in Heq as [[-> _]|(pre' & -> & <-)];
             [by apply ends_with_space_nil in Hpre|].
           right. apply ends_with_space_cons in Hpre as [[-> _]|Hpre].
           ++ left. split; [done|]. by exists t, post.
           ++ right. by exists pre', t, post.
    + rewrite (IH (word +:+ String c EmptyString) x). split.
      * intros [[Hne (t & post & -> & Ht & Hpost & ->)]
               |(pre & t & post & -> & Hpre & Hne & Ht & Hpost & ->)].
        -- left. split; [done|]. exists (String c t), post.
           rewrite string_app_snoc. repeat split; done.
        -- right. exists (String c pre), t, post.
           repeat split; try done.
           apply ends_with_space_cons. by right.
      * intros [[Hne (t & post & Heq & Ht & Hpost & ->)]
               |(pre & t & post & Heq & Hpre & Hne & Ht & Hpost & ->)].
        -- symmetry in Heq.
           apply string_app_eq_cons in Heq as [[-> ->]|(t' & -> & <-)].
           ++ destruct Hpost as [?|(c' & p & [= <- <-] & Hc')]; congruence.
           ++ left. split; [done|]. exists t', post.
              rewrite string_app_snoc. destruct Ht as [_ Ht]. done.
        -- symmetry in Heq.
           apply string_app_eq_cons in Heq as [[-> _]|(pre' & -> & <-)];
             [by apply ends_with_space_nil in Hpre|].
           apply ends_with_space_cons in Hpre as [[_ Hc']|Hpre]; [congruence|].
           right. by exists pre', t, post.
Qed.

(** The strings [s.split()] returns are the tokens of [s]. *)
Lemma elem_of_split s x : x ∈ Py.split s ↔ is_token s x.
Proof.
  unfold Py.split. rewrite elem_of_split_from. unfold is_token. split.
  - intros [[Hne (t & post & -> & Ht & Hpost & Hx)]
           |(pre & t & post & -> & Hpre & Hne & Ht & Hpost & ->)].
    + change (EmptyString +:+ t) with t in Hx. subst x.
      split; [done|]. split; [done|].
      exists EmptyString, post.
      split; [done|]. split; [by left|done].
    + split; [done|]. split; [done|]. exists pre, post.
      split; [done|]. split; [by right|done].
  - intros (Hne & Ht & pre & post & -> & [->|Hpre] & Hpost).
    + left. split; [done|]. by exists x, post.
    + right. by exists pre, x, post.
Qed.

(** * The URL source *)

(** C4.  From a file that exists [load_urls] returns, without touching
    anything, a list without duplicates whose elements are the strings
    [split] finds in the file, which are its whitespace-delimited
    tokens. *)
Theorem C4_load_urls_unique data_dir orc url_file content s :
  Oracle_ok orc →
  files s !! Py.os_path_join data_dir url_file = Some content →
  ∃ urls,
    UrlChecker.load_urls data_dir orc url_file s = (Return urls, s)
    ∧ NoDup urls
    ∧ (∀ x, x ∈ urls ↔ x ∈ Py.split content)
    ∧ (∀ x, x ∈ urls ↔ is_token content x)
    ∧ WebScraperLatest.load_urls orc (Py.os_path_join data_dir url_file) s
      = (Return urls, s).
Proof.
  intros Hok Hfile.
  exists (set_order orc (Py.split (Py.strip content))).
  split; [exact (load_urls_eq (Canonical.url_checker_config data_dir) orc
                   url_file content s Hfile)|].
  split; [by apply set_order_NoDup|].
  assert (Hsplit : ∀ x, x ∈ set_order orc (Py.split (Py.strip content))
                        ↔ x ∈ Py.split content).
  { intros x. by rewrite elem_of_set_order, split_strip. }
  split; [done|]. split.
  - intros x. by rewrite Hsplit, elem_of_split.
  - exact (load_urls_eq Canonical.web_scraper_latest_config orc
             (Py.os_path_join data_dir url_file) content s Hfile).
Qed.

Lemma C4_load_urls_unique_witness :
  ∃ urls,
    UrlChecker.load_urls "data" Demo.orc "urls.txt"
      (Demo.fresh "http://a.test http://a.test http://b.test")
    = (Return urls, Demo.fresh "http://a.test http://a.test http://b.test")
    ∧ NoDup urls
    ∧ (∀ x, x ∈ urls
            ↔ x ∈ Py.split "http://a.test http://a.test http://b.test").
Proof.
  destruct (C4_load_urls_unique "data" Demo.orc "urls.txt"
              "http://a.test http://a.test http://b.test"
              (Demo.fresh "http://a.test http://a.test http://b.test")
              demo_oracle_ok)
    as (urls & Hload & Hnd & Hsplit & _).
  - vm_compute; reflexivity.
  - exists urls. repeat split; try assumption; apply Hsplit.
Defined.

(** * The exporter *)

Lemma url_checker_export_to_csv data_dir orc db_name csv_file :
  UrlChecker.export_to_csv data_dir orc db_name csv_file
  = Canonical.export_to_csv (Canonical.url_checker_config data_dir) orc
      db_name csv_file.
Proof. reflexivity. Qed.

Lemma fields_of_row_nonempty rows :
  Forall (λ fields : list string, fields ≠ []) (csv.fields_of_row <$> rows).
Proof. apply Forall_fmap, Forall_forall. by intros r _. Qed.

Lemma reader_export_text rows :
  Reread.reader (export_text rows)
  = ["URL"; "Script Count"; "Status"] :: (csv.fields_of_row <$> rows).
Proof.
  unfold export_text.
  change (csv.writerow ["URL"; "Script Count"; "Status"]
          +:+ csv.writerows (csv.fields_of_row <$> rows))
    with (csv.writerows (["URL"; "Script Count"; "Status"]
                         :: (csv.fields_of_row <$> rows))).
  apply RereadFacts.reader_writerows.
  apply Forall_cons. split; [done|apply fields_of_row_nonempty].
Qed.

Lemma str_to_int z :
  Py.str z ≠ EmptyString
  ∧ NilZero.int_of_string (Py.str z) = Some (Z.to_int z).
Proof.
  unfold Py.str.
  assert (Hisi : NilZero.int_of_string (NilZero.string_of_int (Z.to_int z))
                 = Some (Z.to_int z)).
  { apply NilZero.isi; destruct z as [|p|p]; cbn; try done;
      intros [= Hnil]; by apply DecimalPos.Unsigned.to_uint_nonnil in Hnil. }
  split; [|done]. intros Hempty. by rewrite Hempty in Hisi.
Qed.

Lemma count_of_field_str z : Reread.count_of_field (Py.str z) = Some (Some z).
Proof.
  destruct (str_to_int z) as [Hne Hint]. unfold Reread.count_of_field.
  destruct (Py.str z) as [|c s] eqn:Hstr; [done|].
  by rewrite Hint, DecimalZ.of_to.
Qed.

Lemma row_of_fields_of_row r :
  Reread.row_of_fields (csv.fields_of_row r) = Some r.
Proof.
  destruct r as [u [n|] st]; cbn [csv.fields_of_row Reread.row_of_fields
    url script_count status].
  - by rewrite count_of_field_str.
  - done.
Qed.

Lemma mapM_row_of_fields rows :
  mapM Reread.row_of_fields (csv.fields_of_row <$> rows) = Some rows.
Proof. apply mapM_fmap_Some, row_of_fields_of_row. Qed.

Lemma reread_export_text rows : Reread.reread (export_text rows) = Some rows.
Proof.
  unfold Reread.reread. rewrite reader_export_text. apply mapM_row_of_fields.
Qed.

(** C7.  Where the destination can be opened the exporter replaces what
    is there, whatever it is, by a text file that holds the header line
    and one line per row, in the order in which the rows were fetched,
    and says so; read as CSV the file is the header record and one record
    of three fields per row, the second of them empty where the count is
    absent.  Nothing else is changed. *)
Theorem C7_export_to_csv data_dir orc db_name csv_file s table :
  dbs s !! Py.os_path_join data_dir db_name = Some table →
  (∀ cls, fs s !! Py.os_path_join data_dir csv_file ≠ Some (Unopenable cls)) →
  let rows := select_order orc table in
  let text := "URL,Script Count,Status" +:+ csv.lineterminator
              +:+ csv.writerows (csv.fields_of_row <$> rows) in
  ∃ s',
    UrlChecker.export_to_csv data_dir orc db_name csv_file s = (Return tt, s')
    ∧ fs s' = <[Py.os_path_join data_dir csv_file := TextFile text]> (fs s)
    ∧ files s' !! Py.os_path_join data_dir csv_file = Some text
    ∧ db_text s' = db_text s
    ∧ requests s' = requests s
    ∧ stdout s'
      = (stdout s ++ ["Results exported to "
                      +:+ Py.os_path_join data_dir csv_file])%list
    ∧ Reread.reader text
      = ["URL"; "Script Count"; "Status"] :: (csv.fields_of_row <$> rows)
    ∧ (∀ r, script_count r = None →
            csv.fields_of_row r = [url r; EmptyString; status r]
            ∧ csv.writerow (csv.fields_of_row r)
              = csv.write_field (url r) +:+ ",," +:+ csv.write_field (status r)
                +:+ csv.lineterminator).
Proof.
  intros Hdb%lookup_dbs Hcsv. cbn zeta.
  pose proof (export_to_csv_eq (Canonical.url_checker_config data_dir) orc
                db_name csv_file s table Hdb) as Hexport.
  change (resolve (Canonical.url_checker_config data_dir) csv_file)
    with (Py.os_path_join data_dir csv_file) in Hexport.
  eexists. split.
  { rewrite url_checker_export_to_csv, Hexport.
    destruct (fs s !! Py.os_path_join data_dir csv_file) as [[c|t|cls]|] eqn:Hp;
      try reflexivity.
    by destruct (Hcsv cls). }
  cbn [fs db_text requests stdout]. split; [done|]. split.
  { apply lookup_files. cbn [fs]. apply lookup_insert_eq. }
  split; [done|]. split; [done|]. split; [done|]. split.
  - apply (reader_export_text (select_order orc table)).
  - intros [u n st]. cbn [script_count]. intros ->.
    split; [done|]. unfold csv.fields_of_row. cbn [url script_count status].
    assert (csv.writerow [u; EmptyString; st]
            = csv.join_fields [u; EmptyString; st] +:+ csv.lineterminator) as ->
      by by destruct u.
    change (csv.join_fields [u; EmptyString; st])
      with (csv.write_field u +:+ String csv.delimiter
              (String csv.delimiter (csv.write_field st))).
    by rewrite string_app_assoc.
Qed.

Lemma C7_export_to_csv_witness :
  ∃ s',
    UrlChecker.export_to_csv "data" Demo.orc "results.db" "results.csv" Demo.table_a_b
    = (Return tt, s')
    ∧ files s' !! "data/results.csv"
      = Some ("URL,Script Count,Status" +:+ csv.lineterminator
              +:+ "http://a.test,2,Success" +:+ csv.lineterminator
              +:+ "http://b.test,,Failed" +:+ csv.lineterminator).
Proof.
  destruct (C7_export_to_csv "data" Demo.orc "results.db" "results.csv"
              Demo.table_a_b [Demo.row_a; Demo.row_b])
    as (s' & Hexport & _ & Hfiles & _).
  - vm_compute; reflexivity.
  - intros cls. vm_compute. discriminate.
  - exists s'. split; [exact Hexport|].
    etrans; [exact Hfiles|]. vm_compute; reflexivity.
Defined.

(** C8.  Exporting any table to a destination that can be opened and
    reading the file back gives triples that are, up to their order, the
    rows a scan of the table returns: a scan of the store as it was
    exported, and a scan after the export too when the destination is not
    the database. *)
Theorem C8_export_round_trip data_dir orc orc' db_name csv_file s table :
  Oracle_ok orc → Oracle_ok orc' →
  dbs s !! Py.os_path_join data_dir db_name = Some table →
  (∀ cls, fs s !! Py.os_path_join data_dir csv_file ≠ Some (Unopenable cls)) →
  let s' := (UrlChecker.export_to_csv data_dir orc db_name csv_file s).2 in
  ∃ text triples scanned,
    files s' !! Py.os_path_join data_dir csv_file = Some text
    ∧ Reread.reread text = Some triples
    ∧ (sqlite3.select_all orc' (Py.os_path_join data_dir db_name) s).1
      = Return scanned
    ∧ triples ≡ₚ scanned
    ∧ (Py.os_path_join data_dir csv_file ≠ Py.os_path_join data_dir db_name →
       (sqlite3.select_all orc' (Py.os_path_join data_dir db_name) s').1
       = Return scanned).
Proof.
  intros Hok Hok' Hdb%lookup_dbs Hcsv. cbn zeta.
  rewrite url_checker_export_to_csv.
  rewrite (export_to_csv_eq (Canonical.url_checker_config data_dir) orc
             db_name csv_file s table Hdb).
  change (resolve (Canonical.url_checker_config data_dir) csv_file)
    with (Py.os_path_join data_dir csv_file).
  exists (export_text (select_order orc table)), (select_order orc table),
    (select_order orc' table).
  set (s1 := mkState (<[Py.os_path_join data_dir csv_file :=
                          TextFile (export_text (select_order orc table))]> (fs s))
               (db_text s) (requests s)
               (stdout s ++ ["Results exported to "
                             +:+ Py.os_path_join data_dir csv_file])).
  assert (Hfile : files s1 !! Py.os_path_join data_dir csv_file
                  = Some (export_text (select_order orc table))).
  { apply lookup_files. cbn [fs s1]. apply lookup_insert_eq. }
  assert (Hafter :
    Py.os_path_join data_dir csv_file ≠ Py.os_path_join data_dir db_name →
    (sqlite3.select_all orc' (Py.os_path_join data_dir db_name) s1).1
    = Return (select_order orc' table)).
  { intros Hne. unfold sqlite3.select_all. cbn [fs s1].
    rewrite lookup_insert_ne by done. by rewrite Hdb. }
  assert (Hscan : (sqlite3.select_all orc' (Py.os_path_join data_dir db_name) s).1
                  = Return (select_order orc' table)).
  { unfold sqlite3.select_all. by rewrite Hdb. }
  assert (Hperm : select_order orc table ≡ₚ select_order orc' table).
  { by rewrite (select_order_perm orc Hok), (select_order_perm orc' Hok'). }
  pose proof (reread_export_text (select_order orc table)) as Hread.
  destruct (fs s !! Py.os_path_join data_dir csv_file) as [[c|t|cls]|] eqn:Hp;
    cbn [snd]; try done.
  by destruct (Hcsv cls).
Qed.

Lemma C8_export_round_trip_witness :
  let s' := (UrlChecker.export_to_csv "data" Demo.orc "results.db"
               "results.csv" Demo.table_a_b).2 in
  ∃ text triples scanned,
    files s' !! "data/results.csv" = Some text
    ∧ Reread.reread text = Some triples
    ∧ (sqlite3.select_all Demo.orc "data/results.db" Demo.table_a_b).1
      = Return scanned
    ∧ triples ≡ₚ scanned
    ∧ ("data/results.csv" ≠ "data/results.db" →
       (sqlite3.select_all Demo.orc "data/results.db" s').1 = Return scanned).
Proof.
  refine (C8_export_round_trip "data" Demo.orc Demo.orc "results.db"
            "results.csv" Demo.table_a_b [Demo.row_a; Demo.row_b]
            demo_oracle_ok demo_oracle_ok _ _).
  - vm_compute; reflexivity.
  - intros cls. vm_compute. discriminate.
Defined.

(** * One design, two configurations *)

(** C9.  Each function of either script is the function of the same name
    of the canonical design, at the configuration of the script: the
    scripts differ in nothing but the resolution of file paths and the
    user-agent string.  Where neither is used the functions of the two
    scripts are equal as they stand, and [load_urls] and [export_to_csv]
    of the first are those of the second on the resolved paths. *)
Theorem C9_one_design data_dir net orc :
  let c1 := Canonical.url_checker_config data_dir in
  let c2 := Canonical.web_scraper_latest_config in
  (UrlChecker.load_urls data_dir orc = Canonical.load_urls c1 orc
   ∧ UrlChecker.get_processed_urls orc = Canonical.get_processed_urls orc
   ∧ UrlChecker.process_url net = Canonical.process_url c1 net
   ∧ UrlChecker.save_result = Canonical.save_result
   ∧ UrlChecker.export_to_csv data_dir orc = Canonical.export_to_csv c1 orc
   ∧ UrlChecker.main data_dir net orc = Canonical.main c1 net orc)
  ∧ (WebScraperLatest.load_urls orc = Canonical.load_urls c2 orc
     ∧ WebScraperLatest.get_processed_urls orc = Canonical.get_processed_urls orc
     ∧ WebScraperLatest.process_url net = Canonical.process_url c2 net
     ∧ WebScraperLatest.save_result = Canonical.save_result
     ∧ WebScraperLatest.export_to_csv orc = Canonical.export_to_csv c2 orc
     ∧ WebScraperLatest.main net orc = Canonical.main c2 net orc)
  ∧ (UrlChecker.get_processed_urls orc = WebScraperLatest.get_processed_urls orc
     ∧ UrlChecker.save_result = WebScraperLatest.save_result
     ∧ (∀ url_file,
          UrlChecker.load_urls data_dir orc url_file
          = WebScraperLatest.load_urls orc (Py.os_path_join data_dir url_file))
     ∧ (∀ db_name csv_file,
          UrlChecker.export_to_csv data_dir orc db_name csv_file
          = WebScraperLatest.export_to_csv orc
              (Py.os_path_join data_dir db_name)
              (Py.os_path_join data_dir csv_file))).
Proof. cbn zeta. repeat split; reflexivity. Qed.
(** * Further properties of the two scripts *)

Lemma path_of_config sc name : path_of sc name = resolve (config_of sc) name.
Proof. by destruct sc. Qed.

Lemma setup_database_of_eq sc :
  setup_database_of sc = Canonical.setup_database (config_of sc).
Proof. by destruct sc. Qed.

Lemma load_urls_of_eq sc orc :
  load_urls_of sc orc = Canonical.load_urls (config_of sc) orc.
Proof. by destruct sc. Qed.

Lemma get_processed_urls_of_eq sc orc :
  get_processed_urls_of sc orc = Canonical.get_processed_urls orc.
Proof. by destruct sc. Qed.

Lemma process_url_of_eq sc net :
  process_url_of sc net = Canonical.process_url (config_of sc) net.
Proof. by destruct sc. Qed.

Lemma save_result_of_eq sc : save_result_of sc = Canonical.save_result.
Proof. by destruct sc. Qed.

Lemma export_to_csv_of_eq sc orc :
  export_to_csv_of sc orc = Canonical.export_to_csv (config_of sc) orc.
Proof. by destruct sc. Qed.

Lemma main_of_eq sc net orc :
  main_of sc net orc = Canonical.main (config_of sc) net orc.
Proof. by destruct sc. Qed.

(** ** [setup_database] *)

Lemma setup_database_of_open sc db_name s :
  setup_database_of sc db_name s
  = match db_open (fs s !! path_of sc db_name) with
    | Return table =>
        (Return (path_of sc db_name),
         set_file (path_of sc db_name) (Database table) s)
    | Raise e => (Raise e, s)
    end.
Proof. rewrite setup_database_of_eq, path_of_config. apply setup_database_eq. Qed.

(** X1.  [setup_database] returns the path of the database where it can
    set the database up, and raises where it cannot, changing nothing
    then.  A database that exists is kept as it is; where there is no
    file, or an empty one, a database with an empty table is created, and
    nothing else is touched; a path that cannot be opened gives
    [OperationalError] and a file that is not a database
    [DatabaseError].  After a call that returned, a second call returns
    too and changes nothing. *)
Theorem X1_setup_database_creates_or_keeps sc db_name s :
  let p := path_of sc db_name in
  match fs s !! p with
  | Some (Database table) => setup_database_of sc db_name s = (Return p, s)
  | None | Some (TextFile EmptyString) =>
      setup_database_of sc db_name s = (Return p, set_file p (Database []) s)
  | Some (TextFile _) =>
      setup_database_of sc db_name s = (Raise (Exception "DatabaseError"), s)
  | Some (Unopenable _) =>
      setup_database_of sc db_name s = (Raise (Exception "OperationalError"), s)
  end
  ∧ ∀ s', setup_database_of sc db_name s = (Return p, s') →
          setup_database_of sc db_name s' = (Return p, s').
Proof.
  cbn zeta. rewrite !setup_database_of_open. split.
  - destruct (fs s !! path_of sc db_name) as [[[|c content]|table|cls]|] eqn:Hp;
      cbn [db_open]; try reflexivity.
    by rewrite set_file_id.
  - intros s'. rewrite setup_database_of_open.
    destruct (db_open (fs s !! path_of sc db_name)) as [table|e]; [|done].
    intros [= <-]. cbn [fs set_file]. rewrite lookup_insert_eq. cbn [db_open].
    f_equal. fold (set_file (path_of sc db_name) (Database table) s).
    apply set_file_set_file.
Qed.

Lemma X1_setup_database_creates_or_keeps_witness :
  let s := Demo.fresh "" in
  let s' := set_file "data/results.db" (Database []) s in
  setup_database_of (url_checker "data") "results.db" s
  = (Return "data/results.db", s')
  ∧ setup_database_of (url_checker "data") "results.db" s'
    = (Return "data/results.db", s').
Proof.
  cbn zeta.
  assert (H1 : setup_database_of (url_checker "data") "results.db" (Demo.fresh "")
               = (Return "data/results.db",
                  set_file "data/results.db" (Database []) (Demo.fresh "")))
    by (vm_compute; reflexivity).
  split; [exact H1|].
  exact (proj2 (X1_setup_database_creates_or_keeps (url_checker "data")
                  "results.db" (Demo.fresh "")) _ H1).
Defined.

(** ** [load_urls] *)

(** X2.  When the input file does not exist [load_urls] raises
    [FileNotFoundError] and changes nothing. *)
Theorem X2_load_urls_missing_file sc orc name s :
  fs s !! path_of sc name = None →
  load_urls_of sc orc name s = (Raise (Exception "FileNotFoundError"), s).
Proof.
  rewrite load_urls_of_eq, path_of_config. intros Hfile.
  by rewrite load_urls_read, Hfile.
Qed.

Lemma X2_load_urls_missing_file_witness :
  load_urls_of (url_checker "data") Demo.orc "missing.txt" (Demo.fresh "")
  = (Raise (Exception "FileNotFoundError"), Demo.fresh "").
Proof.
  apply (X2_load_urls_missing_file (url_checker "data") Demo.orc "missing.txt").
  vm_compute; reflexivity.
Defined.

Lemma split_from_nil s : ∀ word,
  Py.split_from word s = [] ↔ word = EmptyString ∧ all_space s = true.
Proof.
  induction s as [|c s IH]; intros word.
  - cbn. destruct word; split; try done. by intros [? _].
  - cbn [Py.split_from all_space]. destruct (Py.isspace c) eqn:Hc; cbn [andb].
    + destruct word as [|c' w].
      * apply IH.
      * split; [done|]. by intros [? _].
    + rewrite IH. split; [|by intros [_ ?]].
      intros [Hw _]. by destruct word.
Qed.

Lemma remove_dups_nil {A} `{EqDecision A} (l : list A) :
  remove_dups l = [] ↔ l = [].
Proof.
  split; [|by intros ->]. intros Hnil.
  destruct l as [|x l]; [done|].
  assert (Hin : x ∈ remove_dups (x :: l)) by (apply elem_of_remove_dups; by left).
  rewrite Hnil in Hin. by apply elem_of_nil in Hin.
Qed.

(** X3.  From a file that exists [load_urls] returns the empty list
    exactly when the file holds nothing but whitespace, the empty file
    included: that is no error. *)
Theorem X3_load_urls_empty_iff_blank sc orc name content s :
  Oracle_ok orc →
  files s !! path_of sc name = Some content →
  ∃ urls,
    load_urls_of sc orc name s = (Return urls, s)
    ∧ (urls = [] ↔ all_space content = true).
Proof.
  rewrite load_urls_of_eq, path_of_config. intros Hok Hfile.
  eexists. split; [by apply load_urls_eq|].
  rewrite split_strip.
  rewrite <- (Permutation_nil_r (set_order orc (Py.split content))).
  rewrite (set_order_perm orc Hok), Permutation_nil_r, remove_dups_nil.
  unfold Py.split. rewrite split_from_nil.
  split; [by intros [_ ?]|by intros ?].
Qed.

Lemma X3_load_urls_empty_iff_blank_witness :
  ∃ urls,
    load_urls_of (url_checker "data") Demo.orc "urls.txt" (Demo.fresh "")
    = (Return urls, Demo.fresh "")
    ∧ (urls = [] ↔ all_space "" = true).
Proof.
  apply (X3_load_urls_empty_iff_blank (url_checker "data") Demo.orc "urls.txt"
           "" (Demo.fresh "") demo_oracle_ok).
  vm_compute; reflexivity.
Defined.

(** X4.  The [strip()] before [split()] is redundant: stripping a text,
    on the left, on the right or on both sides, does not change what
    [split()] returns. *)
Theorem X4_strip_before_split_redundant content :
  Py.split (Py.strip content) = Py.split content
  ∧ Py.split (Py.lstrip content) = Py.split content
  ∧ Py.split (Py.rstrip content) = Py.split content.
Proof.
  split; [apply split_strip|]. split; [apply split_lstrip|].
  apply split_from_rstrip.
Qed.

(** ** [get_processed_urls] and [save_result] *)

Lemma get_processed_urls_eq orc cursor s table :
  dbs s !! cursor = Some table →
  Canonical.get_processed_urls orc cursor s
  = (Return (list_to_set (url <$> select_order orc table)), s).
Proof.
  intros Hdb%lookup_dbs. unfold Canonical.get_processed_urls, sqlite3.select_all.
  by rewrite bind_eq, Hdb.
Qed.

(** X5.  [get_processed_urls] returns the set of the URLs that have a
    row, whatever the order in which the rows are fetched, and changes
    nothing. *)
Theorem X5_get_processed_urls_keys sc orc cursor s table :
  Oracle_ok orc →
  dbs s !! cursor = Some table →
  ∃ processed : gset string,
    get_processed_urls_of sc orc cursor s = (Return processed, s)
    ∧ ∀ u, u ∈ processed ↔ u ∈ (url <$> table).
Proof.
  rewrite get_processed_urls_of_eq. intros Hok Hdb.
  eexists. split; [by apply get_processed_urls_eq|].
  intros u. by rewrite elem_of_list_to_set, (elem_of_select_order_urls orc Hok).
Qed.

Lemma X5_get_processed_urls_keys_witness :
  ∃ processed : gset string,
    get_processed_urls_of (url_checker "data") Demo.orc "data/results.db"
      Demo.table_a_b
    = (Return processed, Demo.table_a_b)
    ∧ ∀ u, u ∈ processed ↔ u ∈ (url <$> [Demo.row_a; Demo.row_b]).
Proof.
  apply (X5_get_processed_urls_keys (url_checker "data") Demo.orc
           "data/results.db" Demo.table_a_b [Demo.row_a; Demo.row_b]
           demo_oracle_ok).
  vm_compute; reflexivity.
Defined.

(** X6.  After [save_result] has written a row for a URL, with a count
    that is absent or fits in 64 bits, [get_processed_urls] returns that
    URL together with the URLs it returned before. *)
Theorem X6_saved_url_is_processed sc orc cursor u n st s table :
  Oracle_ok orc →
  dbs s !! cursor = Some table →
  sqlite3.fits n = true →
  ∃ s' (processed : gset string),
    save_result_of sc cursor u n st s = (Return tt, s')
    ∧ get_processed_urls_of sc orc cursor s' = (Return processed, s')
    ∧ ∀ x, x ∈ processed ↔ x = u ∨ x ∈ (url <$> table).
Proof.
  rewrite get_processed_urls_of_eq, save_result_of_eq.
  intros Hok Hdb%lookup_dbs Hfits.
  eexists. eexists. split.
  { rewrite (save_result_eq _ _ _ _ _ _ Hdb), Hfits. reflexivity. }
  split.
  - apply get_processed_urls_eq. apply lookup_dbs. cbn [fs set_file].
    apply lookup_insert_eq.
  - intros x. rewrite elem_of_list_to_set, (elem_of_select_order_urls orc Hok).
    apply elem_of_replace_into_urls.
Qed.

Lemma X6_saved_url_is_processed_witness :
  ∃ s' (processed : gset string),
    save_result_of (url_checker "data") "data/results.db" "http://c.test"
      None "Failed" Demo.table_a_b = (Return tt, s')
    ∧ get_processed_urls_of (url_checker "data") Demo.orc "data/results.db" s'
      = (Return processed, s')
    ∧ ∀ x, x ∈ processed
           ↔ x = "http://c.test" ∨ x ∈ (url <$> [Demo.row_a; Demo.row_b]).
Proof.
  apply (X6_saved_url_is_processed (url_checker "data") Demo.orc
           "data/results.db" "http://c.test" None "Failed" Demo.table_a_b
           [Demo.row_a; Demo.row_b] demo_oracle_ok).
  - vm_compute; reflexivity.
  - reflexivity.
Defined.

Lemma rows_of_replace_into_same r table :
  rows_of (url r) (sqlite3.replace_into r table) = [r].
Proof.
  unfold rows_of, sqlite3.replace_into.
  rewrite filter_app, filter_cons_True, filter_nil by done.
  assert (filter (λ r0, url r0 = url r) (filter (λ r', url r' ≠ url r) table) = [])
    as ->; [|done].
  induction table as [|r' table IH]; [done|].
  rewrite filter_cons. case_decide; [|done].
  by rewrite filter_cons_False.
Qed.

(** X7.  After [save_result], with a count that is absent or fits in
    64 bits, the table holds exactly one row for the URL written, the
    row written, whatever rows it had for that URL before; the rows of
    every other URL, every other file and database, the requests and
    the output are as they were. *)
Theorem X7_save_result_replaces_row sc cursor u n st s table :
  dbs s !! cursor = Some table →
  sqlite3.fits n = true →
  ∃ s' table',
    save_result_of sc cursor u n st s = (Return tt, s')
    ∧ dbs s' !! cursor = Some table'
    ∧ rows_of u table' = [mkRow u n st]
    ∧ (∀ v, v ≠ u → rows_of v table' = rows_of v table)
    ∧ (∀ q, q ≠ cursor → fs s' !! q = fs s !! q)
    ∧ db_text s' = db_text s ∧ requests s' = requests s ∧ stdout s' = stdout s.
Proof.
  rewrite save_result_of_eq. intros Hdb%lookup_dbs Hfits.
  eexists. eexists. split.
  { rewrite (save_result_eq _ _ _ _ _ _ Hdb), Hfits. reflexivity. }
  split; [apply lookup_dbs; cbn [fs set_file]; apply lookup_insert_eq|].
  cbn [fs db_text requests stdout set_file].
  split; [apply (rows_of_replace_into_same (mkRow u n st))|].
  split; [intros v Hv; by apply replace_into_rows_of|].
  split; [intros q Hq; by apply lookup_insert_ne|]. done.
Qed.

Lemma X7_save_result_replaces_row_witness :
  ∃ s' table',
    save_result_of (url_checker "data") "data/results.db" "http://b.test"
      (Some 5) "Success" Demo.table_a_b = (Return tt, s')
    ∧ dbs s' !! "data/results.db" = Some table'
    ∧ rows_of "http://b.test" table' = [mkRow "http://b.test" (Some 5) "Success"].
Proof.
  destruct (X7_save_result_replaces_row (url_checker "data") "data/results.db"
              "http://b.test" (Some 5) "Success" Demo.table_a_b
              [Demo.row_a; Demo.row_b])
    as (s' & table' & Hsave & Hdb & Hrows & _).
  - vm_compute; reflexivity.
  - reflexivity.
  - by exists s', table'.
Defined.

Lemma replace_into_twice r1 r2 table :
  url r1 = url r2 →
  sqlite3.replace_into r2 (sqlite3.replace_into r1 table)
  = sqlite3.replace_into r2 table.
Proof.
  intros Hurl. unfold sqlite3.replace_into.
  rewrite filter_app, filter_cons_False, filter_nil, app_nil_r
    by (intros H; by apply H).
  f_equal. rewrite <- Hurl.
  induction table as [|r' table IH]; [done|].
  rewrite filter_cons. case_decide; [|done].
  rewrite filter_cons_True by done. by rewrite IH.
Qed.

(** X8.  The last write wins: two upserts for the same URL, the second
    with a count that is absent or fits in 64 bits, leave the state the
    second alone would leave.  In particular such an upsert done twice is
    an upsert done once. *)
Theorem X8_save_result_last_write_wins sc cursor u n1 st1 n2 st2 s :
  sqlite3.fits n2 = true →
  (save_result_of sc cursor u n2 st2
     (save_result_of sc cursor u n1 st1 s).2).2
  = (save_result_of sc cursor u n2 st2 s).2.
Proof.
  rewrite save_result_of_eq. intros Hfits.
  destruct (save_result_state cursor u n1 st1 s) as [->|(table & Hdb & ->)];
    [done|].
  erewrite (save_result_eq cursor u n2 st2 (set_file _ _ _)); last first.
  { cbn [fs set_file]. apply lookup_insert_eq. }
  rewrite (save_result_eq _ _ _ _ _ _ Hdb), Hfits. cbn [snd].
  by rewrite set_file_set_file, replace_into_twice.
Qed.

Lemma X8_save_result_last_write_wins_witness :
  (save_result_of (url_checker "data") "data/results.db" "http://b.test"
     (Some 5) "Success"
     (save_result_of (url_checker "data") "data/results.db" "http://b.test"
        (Some (2 ^ 63)) "Success" Demo.table_a_b).2).2
  = (save_result_of (url_checker "data") "data/results.db" "http://b.test"
       (Some 5) "Success" Demo.table_a_b).2.
Proof.
  apply (X8_save_result_last_write_wins (url_checker "data") "data/results.db"
           "http://b.test" (Some (2 ^ 63)) "Success" (Some 5) "Success"
           Demo.table_a_b).
  reflexivity.
Defined.



(** ** [export_to_csv] *)

(** X9.  When there is no file at the path of the database
    [export_to_csv] raises the [OperationalError] of the [SELECT]: no
    CSV is written and nothing is printed; all that is left is the empty
    file [connect] creates at the path of the database. *)
Theorem X9_export_missing_database sc orc db_name csv_file s :
  fs s !! path_of sc db_name = None →
  export_to_csv_of sc orc db_name csv_file s
  = (Raise (Exception "OperationalError"),
     set_file (path_of sc db_name) (TextFile EmptyString) s).
Proof.
  rewrite export_to_csv_of_eq, path_of_config. intros Hdb.
  unfold Canonical.export_to_csv, sqlite3.connect, sqlite3.select_all.
  rewrite bind_eq, Hdb, bind_eq. cbn [fs set_file].
  by rewrite lookup_insert_eq.
Qed.

Lemma X9_export_missing_database_witness :
  export_to_csv_of (url_checker "data") Demo.orc "results.db" "results.csv"
    (Demo.fresh "")
  = (Raise (Exception "OperationalError"),
     set_file "data/results.db" (TextFile EmptyString) (Demo.fresh "")).
Proof.
  apply (X9_export_missing_database (url_checker "data") Demo.orc).
  vm_compute; reflexivity.
Defined.

(** X23.  Where the destination cannot be opened, be it a directory or a
    path in a directory that does not exist, [export_to_csv] raises the
    error of [open]: nothing is written and nothing is printed. *)
Theorem X23_export_unopenable_destination sc orc db_name csv_file s table cls :
  dbs s !! path_of sc db_name = Some table →
  fs s !! path_of sc csv_file = Some (Unopenable cls) →
  export_to_csv_of sc orc db_name csv_file s = (Raise (Exception cls), s).
Proof.
  rewrite export_to_csv_of_eq, !path_of_config. intros Hdb%lookup_dbs Hcsv.
  by rewrite (export_to_csv_eq _ _ _ _ _ _ Hdb), Hcsv.
Qed.

Lemma X23_export_unopenable_destination_witness :
  let s := set_file "data/results.db" (Database [Demo.row_a])
             (Demo.csv_is_directory "") in
  export_to_csv_of (url_checker "data") Demo.orc "results.db" "results.csv" s
  = (Raise (Exception "IsADirectoryError"), s).
Proof.
  apply (X23_export_unopenable_destination (url_checker "data") Demo.orc
           "results.db" "results.csv" _ [Demo.row_a] "IsADirectoryError").
  - vm_compute; reflexivity.
  - vm_compute; reflexivity.
Defined.

Lemma line_count_app s t :
  line_count (s +:+ t) = (line_count s + line_count t)%nat.
Proof.
  induction s as [|c s IH]; [done|].
  rewrite string_app_cons. cbn [line_count]. rewrite IH. lia.
Qed.

Lemma line_count_doubled f : line_count (csv.doubled f) = line_count f.
Proof.
  induction f as [|c f IH]; [done|].
  cbn [csv.doubled]. destruct (bool_decide (c = csv.quotechar)) eqn:Hc.
  - apply bool_decide_eq_true in Hc as ->. cbn [line_count].
    rewrite IH. by rewrite bool_decide_eq_false_2.
  - cbn [line_count]. by rewrite IH.
Qed.

Lemma line_count_write_field f : line_count (csv.write_field f) = line_count f.
Proof.
  unfold csv.write_field. destruct (csv.needs_quotes f); [|done].
  cbn [line_count]. rewrite line_count_app, line_count_doubled.
  cbn [line_count]. rewrite !bool_decide_eq_false_2 by done. lia.
Qed.

Lemma line_count_uint d : line_count (NilEmpty.string_of_uint d) = 0%nat.
Proof. induction d; cbn [NilEmpty.string_of_uint line_count]; by rewrite ?IHd. Qed.

Lemma line_count_str n : line_count (Py.str n) = 0%nat.
Proof.
  unfold Py.str, NilZero.string_of_int, NilZero.string_of_uint.
  destruct (Z.to_int n) as [d|d]; destruct d; try done;
    cbn [line_count]; rewrite ?bool_decide_eq_false_2 by done;
    apply (line_count_uint (_ d)).
Qed.

Lemma line_count_writerow_row r :
  line_count (csv.writerow (csv.fields_of_row r))
  = S (line_count (url r) + line_count (status r)).
Proof.
  destruct r as [u n st]. unfold csv.fields_of_row. cbn [url script_count status].
  set (c := match n with Some k => Py.str k | None => EmptyString end).
  assert (Hc : line_count c = 0%nat).
  { subst c. destruct n; [apply line_count_str|done]. }
  assert (csv.writerow [u; c; st]
          = csv.join_fields [u; c; st] +:+ csv.lineterminator) as ->
    by by destruct u.
  change (csv.join_fields [u; c; st])
    with (csv.write_field u +:+ String csv.delimiter
            (csv.write_field c +:+ String csv.delimiter (csv.write_field st))).
  rewrite !line_count_app. cbn [line_count].
  rewrite !line_count_app. cbn [line_count].
  rewrite !line_count_write_field, Hc.
  rewrite !bool_decide_eq_false_2 by done.
  change (line_count csv.lineterminator) with 1%nat. lia.
Qed.

Lemma line_count_writerows rows :
  Forall (λ r, line_count (url r) = 0%nat ∧ line_count (status r) = 0%nat) rows →
  line_count (csv.writerows (csv.fields_of_row <$> rows)) = length rows.
Proof.
  induction 1 as [|r rows [Hu Hs] _ IH]; [done|].
  rewrite fmap_cons. cbn [csv.writerows length].
  rewrite line_count_app, line_count_writerow_row, IH, Hu, Hs. lia.
Qed.

Lemma line_count_export_text rows :
  Forall (λ r, line_count (url r) = 0%nat ∧ line_count (status r) = 0%nat) rows →
  line_count (export_text rows) = S (length rows).
Proof.
  intros Hrows. unfold export_text.
  rewrite line_count_app, line_count_writerows by done. done.
Qed.

(** X10.  When no URL and no status of the table holds a line feed, the
    file exported to a destination that can be opened has one line for
    the header and one for each row. *)
Theorem X10_export_one_line_per_row sc orc db_name csv_file s table :
  Oracle_ok orc →
  dbs s !! path_of sc db_name = Some table →
  (∀ cls, fs s !! path_of sc csv_file ≠ Some (Unopenable cls)) →
  Forall (λ r, line_count (url r) = 0%nat ∧ line_count (status r) = 0%nat) table →
  ∃ text,
    files (export_to_csv_of sc orc db_name csv_file s).2
      !! path_of sc csv_file = Some text
    ∧ line_count text = S (length table).
Proof.
  rewrite export_to_csv_of_eq, !path_of_config.
  intros Hok Hdb%lookup_dbs Hcsv Hrows.
  rewrite (export_to_csv_eq _ _ _ _ _ _ Hdb).
  exists (export_text (select_order orc table)). split.
  - destruct (fs s !! resolve (config_of sc) csv_file) as [[c|t|cls]|] eqn:Hp;
      cbn [snd]; try (apply lookup_files; cbn [fs]; apply lookup_insert_eq).
    by destruct (Hcsv cls).
  - rewrite line_count_export_text.
    + by rewrite (select_order_perm orc Hok).
    + by rewrite (select_order_perm orc Hok).
Qed.

Lemma X10_export_one_line_per_row_witness :
  ∃ text,
    files (export_to_csv_of (url_checker "data") Demo.orc "results.db"
             "results.csv" Demo.table_a_b).2
      !! "data/results.csv" = Some text
    ∧ line_count text = 3%nat.
Proof.
  apply (X10_export_one_line_per_row (url_checker "data") Demo.orc "results.db"
           "results.csv" Demo.table_a_b [Demo.row_a; Demo.row_b]
           demo_oracle_ok).
  - vm_compute; reflexivity.
  - intros cls. vm_compute. discriminate.
  - repeat constructor.
Defined.

(** ** [main] *)

Lemma export_text_header rows :
  export_text rows = header_line +:+ csv.writerows (csv.fields_of_row <$> rows).
Proof. reflexivity. Qed.

Lemma opened_of sc s table :
  db_open (fs s !! path_of sc "results.db") = Return table →
  opened (config_of sc) s = Return table.
Proof. by rewrite path_of_config. Qed.

Lemma input_of sc args s table content :
  db_open (fs s !! path_of sc "results.db") = Return table →
  files s !! path_of sc (url_file args) = Some content →
  path_of sc (url_file args) ≠ path_of sc "results.db" →
  input (config_of sc) args s = Return content.
Proof.
  rewrite !path_of_config. intros Hopen Hfile Hne.
  by apply (input_TextFile _ _ _ table).
Qed.

Lemma filter_none {A} (P : A → Prop) `{∀ x, Decision (P x)} (l : list A) :
  (∀ x, x ∈ l → ¬ P x) → filter P l = [].
Proof.
  induction l as [|x l IH]; intros HP; [done|].
  rewrite filter_cons_False by (apply HP; by left).
  apply IH. intros y Hy. apply HP. by right.
Qed.

Lemma table_after_nothing cfg net orc args s :
  todo cfg orc args s = [] → table_after cfg net orc args s = table_before cfg s.
Proof.
  intros Htodo. apply table_after_not_started. unfold started. by rewrite Htodo.
Qed.

Lemma table_after_no_workers cfg net orc args s :
  (workers args <=? 0) = true →
  table_after cfg net orc args s = table_before cfg s.
Proof.
  intros Hw. apply table_after_not_started. unfold started. rewrite Hw.
  by destruct (todo cfg orc args s).
Qed.

(** X11.  When the input file is missing [main] stops with
    [FileNotFoundError] after it has set up the database: no request is
    issued, no file written and nothing printed. *)
Theorem X11_main_missing_input_file sc net orc args s table :
  let db := path_of sc "results.db" in
  db_open (fs s !! db) = Return table →
  fs s !! path_of sc (url_file args) = None →
  path_of sc (url_file args) ≠ db →
  main_of sc net orc args s
  = (Raise (Exception "FileNotFoundError"), set_file db (Database table) s).
Proof.
  cbn zeta. intros Hopen%opened_of Hfile Hne.
  rewrite main_of_eq, !path_of_config in *. rewrite main_eq.
  assert (Hinput : input (config_of sc) args s
                   = Raise (Exception "FileNotFoundError")).
  { unfold input. by rewrite fs_setup_ne, Hfile. }
  assert (Htodo : todo (config_of sc) orc args s = []).
  { unfold todo. by rewrite Hopen, Hinput. }
  unfold run_outcome, state_after, fs_after, stdout_after, stdout_loop,
    run_outcome, urls_fetched, started.
  rewrite (table_after_nothing _ _ _ _ _ Htodo), (table_before_opened _ _ _ Hopen).
  rewrite Htodo, Hopen, Hinput. unfold set_file.
  by rewrite !app_nil_r.
Qed.

Lemma X11_main_missing_input_file_witness :
  main_of (url_checker "data") Demo.net Demo.orc
    (mkArgs "missing.txt" 10 10 "results.csv") (Demo.fresh "")
  = (Raise (Exception "FileNotFoundError"),
     set_file "data/results.db" (Database []) (Demo.fresh "")).
Proof.
  apply (X11_main_missing_input_file (url_checker "data") Demo.net Demo.orc
           (mkArgs "missing.txt" 10 10 "results.csv") (Demo.fresh "") []).
  - vm_compute; reflexivity.
  - vm_compute; reflexivity.
  - vm_compute. discriminate.
Defined.

(** X12.  When every URL of the input file has a row already, and so
    when the file is empty or blank, [main] requests nothing, stores
    nothing, says that all URLs have been processed and still exports the
    table, to a destination that can be opened: what was there is
    replaced by the exported text. *)
Theorem X12_main_nothing_to_process sc net orc args s table content :
  Oracle_ok orc →
  let db := path_of sc "results.db" in
  let csv_file_path := path_of sc (csv_output args) in
  db_open (fs s !! db) = Return table →
  files s !! path_of sc (url_file args) = Some content →
  path_of sc (url_file args) ≠ db →
  (∀ u, u ∈ Py.split content → u ∈ (url <$> table)) →
  (∀ cls, fs s !! csv_file_path ≠ Some (Unopenable cls)) →
  main_of sc net orc args s
  = (Return tt,
     mkState
       (<[csv_file_path
          := TextFile
               (header_line
                +:+ csv.writerows (csv.fields_of_row <$> select_order orc table))]>
          (<[db := Database table]> (fs s)))
       (db_text s)
       (requests s)
       (stdout s ++ ["All URLs have been processed.";
                     "Results exported to " +:+ csv_file_path;
                     "Processing completed."])).
Proof.
  intros Hok. cbn zeta. intros Hopen Hfile Hne Hall Hcsv.
  pose proof (input_of _ _ _ _ _ Hopen Hfile Hne) as Hinput.
  apply opened_of in Hopen.
  rewrite main_of_eq, !path_of_config in *. rewrite main_eq.
  pose proof (table_before_opened _ _ _ Hopen) as Hbefore.
  assert (Htodo : todo (config_of sc) orc args s = []).
  { rewrite (todo_eq _ _ _ _ _ _ Hopen Hinput).
    apply filter_none. intros u Hu Hnin. apply Hnin.
    apply elem_of_list_to_set, (elem_of_select_order_urls orc Hok).
    rewrite Hbefore. apply Hall.
    by rewrite elem_of_set_order, split_strip in Hu. }
  pose proof (export_outcome_Return _ _ _ _ Hopen Hcsv) as Hexport.
  unfold run_outcome, state_after, fs_after, stdout_after, stdout_loop,
    run_outcome, urls_fetched, started.
  rewrite (table_after_nothing _ _ _ _ _ Htodo), Hbefore.
  rewrite Htodo, Hopen, Hinput, Hexport.
  by rewrite app_nil_r, export_text_header.
Qed.

Lemma X12_main_nothing_to_process_witness :
  (main_of (url_checker "data") Demo.net Demo.orc Demo.args (Demo.fresh "")).1
  = Return tt
  ∧ requests (main_of (url_checker "data") Demo.net Demo.orc Demo.args
                (Demo.fresh "")).2 = []
  ∧ stdout (main_of (url_checker "data") Demo.net Demo.orc Demo.args
              (Demo.fresh "")).2
    = ["All URLs have been processed.";
       "Results exported to data/results.csv"; "Processing completed."].
Proof.
  rewrite (X12_main_nothing_to_process (url_checker "data") Demo.net Demo.orc
             Demo.args (Demo.fresh "") [] "" demo_oracle_ok).
  - repeat split.
  - vm_compute; reflexivity.
  - vm_compute; reflexivity.
  - vm_compute. discriminate.
  - intros u Hu. vm_compute in Hu. by apply elem_of_nil in Hu.
  - intros cls. vm_compute. discriminate.
Defined.

(** X13.  When there is a URL to process and the number of workers is
    not positive, [main] announces the processing and stops with the
    [ValueError] of the thread pool: no request is issued, no row stored
    and no file exported. *)
Theorem X13_main_without_workers sc net orc args s table content u :
  Oracle_ok orc →
  let db := path_of sc "results.db" in
  db_open (fs s !! db) = Return table →
  files s !! path_of sc (url_file args) = Some content →
  path_of sc (url_file args) ≠ db →
  u ∈ Py.split content → u ∉ (url <$> table) →
  workers args ≤ 0 →
  ∃ n, 0 < n
    ∧ main_of sc net orc args s
      = (Raise (Exception "ValueError"),
         mkState (<[db := Database table]> (fs s)) (db_text s) (requests s)
           (stdout s ++ ["Starting processing of " +:+ Py.str n +:+ " URLs..."])).
Proof.
  intros Hok. cbn zeta. intros Hopen Hfile Hne Hu Hnin Hw.
  pose proof (input_of _ _ _ _ _ Hopen Hfile Hne) as Hinput.
  apply opened_of in Hopen.
  rewrite main_of_eq, !path_of_config in *. rewrite main_eq.
  pose proof (table_before_opened _ _ _ Hopen) as Hbefore.
  assert (Hin : u ∈ todo (config_of sc) orc args s).
  { apply (elem_of_todo orc Hok). by exists table, content. }
  exists (Py.len (todo (config_of sc) orc args s)).
  assert (Hw' : (workers args <=? 0) = true) by lia.
  unfold run_outcome, state_after, fs_after, stdout_after, stdout_loop,
    run_outcome, urls_fetched, started.
  rewrite (table_after_no_workers _ _ _ _ _ Hw'), Hbefore.
  rewrite Hopen, Hinput, Hw'.
  destruct (todo (config_of sc) orc args s) as [|u0 rest];
    [by apply elem_of_nil in Hin|].
  split; [unfold Py.len; cbn [length]; lia|].
  cbn [negb]. by rewrite !app_nil_r.
Qed.

Lemma X13_main_without_workers_witness :
  ∃ n, 0 < n
    ∧ main_of (url_checker "data") Demo.net Demo.orc
        (mkArgs "urls.txt" 0 10 "results.csv") (Demo.fresh "http://a.test")
      = (Raise (Exception "ValueError"),
         mkState (<["data/results.db" := Database []]>
                    (fs (Demo.fresh "http://a.test")))
           Demo.db_text []
           ["Starting processing of " +:+ Py.str n +:+ " URLs..."]).
Proof.
  apply (X13_main_without_workers (url_checker "data") Demo.net Demo.orc
           (mkArgs "urls.txt" 0 10 "results.csv") (Demo.fresh "http://a.test")
           [] "http://a.test" "http://a.test" demo_oracle_ok).
  - vm_compute; reflexivity.
  - vm_compute; reflexivity.
  - vm_compute. discriminate.
  - apply list_elem_of_In. vm_compute. by left.
  - vm_compute. intros H. by apply elem_of_nil in H.
  - done.
Defined.

(** X14.  No behaviour of the network makes a run fail: with a database
    that can be set up, an input file that exists, a positive number of
    workers and a destination that can be opened, [main] ends normally,
    whatever the HTTP client and the parser return or raise. *)
Theorem X14_main_survives_any_network sc net orc args s table content :
  db_open (fs s !! path_of sc "results.db") = Return table →
  files s !! path_of sc (url_file args) = Some content →
  path_of sc (url_file args) ≠ path_of sc "results.db" →
  0 < workers args →
  (∀ cls, fs s !! path_of sc (csv_output args) ≠ Some (Unopenable cls)) →
  (main_of sc net orc args s).1 = Return tt.
Proof.
  intros Hopen Hfile Hne Hw Hcsv.
  pose proof (input_of _ _ _ _ _ Hopen Hfile Hne) as Hinput.
  apply opened_of in Hopen.
  rewrite main_of_eq, !path_of_config in *. rewrite main_eq. cbn [fst].
  apply (run_outcome_Return _ _ _ _ _ _ Hopen Hinput); [by right|done].
Qed.

Lemma X14_main_survives_any_network_witness :
  (main_of (url_checker "data") Demo.net Demo.orc Demo.args
     (Demo.fresh "http://c.test http://d.test")).1 = Return tt.
Proof.
  apply (X14_main_survives_any_network (url_checker "data") Demo.net Demo.orc
           Demo.args (Demo.fresh "http://c.test http://d.test") []
           "http://c.test http://d.test").
  - vm_compute; reflexivity.
  - vm_compute; reflexivity.
  - vm_compute. discriminate.
  - done.
  - intros cls. vm_compute. discriminate.
Defined.

Lemma filter_Forall_id {A} (P : A → Prop) `{∀ x, Decision (P x)} (l : list A) :
  Forall P l → filter P l = l.
Proof.
  induction 1 as [|x l Hx _ IH]; [done|].
  by rewrite filter_cons_True, IH.
Qed.

Lemma replace_into_fresh r table :
  url r ∉ (url <$> table) → sqlite3.replace_into r table = (table ++ [r])%list.
Proof.
  intros Hnin. unfold sqlite3.replace_into. f_equal.
  apply filter_Forall_id, Forall_forall. intros r' Hr' Heq.
  apply Hnin. rewrite <- Heq. apply list_elem_of_fmap. eauto.
Qed.

Lemma store_results_append net ua t us : ∀ table,
  NoDup us → (∀ u, u ∈ us → u ∉ (url <$> table)) →
  store_results net ua t table us
  = (table ++ omap (λ u, fetched_row (fetch_result net ua u t)) us)%list.
Proof.
  induction us as [|u us IH]; intros table Hnd Hfresh.
  - cbn. by rewrite app_nil_r.
  - apply NoDup_cons in Hnd as [Hu Hnd].
    rewrite store_results_cons, store_result_eq. cbn [omap list_omap].
    destruct (fetched_row (fetch_result net ua u t)) as [r|] eqn:Hres.
    + apply fetched_row_url in Hres as Hu'.
      rewrite replace_into_fresh by (rewrite Hu'; apply Hfresh; by left).
      rewrite IH; [by rewrite <- app_assoc|done|].
      intros v Hv. rewrite fmap_app, elem_of_app. intros [Hin|Hin].
      * by apply (Hfresh v); [right|].
      * cbn in Hin. apply list_elem_of_singleton in Hin. congruence.
    + apply IH; [done|]. intros v Hv. apply Hfresh. by right.
Qed.

Lemma urls_fetched_fresh orc cfg args s u :
  Oracle_ok orc →
  u ∈ urls_fetched cfg orc args s → u ∉ (url <$> table_before cfg s).
Proof.
  intros Hok Hu%urls_fetched_todo.
  apply (elem_of_todo orc Hok) in Hu as (table & content & Hopen & _ & _ & Hnin).
  by rewrite (table_before_opened _ _ _ Hopen).
Qed.

(** A run only appends, in the order in which the futures complete. *)
Lemma table_after_append cfg net orc args s :
  Oracle_ok orc →
  table_after cfg net orc args s
  = (table_before cfg s
     ++ omap (λ u, fetched_row (fetch_result net (agent cfg) u (timeout args)))
          (completed cfg net orc args s))%list.
Proof.
  intros Hok. rewrite (table_after_eq _ _ _ _ _ Hok).
  apply store_results_append.
  - rewrite (completed_perm _ _ _ _ _ Hok). by apply urls_fetched_NoDup.
  - intros u. rewrite (completed_perm _ _ _ _ _ Hok). by apply urls_fetched_fresh.
Qed.

Lemma omap_pointwise {A B} (f g : A → option B) (l : list A) :
  (∀ x, f x = g x) → omap f l = omap g l.
Proof.
  intros Hfg. induction l as [|x l IH]; [done|].
  cbn. by rewrite Hfg, IH.
Qed.

Lemma rev_oracle_ok : Oracle_ok rev_oracle.
Proof. split; intros l; cbn; by rewrite reverse_Permutation. Qed.



Lemma rows_of_omap_fetched net ua t u us :
  NoDup us →
  rows_of u (omap (λ v, fetched_row (fetch_result net ua v t)) us)
  = if decide (u ∈ us)
    then option_list (fetched_row (fetch_result net ua u t))
    else [].
Proof.
  induction 1 as [|v us Hv Hnd IH].
  - by rewrite decide_False by apply not_elem_of_nil.
  - cbn [omap list_omap].
    destruct (fetched_row (fetch_result net ua v t)) as [r|] eqn:Hr.
    + apply fetched_row_url in Hr as Hurl.
      unfold rows_of in *. rewrite filter_cons, IH. rewrite Hurl.
      destruct (decide (v = u)) as [->|Hne].
      * rewrite decide_False by done. rewrite decide_True by by left.
        by rewrite Hr.
      * destruct (decide (u ∈ us)) as [Hin|Hnin].
        -- by rewrite decide_True by by right.
        -- rewrite decide_False; [done|]. intros [?|?]%elem_of_cons; congruence.
    + rewrite IH. destruct (decide (v = u)) as [->|Hne].
      * rewrite decide_False by done. rewrite decide_True by by left.
        by rewrite Hr.
      * destruct (decide (u ∈ us)) as [Hin|Hnin].
        -- by rewrite decide_True by by right.
        -- rewrite decide_False; [done|]. intros [?|?]%elem_of_cons; congruence.
Qed.

Lemma rows_of_fresh u table : u ∉ (url <$> table) → rows_of u table = [].
Proof.
  intros Hnin. apply filter_none. intros r Hr Heq.
  apply Hnin. rewrite <- Heq. apply list_elem_of_fmap. eauto.
Qed.

(** X16.  One failing URL does not spoil the batch.  After a run that
    could start its workers and did not export over the database, a URL
    of the input file that had no row has exactly the row [process_url]
    returned for it, or no row when its fetch raised or its count was
    refused, whatever happened to the other URLs. *)
Theorem X16_main_isolates_failures sc net orc args s table content u :
  Oracle_ok orc →
  let db := path_of sc "results.db" in
  let out := main_of sc net orc args s in
  db_open (fs s !! db) = Return table →
  files s !! path_of sc (url_file args) = Some content →
  path_of sc (url_file args) ≠ db →
  0 < workers args →
  u ∈ Py.split content →
  u ∉ (url <$> table) →
  path_of sc (csv_output args) ≠ db →
  ∃ table',
    dbs out.2 !! db = Some table'
    ∧ rows_of u table'
      = option_list (fetched_row (process_url_of sc net u (timeout args) s).1).
Proof.
  intros Hok. cbn zeta. intros Hopen Hfile Hne Hw Hu Hnin Hcsv.
  pose proof (input_of _ _ _ _ _ Hopen Hfile Hne) as Hinput.
  apply opened_of in Hopen.
  rewrite main_of_eq, !path_of_config, process_url_of_eq in *.
  rewrite main_eq, process_url_eq. cbn [fst snd].
  eexists. split.
  { apply (dbs_state_after _ _ _ _ _ _ Hopen). by left. }
  rewrite (table_after_append _ _ _ _ _ Hok).
  unfold rows_of at 1. rewrite filter_app.
  fold (rows_of u (table_before (config_of sc) s)).
  rewrite rows_of_fresh by by rewrite (table_before_opened _ _ _ Hopen).
  rewrite app_nil_l.
  fold (rows_of u (omap (λ v, fetched_row
                     (fetch_result net (agent (config_of sc)) v (timeout args)))
                     (completed (config_of sc) net orc args s))).
  rewrite rows_of_omap_fetched; last first.
  { rewrite (completed_perm _ _ _ _ _ Hok). by apply urls_fetched_NoDup. }
  rewrite decide_True; [done|].
  rewrite (completed_perm _ _ _ _ _ Hok), (urls_fetched_workers _ _ _ _ Hw).
  apply (elem_of_todo orc Hok). by exists table, content.
Qed.

Lemma X16_main_isolates_failures_witness :
  let out := main_of (url_checker "data") Demo.net Demo.orc Demo.args
               (Demo.fresh "http://c.test http://a.test") in
  ∃ table',
    dbs out.2 !! "data/results.db" = Some table'
    ∧ rows_of "http://a.test" table' = [Demo.row_a].
Proof.
  apply (X16_main_isolates_failures (url_checker "data") Demo.net Demo.orc
           Demo.args (Demo.fresh "http://c.test http://a.test") []
           "http://c.test http://a.test" "http://a.test" demo_oracle_ok).
  - vm_compute; reflexivity.
  - vm_compute; reflexivity.
  - vm_compute. discriminate.
  - done.
  - apply list_elem_of_In. vm_compute. right; by left.
  - vm_compute. intros H. by apply elem_of_nil in H.
  - vm_compute. discriminate.
Defined.

Lemma urls_to_process_perm cfg orc1 orc2 s content :
  Oracle_ok orc1 → Oracle_ok orc2 →
  urls_to_process cfg orc1 s content ≡ₚ urls_to_process cfg orc2 s content.
Proof.
  intros Hok1 Hok2. unfold urls_to_process.
  assert ((list_to_set (url <$> select_order orc1 (table_before cfg s)) : gset string)
          = list_to_set (url <$> select_order orc2 (table_before cfg s))) as ->.
  { apply set_eq. intros u. rewrite !elem_of_list_to_set.
    by rewrite (elem_of_select_order_urls orc1 Hok1),
      (elem_of_select_order_urls orc2 Hok2). }
  by rewrite (set_order_perm orc1 Hok1), (set_order_perm orc2 Hok2).
Qed.

Lemma todo_perm cfg orc1 orc2 args s :
  Oracle_ok orc1 → Oracle_ok orc2 →
  todo cfg orc1 args s ≡ₚ todo cfg orc2 args s.
Proof.
  intros Hok1 Hok2. unfold todo. destruct (opened cfg s); [|done].
  destruct (input cfg args s); [|done]. by apply urls_to_process_perm.
Qed.

Lemma Permutation_nil_iff {A} (l k : list A) : l ≡ₚ k → l = [] ↔ k = [].
Proof.
  intros Hp. split; intros ->.
  - by apply Permutation_nil_l in Hp.
  - by apply Permutation_nil_r in Hp.
Qed.

Lemma urls_fetched_perm cfg orc1 orc2 args s :
  Oracle_ok orc1 → Oracle_ok orc2 →
  urls_fetched cfg orc1 args s ≡ₚ urls_fetched cfg orc2 args s
  ∧ run_outcome cfg orc1 args s = run_outcome cfg orc2 args s.
Proof.
  intros Hok1 Hok2. unfold urls_fetched, run_outcome, started.
  pose proof (todo_perm cfg orc1 orc2 args s Hok1 Hok2) as Hp.
  pose proof (Permutation_nil_iff _ _ Hp) as Hnil.
  destruct (todo cfg orc1 args s) as [|u1 todo1];
    destruct (todo cfg orc2 args s) as [|u2 todo2];
    try (by destruct Hnil as [H1 H2]; (discriminate H1 || discriminate H2)).
  - done.
  - by destruct (workers args <=? 0).
Qed.

(** X17.  The result of a run does not depend on the order in which the
    fetches finish, nor on the order in which a set or a table is
    enumerated: two runs from the same state end alike, request the same
    URLs and leave the same rows, up to order; and they leave a table
    unless the database could not be set up or was exported over. *)
Theorem X17_main_order_independent sc net orc1 orc2 args s :
  Oracle_ok orc1 → Oracle_ok orc2 →
  let db := path_of sc "results.db" in
  let out1 := main_of sc net orc1 args s in
  let out2 := main_of sc net orc2 args s in
  out1.1 = out2.1
  ∧ (∃ fetched1 fetched2,
      requests out1.2 = (requests s ++ fetched1)%list
      ∧ requests out2.2 = (requests s ++ fetched2)%list
      ∧ fetched1 ≡ₚ fetched2)
  ∧ match dbs out1.2 !! db, dbs out2.2 !! db with
    | Some table1, Some table2 => table1 ≡ₚ table2
    | None, None => True
    | _, _ => False
    end
  ∧ (∀ table,
       db_open (fs s !! db) = Return table →
       path_of sc (csv_output args) ≠ db ∨ out1.1 ≠ Return tt →
       ∃ table1 table2,
         dbs out1.2 !! db = Some table1
         ∧ dbs out2.2 !! db = Some table2
         ∧ table1 ≡ₚ table2).
Proof.
  rewrite !main_of_eq, !path_of_config. intros Hok1 Hok2. cbn zeta.
  rewrite !main_eq. cbn [fst snd].
  destruct (urls_fetched_perm (config_of sc) orc1 orc2 args s Hok1 Hok2)
    as [Hp Hout].
  assert (Htables : table_after (config_of sc) net orc1 args s
                    ≡ₚ table_after (config_of sc) net orc2 args s).
  { rewrite !table_after_append by done.
    by rewrite !completed_perm, Hp by done. }
  split; [done|]. split.
  { exists (urls_fetched (config_of sc) orc1 args s),
      (urls_fetched (config_of sc) orc2 args s). done. }
  assert (Hkeep : ∀ table, opened (config_of sc) s = Return table →
            resolve (config_of sc) (csv_output args) ≠ resolve (config_of sc) "results.db"
            ∨ run_outcome (config_of sc) orc1 args s ≠ Return tt →
            dbs (state_after (config_of sc) net orc1 args s)
              !! resolve (config_of sc) "results.db"
            = Some (table_after (config_of sc) net orc1 args s)
            ∧ dbs (state_after (config_of sc) net orc2 args s)
                !! resolve (config_of sc) "results.db"
              = Some (table_after (config_of sc) net orc2 args s)).
  { intros table Hopen Hk. split.
    - by apply (dbs_state_after _ _ _ _ _ table).
    - apply (dbs_state_after _ _ _ _ _ table); [done|]. by rewrite <- Hout. }
  split.
  - destruct (opened (config_of sc) s) as [table|e] eqn:Hopen.
    + destruct (decide (resolve (config_of sc) (csv_output args)
                        = resolve (config_of sc) "results.db")) as [Heq|Hne].
      * destruct (run_outcome (config_of sc) orc1 args s) as [[]|e] eqn:Hrun1.
        -- symmetry in Hout.
           pose proof (fs_state_after_csv (config_of sc) net orc1 args s Hrun1)
             as H1.
           pose proof (fs_state_after_csv (config_of sc) net orc2 args s Hout)
             as H2.
           rewrite Heq in H1, H2. unfold dbs. rewrite !lookup_omap, H1, H2.
           done.
        -- destruct (Hkeep table eq_refl) as [-> ->]; [by right|done].
      * destruct (Hkeep table eq_refl) as [-> ->]; [by left|done].
    + unfold dbs, state_after, fs_after. cbn [fs]. rewrite Hopen.
      by destruct (omap table_of (fs s) !! resolve (config_of sc) "results.db").
  - intros table Hopen Hk. destruct (Hkeep table Hopen Hk) as [H1 H2]. eauto.
Qed.

Lemma X17_main_order_independent_witness :
  let out1 := main_of (url_checker "data") Demo.net Demo.orc Demo.args
                (Demo.fresh "http://a.test http://b.test") in
  let out2 := main_of (url_checker "data") Demo.net rev_oracle Demo.args
                (Demo.fresh "http://a.test http://b.test") in
  out1.1 = out2.1
  ∧ ∃ table1 table2,
      dbs out1.2 !! "data/results.db" = Some table1
      ∧ dbs out2.2 !! "data/results.db" = Some table2
      ∧ table1 ≡ₚ table2.
Proof.
  destruct (X17_main_order_independent (url_checker "data") Demo.net Demo.orc
              rev_oracle Demo.args (Demo.fresh "http://a.test http://b.test")
              demo_oracle_ok rev_oracle_ok) as (Hout & _ & _ & Htables).
  split; [exact Hout|]. apply (Htables []).
  - vm_compute; reflexivity.
  - left. vm_compute. discriminate.
Defined.

(** X18.  The file a run exports holds the table the run leaves: after a
    run that ends normally and whose destination is not the database,
    the exported file is the header line followed by the lines of the
    rows of the final table, in some order. *)
Theorem X18_main_exports_final_table sc net orc args s :
  Oracle_ok orc →
  let out := main_of sc net orc args s in
  out.1 = Return tt →
  path_of sc (csv_output args) ≠ path_of sc "results.db" →
  ∃ table' rows,
    dbs out.2 !! path_of sc "results.db" = Some table'
    ∧ rows ≡ₚ table'
    ∧ files out.2 !! path_of sc (csv_output args)
      = Some (header_line +:+ csv.writerows (csv.fields_of_row <$> rows)).
Proof.
  rewrite main_of_eq, !path_of_config. intros Hok. cbn zeta.
  rewrite main_eq. cbn [fst snd]. intros Hout Hne.
  exists (table_after (config_of sc) net orc args s).
  exists (select_order orc (table_after (config_of sc) net orc args s)).
  destruct (run_outcome_opened _ _ _ _ Hout) as (table & content & Hopen & _).
  split; [apply (dbs_state_after _ _ _ _ _ _ Hopen); by left|].
  split; [apply (select_order_perm orc Hok)|].
  apply lookup_files. by rewrite fs_state_after_csv, export_text_header.
Qed.

Lemma X18_main_exports_final_table_witness :
  let out := main_of (url_checker "data") Demo.net Demo.orc Demo.args
               (Demo.fresh "http://a.test http://b.test") in
  ∃ table' rows,
    dbs out.2 !! "data/results.db" = Some table'
    ∧ rows ≡ₚ table'
    ∧ files out.2 !! "data/results.csv"
      = Some (header_line +:+ csv.writerows (csv.fields_of_row <$> rows)).
Proof.
  apply (X18_main_exports_final_table (url_checker "data") Demo.net Demo.orc
           Demo.args (Demo.fresh "http://a.test http://b.test") demo_oracle_ok).
  - vm_compute; reflexivity.
  - vm_compute. discriminate.
Defined.

Lemma table_before_clean cfg s r :
  urls_clean s → r ∈ table_before cfg s →
  url r ≠ EmptyString ∧ no_space (url r).
Proof.
  intros Hs. unfold table_before, opened.
  destruct (fs s !! resolve cfg "results.db") as [[[|c content]|table|cls]|] eqn:Hdb;
    cbn; try by intros ?%elem_of_nil.
  apply (Hs (resolve cfg "results.db")). by apply lookup_dbs.
Qed.

Lemma table_after_clean cfg net orc args s r :
  Oracle_ok orc → urls_clean s →
  r ∈ table_after cfg net orc args s →
  url r ≠ EmptyString ∧ no_space (url r).
Proof.
  intros Hok Hs. rewrite (table_after_append _ _ _ _ _ Hok), elem_of_app.
  intros [Hin|Hin]; [by eapply table_before_clean|].
  apply list_elem_of_omap in Hin as (u & Hu & Hr).
  apply fetched_row_url in Hr as ->.
  rewrite (completed_perm _ _ _ _ _ Hok) in Hu. apply urls_fetched_todo in Hu.
  apply (elem_of_todo orc Hok) in Hu as (table & content & _ & _ & Hsplit & _).
  apply elem_of_split in Hsplit as (Hne & Hns & _). done.
Qed.

(** X19.  A run stores rows only for tokens of its input file: when no
    URL of any store is empty or holds whitespace before a run, none is
    or does after it. *)
Theorem X19_main_stores_only_tokens sc net orc args s :
  Oracle_ok orc →
  urls_clean s →
  urls_clean (main_of sc net orc args s).2.
Proof.
  rewrite main_of_eq. intros Hok Hs. rewrite main_eq. cbn [snd].
  intros path table r. rewrite lookup_dbs. unfold state_after, fs_after.
  cbn [fs].
  assert (Hloop : ∀ table,
            <[resolve (config_of sc) "results.db" :=
                Database (table_after (config_of sc) net orc args s)]> (fs s)
              !! path = Some (Database table) →
            r ∈ table → url r ≠ EmptyString ∧ no_space (url r)).
  { intros tb. rewrite lookup_insert. case_decide.
    - intros [= <-]. by apply table_after_clean.
    - intros Hp. apply (Hs path). by apply lookup_dbs. }
  destruct (opened (config_of sc) s).
  - destruct (run_outcome (config_of sc) orc args s); [|apply Hloop].
    rewrite lookup_insert. case_decide; [done|apply Hloop].
  - intros Hp. apply (Hs path). by apply lookup_dbs.
Qed.

Lemma X19_main_stores_only_tokens_witness :
  urls_clean (main_of (url_checker "data") Demo.net Demo.orc Demo.args
                (Demo.fresh "http://a.test  http://b.test")).2.
Proof.
  apply (X19_main_stores_only_tokens (url_checker "data") Demo.net Demo.orc
           Demo.args (Demo.fresh "http://a.test  http://b.test") demo_oracle_ok).
  intros path table r Hdb. vm_compute in Hdb. discriminate Hdb.
Defined.

Lemma no_space_line_count u : no_space u → line_count u = 0%nat.
Proof.
  induction u as [|c u IH]; [done|]. cbn [no_space line_count].
  intros [Hc Hu]. rewrite IH by done.
  rewrite bool_decide_eq_false_2; [done|]. by intros ->.
Qed.

(** X20.  Started from stores that satisfy the invariant of the Result
    Store and hold only tokens as URLs, a run that ends normally and
    whose destination is not the database exports a file of as many lines
    as the final table has rows, and one more for the header. *)
Theorem X20_main_exports_one_line_per_row sc net orc args s :
  Oracle_ok orc →
  stores_ok s → urls_clean s →
  let out := main_of sc net orc args s in
  out.1 = Return tt →
  path_of sc (csv_output args) ≠ path_of sc "results.db" →
  ∃ table' text,
    dbs out.2 !! path_of sc "results.db" = Some table'
    ∧ files out.2 !! path_of sc (csv_output args) = Some text
    ∧ line_count text = S (length table').
Proof.
  rewrite main_of_eq, !path_of_config. intros Hok Hstores Hclean. cbn zeta.
  pose proof (main_stores_ok (config_of sc) net orc args s Hstores) as Hstores'.
  rewrite main_eq in *. cbn [fst snd] in *. intros Hout Hne.
  set (table' := table_after (config_of sc) net orc args s).
  destruct (run_outcome_opened _ _ _ _ Hout) as (table & content & Hopen & _).
  assert (Hdb : dbs (state_after (config_of sc) net orc args s)
                  !! resolve (config_of sc) "results.db" = Some table').
  { apply (dbs_state_after _ _ _ _ _ _ Hopen). by left. }
  exists table', (export_text (select_order orc table')).
  split; [done|]. split.
  { apply lookup_files. by apply fs_state_after_csv. }
  rewrite line_count_export_text.
  - by rewrite (select_order_perm orc Hok).
  - rewrite (select_order_perm orc Hok). apply Forall_forall. intros r Hr.
    split.
    + apply no_space_line_count.
      by apply (table_after_clean (config_of sc) net orc args s r Hok Hclean).
    + destruct (Hstores' _ _ Hdb) as [_ Hrows].
      rewrite Forall_forall in Hrows.
      destruct (Hrows r Hr) as (_ & [-> | ->] & _); done.
Qed.

Lemma X20_main_exports_one_line_per_row_witness :
  let out := main_of (url_checker "data") Demo.net Demo.orc Demo.args
               (Demo.fresh "http://a.test http://b.test") in
  ∃ table' text,
    dbs out.2 !! "data/results.db" = Some table'
    ∧ files out.2 !! "data/results.csv" = Some text
    ∧ line_count text = S (length table').
Proof.
  apply (X20_main_exports_one_line_per_row (url_checker "data") Demo.net
           Demo.orc Demo.args (Demo.fresh "http://a.test http://b.test")
           demo_oracle_ok).
  - intros path table Hdb. vm_compute in Hdb. discriminate Hdb.
  - intros path table r Hdb. vm_compute in Hdb. discriminate Hdb.
  - vm_compute; reflexivity.
  - vm_compute. discriminate.
Defined.

(** X21.  A run that can start its workers requests exactly the URLs of
    the input file that have no row, each of them once, and no other. *)
Theorem X21_main_requests_new_urls_once sc net orc args s table content :
  Oracle_ok orc →
  db_open (fs s !! path_of sc "results.db") = Return table →
  files s !! path_of sc (url_file args) = Some content →
  path_of sc (url_file args) ≠ path_of sc "results.db" →
  0 < workers args →
  ∃ fetched,
    requests (main_of sc net orc args s).2 = (requests s ++ fetched)%list
    ∧ NoDup fetched
    ∧ ∀ u, u ∈ fetched ↔ u ∈ Py.split content ∧ u ∉ (url <$> table).
Proof.
  intros Hok Hopen Hfile Hne Hw.
  pose proof (input_of _ _ _ _ _ Hopen Hfile Hne) as Hinput.
  apply opened_of in Hopen.
  rewrite main_of_eq, !path_of_config in *. rewrite main_eq. cbn [snd].
  exists (urls_fetched (config_of sc) orc args s).
  split; [done|]. split; [by apply urls_fetched_NoDup|].
  intros u. rewrite (urls_fetched_workers _ _ _ _ Hw), (elem_of_todo orc Hok).
  split.
  - intros (t & c & Ht & Hc & ? & ?). rewrite Hopen in Ht. rewrite Hinput in Hc.
    by simplify_eq.
  - intros [? ?]. by exists table, content.
Qed.

Lemma X21_main_requests_new_urls_once_witness :
  ∃ fetched,
    requests (main_of (url_checker "data") Demo.net Demo.orc Demo.args
                Demo.state_a_c).2
    = (requests Demo.state_a_c ++ fetched)%list
    ∧ NoDup fetched
    ∧ ∀ u, u ∈ fetched
           ↔ u ∈ Py.split "http://a.test http://c.test"
             ∧ u ∉ (url <$> [Demo.row_a]).
Proof.
  apply (X21_main_requests_new_urls_once (url_checker "data") Demo.net
           Demo.orc Demo.args Demo.state_a_c [Demo.row_a]
           "http://a.test http://c.test" demo_oracle_ok).
  - vm_compute; reflexivity.
  - vm_compute; reflexivity.
  - vm_compute. discriminate.
  - done.
Defined.

(** X24.  When the destination of the export cannot be opened, a run
    that can start its workers still requests every URL of the input
    file without a row and stores the results, and only then stops with
    the error of [open]: the rows are in the table, nothing is
    exported. *)
Theorem X24_main_unopenable_destination sc net orc args s table content cls :
  Oracle_ok orc →
  let db := path_of sc "results.db" in
  let out := main_of sc net orc args s in
  db_open (fs s !! db) = Return table →
  files s !! path_of sc (url_file args) = Some content →
  path_of sc (url_file args) ≠ db →
  0 < workers args →
  fs s !! path_of sc (csv_output args) = Some (Unopenable cls) →
  out.1 = Raise (Exception cls)
  ∧ fs out.2 !! path_of sc (csv_output args) = Some (Unopenable cls)
  ∧ ∃ finished,
      NoDup finished
      ∧ (∀ u, u ∈ finished ↔ u ∈ Py.split content ∧ u ∉ (url <$> table))
      ∧ dbs out.2 !! db
        = Some ((table
                ++ omap (λ u, fetched_row
                                (process_url_of sc net u (timeout args) s).1)
                     finished)%list).
Proof.
  intros Hok. cbn zeta. intros Hopen Hfile Hne Hw Hcsv.
  pose proof (input_of _ _ _ _ _ Hopen Hfile Hne) as Hinput.
  assert (Hcsv_ne : path_of sc (csv_output args) ≠ path_of sc "results.db").
  { intros Heq. rewrite Heq in Hcsv. by rewrite Hcsv in Hopen. }
  apply opened_of in Hopen.
  rewrite main_of_eq, !path_of_config, process_url_of_eq in *.
  rewrite main_eq. cbn [fst snd].
  assert (Hout : run_outcome (config_of sc) orc args s = Raise (Exception cls)).
  { unfold run_outcome, export_outcome. rewrite Hopen, Hinput.
    rewrite fs_setup_ne, Hcsv by done.
    destruct (todo (config_of sc) orc args s); [done|].
    by rewrite (proj2 (Z.leb_gt _ _) Hw). }
  split; [done|]. split.
  { unfold state_after, fs_after. cbn [fs]. rewrite Hopen, Hout.
    by rewrite lookup_insert_ne. }
  exists (completed (config_of sc) net orc args s).
  split.
  { rewrite (completed_perm _ _ _ _ _ Hok). by apply urls_fetched_NoDup. }
  split.
  { intros u.
    rewrite (completed_perm _ _ _ _ _ Hok), (urls_fetched_workers _ _ _ _ Hw).
    rewrite (elem_of_todo orc Hok). split.
    - intros (t & c & Ht & Hc & ? & ?). rewrite Hopen in Ht. rewrite Hinput in Hc.
      by simplify_eq.
    - intros [? ?]. by exists table, content. }
  rewrite (dbs_state_after _ _ _ _ _ _ Hopen); last first.
  { right. by rewrite Hout. }
  rewrite (table_after_append _ _ _ _ _ Hok), (table_before_opened _ _ _ Hopen).
  do 2 f_equal. apply omap_pointwise. intros u. by rewrite process_url_eq.
Qed.

Lemma X24_main_unopenable_destination_witness :
  let out := main_of (url_checker "data") Demo.net Demo.orc Demo.args
               (Demo.csv_is_directory "http://a.test") in
  out.1 = Raise (Exception "IsADirectoryError")
  ∧ dbs out.2 !! "data/results.db" = Some [Demo.row_a].
Proof.
  destruct (X24_main_unopenable_destination (url_checker "data") Demo.net
              Demo.orc Demo.args (Demo.csv_is_directory "http://a.test") []
              "http://a.test" "IsADirectoryError" demo_oracle_ok)
    as (Hout & _ & _).
  - vm_compute; reflexivity.
  - vm_compute; reflexivity.
  - vm_compute. discriminate.
  - done.
  - vm_compute; reflexivity.
  - split; [exact Hout|]. vm_compute; reflexivity.
Defined.

Lemma main_database_unusable cfg net orc args s e :
  opened cfg s = Raise e →
  Canonical.main cfg net orc args s = (Raise e, s).
Proof.
  intros Hopen. rewrite main_eq.
  unfold run_outcome, state_after, fs_after, stdout_after, stdout_loop,
    run_outcome, urls_fetched, started, todo.
  rewrite Hopen. by rewrite !app_nil_r, state_eta.
Qed.

(** X25.  When the database cannot be set up, the path being one that
    cannot be opened or holding a file that is not a database, [main]
    stops at once with the error of SQLite: nothing is read, requested,
    written or printed. *)
Theorem X25_main_database_unusable sc net orc args s e :
  db_open (fs s !! path_of sc "results.db") = Raise e →
  main_of sc net orc args s = (Raise e, s)
  ∧ (e = Exception "OperationalError" ∨ e = Exception "DatabaseError").
Proof.
  intros Hopen. split.
  - rewrite main_of_eq. apply main_database_unusable.
    by rewrite path_of_config in Hopen.
  - destruct (fs s !! path_of sc "results.db") as [[[|c content]|table|cls]|];
      cbn in Hopen; simplify_eq; auto.
Qed.

Lemma X25_main_database_unusable_witness :
  let s := set_file "data/results.db" (Unopenable "FileNotFoundError")
             (Demo.fresh "http://a.test") in
  main_of (url_checker "data") Demo.net Demo.orc Demo.args s
  = (Raise (Exception "OperationalError"), s).
Proof.
  refine (proj1 (X25_main_database_unusable (url_checker "data") Demo.net
                   Demo.orc Demo.args _ (Exception "OperationalError") _)).
  vm_compute; reflexivity.
Defined.

(** X26.  A run that ends normally with the database as the destination
    of its export leaves the exported text where the database was: the
    table is gone, and every later run of the script stops at once with
    [DatabaseError], whatever its arguments. *)
Theorem X26_export_over_database sc net orc args s net' orc' args' :
  let db := path_of sc "results.db" in
  let out := main_of sc net orc args s in
  out.1 = Return tt →
  path_of sc (csv_output args) = db →
  dbs out.2 !! db = None
  ∧ (∃ text, files out.2 !! db = Some text ∧ Reread.reader text ≠ [])
  ∧ main_of sc net' orc' args' out.2 = (Raise (Exception "DatabaseError"), out.2).
Proof.
  cbn zeta. rewrite !main_of_eq, !path_of_config, main_eq. cbn [fst snd].
  intros Hout Heq.
  pose proof (fs_state_after_csv (config_of sc) net orc args s Hout) as Hfile.
  rewrite Heq in Hfile. split; [|split].
  - apply lookup_dbs_None. intros table. by rewrite Hfile.
  - eexists. split; [by apply lookup_files|]. by rewrite reader_export_text.
  - apply main_database_unusable. unfold opened. rewrite Hfile.
    apply db_open_export_text.
Qed.

Lemma X26_export_over_database_witness :
  let args := mkArgs "urls.txt" 10 10 "results.db" in
  let out := main_of (url_checker "data") Demo.net Demo.orc args
               (Demo.fresh "http://a.test") in
  dbs out.2 !! "data/results.db" = None
  ∧ main_of (url_checker "data") Demo.net Demo.orc Demo.args out.2
    = (Raise (Exception "DatabaseError"), out.2).
Proof.
  destruct (X26_export_over_database (url_checker "data") Demo.net Demo.orc
              (mkArgs "urls.txt" 10 10 "results.db")
              (Demo.fresh "http://a.test") Demo.net Demo.orc Demo.args)
    as (Hdb & _ & Hnext).
  - vm_compute; reflexivity.
  - vm_compute; reflexivity.
  - split; [exact Hdb|exact Hnext].
Defined.



(** X28.  How a run ends, which URLs it requests and what it prints do
    not depend on what the network answers. *)
Theorem X28_main_network_independent sc net1 net2 orc args s :
  let out1 := main_of sc net1 orc args s in
  let out2 := main_of sc net2 orc args s in
  out1.1 = out2.1
  ∧ requests out1.2 = requests out2.2
  ∧ stdout out1.2 = stdout out2.2.
Proof. cbn zeta. by rewrite !main_of_eq, !main_eq. Qed.
